(** * mqtt-to-viz: the day generator (make_files.py) and the CSV replayer
      (simple_mqtt_replayer.py), embedded as Rocq functions.

    Conventions of the embedding.
    - Python [int] is [Z].  A Python [float] is read in two ways.  In the
      exact reading it is a rational [Q]: sums, differences and quotients are
      those of the real values; comparisons and the literal [0.9] (the
      rational value of the double it denotes) are the program's own.  The
      whole program is embedded in this reading; it serves for what no
      rounding can change (which rows are written and in which order, the
      state codes, the order of the part counters, the draws).  In the
      binary64 reading (modules [Binary64] and [Rounded]) a [float] is a
      double, and every sum, difference and quotient is rounded to the
      nearest double, ties to even; infinities and NaN are values, the sign
      of zero is not kept.  The counter loop (lines 106-127) is embedded in
      this reading as well, and what is stated about the values of
      [run_minutes_today] and about the number of parts per cycle time is
      stated there.
    - A [datetime] of the fixed +05:30 zone without microseconds is the number
      of seconds since 0001-01-01T00:00:00 local time; [hour] and [minute]
      are computed from it.  The range checks of [datetime], of [timedelta]
      and of [datetime + timedelta] are those of CPython.
    - The global generator of module [random] is an abstract state with the
      operations [seed], [random] and [gauss] (class [PRNG]).
    - A [while] loop takes fuel; running out of fuel is the result
      [OutOfFuel], never a value.  An exception is the result [Raise].

    The file has three parts: the two programs, the vocabulary of the
    statements with the sample inputs, and the lemmas and theorems. *)

From Stdlib Require Import ZArith QArith Qround Qpower Lia Lqa List String Ascii Bool.
From stdpp Require Import base list.
Import ListNotations.
Open Scope Z_scope.

(** ** Results of fallible code *)

Inductive exn : Type :=
| ValueError
| OverflowError
| IndexError
| TypeError.

Inductive result (A : Type) : Type :=
| Ok (a : A)
| Raise (e : exn)
| OutOfFuel.

Arguments Ok {A} a.
Arguments Raise {A} e.
Arguments OutOfFuel {A}.

#[global] Instance result_ret : MRet result := @Ok.

#[global] Instance result_bind : MBind result := fun A B k r =>
  match r with
  | Ok a => k a
  | Raise e => Raise e
  | OutOfFuel => OutOfFuel
  end.

(** ** The pieces of the Python library the generator calls *)

Module Py.

(** [str.split(sep)] for a one-character separator. *)
Fixpoint split (sep : ascii) (s : string) : list string :=
  match s with
  | EmptyString => [EmptyString]
  | String c rest =>
      if Ascii.eqb c sep then EmptyString :: split sep rest
      else match split sep rest with
           | p :: ps => String c p :: ps
           | [] => [String c EmptyString]
           end
  end.

(** The white space [int()] skips around an ASCII literal: TAB, LF, VT, FF,
    CR and the space. *)
Definition is_space (c : ascii) : bool :=
  let n := nat_of_ascii c in
  ((9 <=? n)%nat && (n <=? 13)%nat) || (n =? 32)%nat.

Definition is_digit (c : ascii) : bool :=
  let n := nat_of_ascii c in (48 <=? n)%nat && (n <=? 57)%nat.

Definition digit_val (c : ascii) : Z := Z.of_nat (nat_of_ascii c) - 48.

Fixpoint lstrip (cs : list ascii) : list ascii :=
  match cs with
  | c :: r => if is_space c then lstrip r else cs
  | [] => []
  end.

Definition strip (cs : list ascii) : list ascii :=
  rev (lstrip (rev (lstrip cs))).

(** Decimal digits, single underscores allowed between two digits. *)
Fixpoint digits (acc : Z) (after_digit : bool) (cs : list ascii) : option Z :=
  match cs with
  | [] => if after_digit then Some acc else None
  | c :: r =>
      if is_digit c then digits (10 * acc + digit_val c) true r
      else if Ascii.eqb c "_" then
        if after_digit then digits acc false r else None
      else None
  end.

(** The default limit on the number of digits [int()] converts. *)
Definition int_max_str_digits : nat := 4300.

(** [int(s)] on ASCII text; [None] is [ValueError]. *)
Definition int (s : string) : option Z :=
  let body := strip (list_ascii_of_string s) in
  if (int_max_str_digits <? length (filter (fun c => is_digit c = true) body))%nat
  then None
  else
    match body with
    | c :: r =>
        if Ascii.eqb c "-" then option_map Z.opp (digits 0 false r)
        else if Ascii.eqb c "+" then digits 0 false r
        else digits 0 false body
    | [] => None
    end.

Definition is_leap (y : Z) : bool :=
  (y mod 4 =? 0) && (negb (y mod 100 =? 0) || (y mod 400 =? 0)).

Definition days_in_month (y m : Z) : Z :=
  if m =? 2 then (if is_leap y then 29 else 28)
  else if (m =? 4) || (m =? 6) || (m =? 9) || (m =? 11) then 30
  else 31.

Definition days_before_year (y : Z) : Z :=
  let p := y - 1 in p * 365 + p / 4 - p / 100 + p / 400.

Fixpoint days_before_month_aux (y : Z) (k : nat) : Z :=
  match k with
  | O => 0
  | S k' => days_before_month_aux y k' + days_in_month y (Z.of_nat k)
  end.

Definition days_before_month (y m : Z) : Z :=
  days_before_month_aux y (Z.to_nat (m - 1)).

(** [date(y, m, d).toordinal()]: 0001-01-01 is day 1. *)
Definition ymd2ord (y m d : Z) : Z :=
  days_before_year y + days_before_month y m + d.

(** A [datetime] of a fixed zone with microsecond 0: its seconds since
    0001-01-01T00:00:00. *)
Abbreviation datetime := Z (only parsing).

(** 9999-12-31T23:59:59, the last representable second. *)
Definition datetime_max : datetime := 3652059 * 86400 - 1.

Definition c_int (z : Z) : bool := (- 2 ^ 31 <=? z) && (z <? 2 ^ 31).

(** [datetime(y, m, d, hh, mi, ss, tzinfo=tz)]. *)
Definition datetime_new (y m d hh mi ss : Z) : result datetime :=
  if negb (c_int y && c_int m && c_int d && c_int hh && c_int mi && c_int ss)
  then Raise OverflowError
  else if (1 <=? y) && (y <=? 9999) && (1 <=? m) && (m <=? 12)
          && (1 <=? d) && (d <=? days_in_month y m)
          && (0 <=? hh) && (hh <? 24) && (0 <=? mi) && (mi <? 60)
          && (0 <=? ss) && (ss <? 60)
  then Ok ((ymd2ord y m d - 1) * 86400 + hh * 3600 + mi * 60 + ss)
  else Raise ValueError.

Definition hour (t : datetime) : Z := (t mod 86400) / 3600.
Definition minute (t : datetime) : Z := (t mod 3600) / 60.

(** [t + timedelta(seconds=s)]: the [timedelta] must have at most 999999999
    days, the sum must be a representable date. *)
Definition add_seconds (t : datetime) (s : Z) : result datetime :=
  if negb ((-999999999 <=? s / 86400) && (s / 86400 <=? 999999999))
  then Raise OverflowError
  else if (0 <=? t + s) && (t + s <=? datetime_max) then Ok (t + s)
  else Raise OverflowError.

End Py.

(** ** Binary64 numbers

    The [float] of Python: values, rounding to nearest with ties to even,
    and the operations the counter loop uses. *)

Module Binary64.

(** A binary64 number: a finite value (a rational in lowest terms), an
    infinity or a NaN. The sign of zero is not kept. *)
Inductive float : Type :=
| Finite (q : Q)
| Inf (negative : bool)
| NaN.

(** [floor(log2 q)] for [q > 0]. *)
Definition ilog2 (q : Q) : Z :=
  let d := Z.log2 (Qnum q) - Z.log2 (Zpos (Qden q)) in
  if Qle_bool (2 ^ d)%Q q then d else d - 1.

(** The nearest integer, the even one of two that are equally near. *)
Definition rne (q : Q) : Z :=
  let f := Qfloor q in
  match (q - inject_Z f ?= 1 # 2)%Q with
  | Lt => f
  | Gt => f + 1
  | Eq => if Z.even f then f else f + 1
  end.

(** The exponent of the last place of [q > 0]: 53 significant bits,
    exponents from -1022 on (below, the spacing stays [2^-1074]). *)
Definition fexp (q : Q) : Z := Z.max (ilog2 q) (-1022) - 52.

(** The multiple of [2 ^ fexp q] nearest to [q > 0]. *)
Definition nearest (q : Q) : Q :=
  (inject_Z (rne (q / 2 ^ fexp q)) * 2 ^ fexp q)%Q.

(** Rounding of [q > 0]; a result of [2^1024] or more is an overflow. *)
Definition round_pos (q : Q) : float :=
  if Qle_bool (2 ^ 1024)%Q (nearest q) then Inf false
  else Finite (Qred (nearest q)).

Definition opp (x : float) : float :=
  match x with
  | Finite q => Finite (Qred (- q))
  | Inf s => Inf (negb s)
  | NaN => NaN
  end.

(** The binary64 nearest to the rational [q]. *)
Definition round (q : Q) : float :=
  match (q ?= 0)%Q with
  | Eq => Finite 0
  | Gt => round_pos q
  | Lt => opp (round_pos (- q))
  end.

Definition add (x y : float) : float :=
  match x, y with
  | NaN, _ => NaN
  | _, NaN => NaN
  | Inf s, Inf s' => if Bool.eqb s s' then Inf s else NaN
  | Inf s, Finite _ => Inf s
  | Finite _, Inf s => Inf s
  | Finite a, Finite b => round (a + b)%Q
  end.

Definition sub (x y : float) : float := add x (opp y).

(** [x >= y] *)
Definition ge (x y : float) : bool :=
  match x, y with
  | NaN, _ => false
  | _, NaN => false
  | Inf false, _ => true
  | Inf true, Inf true => true
  | Inf true, _ => false
  | Finite _, Inf s => s
  | Finite a, Finite b => Qle_bool b a
  end.

(** [x / 60.0] *)
Definition div60 (x : float) : float :=
  match x with
  | Finite q => round (q / 60)%Q
  | Inf s => Inf s
  | NaN => NaN
  end.

(** [float(z)] for an [int]: the nearest binary64, [OverflowError] when
    there is none. *)
Definition of_int (z : Z) : result float :=
  match round (inject_Z z) with
  | Inf _ => Raise OverflowError
  | x => Ok x
  end.

End Binary64.

(** ** make_files.py *)

(** The options [build_args] returns ([outfile] and [replayer] only name
    files). *)
Record Args : Type := {
  site : string;
  line : string;
  machine : string;
  date : string;
  interval_sec : Z;
  ideal_ct_s : Q;
  reject_rate : Q
}.

(** [y, m, d = map(int, args.date.split("-"))]: the iterator is consumed
    piece by piece, a fourth piece is converted before the unpacking fails;
    every failure is a [ValueError]. *)
Definition parse_date (s : string) : result (Z * Z * Z) :=
  match map Py.int (Py.split "-" s) with
  | [Some y; Some m; Some d] => Ok (y, m, d)
  | _ => Raise ValueError
  end.

(** [while t <= t1: ts_list.append(t); t = t + timedelta(seconds=interval)] *)
Fixpoint build_ts (fuel : nat) (interval : Z) (t1 t : Py.datetime)
    (ts_list : list Py.datetime) : result (list Py.datetime) :=
  if t <=? t1 then
    match fuel with
    | O => OutOfFuel
    | S fuel' =>
        match Py.add_seconds t interval with
        | Ok t' => build_ts fuel' interval t1 t' (ts_list ++ [t])
        | Raise e => Raise e
        | OutOfFuel => OutOfFuel
        end
    end
  else Ok ts_list.

(** Lines 47-70 of [main]: the day's window and its sample instants. *)
Definition timeline (fuel : nat) (a : Args) : result (list Py.datetime) :=
  '(y, m, d) ← parse_date (date a);
  t0 ← Py.datetime_new y m d 0 0 0;
  t1 ← Py.datetime_new y m d 23 59 50;
  build_ts fuel (interval_sec a) t1 t0 [].

(** ** State threading: the global generator, the open CSV file *)

(** A computation over a state [S] that may raise; the state reached is kept
    when it does (what was written to a file stays written). *)
Definition ST (S A : Type) : Type := S -> result A * S.

#[global] Instance st_ret {S} : MRet (ST S) := fun A a s => (Ok a, s).

#[global] Instance st_bind {S} : MBind (ST S) := fun A B k m s =>
  match m s with
  | (Ok a, s') => k a s'
  | (Raise e, s') => (Raise e, s')
  | (OutOfFuel, s') => (OutOfFuel, s')
  end.

Definition lift {S A} (r : result A) : ST S A := fun s => (r, s).

(** [l[i]] and [l[i] = x] for an index [i >= 0]. *)
Definition getitem {A} (l : list A) (i : nat) : result A :=
  match l !! i with
  | Some x => Ok x
  | None => Raise IndexError
  end.

Definition setitem {A} (l : list A) (i : nat) (x : A) : result (list A) :=
  if (i <? length l)%nat then Ok (<[i:=x]> l) else Raise IndexError.

(** [enumerate(l)] *)
Definition enumerate {A} (l : list A) : list (nat * A) :=
  zip (seq 0 (length l)) l.

(** The interface of module [random] the generator uses. [seed a] is the
    state [random.seed(a)] installs, whatever the state was before. *)
Class PRNG (G : Type) : Type := {
  seed : Z -> G;
  random : G -> Q * G;
  gauss : Q -> Q -> G -> Q * G
}.

Definition Qltb (x y : Q) : bool := negb (Qle_bool y x).

(** The double the literal [0.9] denotes. *)
Definition lit_0_9 : Q := 8106479329266893 # 9007199254740992.

(** [mm = t.hour * 60 + t.minute] *)
Definition minute_of_day (t : Py.datetime) : Z := Py.hour t * 60 + Py.minute t.

Definition planned_windows : list (Z * Z) :=
  [(13 * 60, 13 * 60 + 30); (20 * 60, 20 * 60 + 15)].

Definition rare_faults : list (Z * Z) :=
  [(10 * 60 + 15, 3); (19 * 60 + 40, 4)].

(** [for (a, b) in planned_windows: if a <= mm < b: state_code[i] = 3] *)
Fixpoint planned_at (ws : list (Z * Z)) (mm : Z) (i : nat) (state_code : list Z)
    : result (list Z) :=
  match ws with
  | [] => Ok state_code
  | (a, b) :: ws' =>
      if (a <=? mm) && (mm <? b)
      then state_code' ← setitem state_code i 3; planned_at ws' mm i state_code'
      else planned_at ws' mm i state_code
  end.

(** [for i, t in enumerate(ts_list): ...] over the planned windows *)
Fixpoint planned_loop (ws : list (Z * Z)) (its : list (nat * Py.datetime))
    (state_code : list Z) : result (list Z) :=
  match its with
  | [] => Ok state_code
  | (i, t) :: its' =>
      state_code' ← planned_at ws (minute_of_day t) i state_code;
      planned_loop ws its' state_code'
  end.

(** [for (start_m, dur_m) in rare_faults:
       if start_m <= mm < start_m + dur_m: state_code[i] = 4] *)
Fixpoint faults_at (fs : list (Z * Z)) (mm : Z) (i : nat) (state_code : list Z)
    : result (list Z) :=
  match fs with
  | [] => Ok state_code
  | (start_m, dur_m) :: fs' =>
      if (start_m <=? mm) && (mm <? start_m + dur_m)
      then state_code' ← setitem state_code i 4; faults_at fs' mm i state_code'
      else faults_at fs' mm i state_code
  end.

Fixpoint faults_loop (fs : list (Z * Z)) (its : list (nat * Py.datetime))
    (state_code : list Z) : result (list Z) :=
  match its with
  | [] => Ok state_code
  | (i, t) :: its' =>
      state_code' ← faults_at fs (minute_of_day t) i state_code;
      faults_loop fs its' state_code'
  end.

(** The local variables of the counter loop (lines 106-127). *)
Record Counters : Type := {
  pt : Z;
  pg : Z;
  run_sec_accum : Q;
  accum_cycle : Q;
  parts_total : list Z;
  parts_good : list Z;
  run_minutes_today : list Q
}.

Definition counters0 : Counters :=
  {| pt := 0; pg := 0; run_sec_accum := 0%Q; accum_cycle := 0%Q;
     parts_total := []; parts_good := []; run_minutes_today := [] |}.

(** What the generator computes before it writes (lines 64-140). *)
Record Sim : Type := {
  ts_list : list Py.datetime;
  state_code : list Z;
  running : list Z;
  counters : Counters;
  motor_current : list Q
}.

(** A JSON value of a payload. *)
Inductive value : Type :=
| VInt (z : Z)
| VBool (b : bool)
| VFloat (q : Q).

(** The payload dictionary, in insertion order: ts, value, q, unit; [p_ts]
    is the datetime whose [isoformat()] the JSON text carries. *)
Record Payload : Type := {
  p_ts : Py.datetime;
  p_value : value;
  p_q : string;
  p_unit : option string
}.

(** One CSV row, by column: [ts_iso] is the datetime whose [isoformat()]
    is written, [payload_json] the dictionary [json.dumps] serialises. *)
Record Row : Type := {
  ts_iso : Py.datetime;
  topic : string;
  payload_json : Payload;
  col_site : string;
  col_line : string;
  col_machine : string;
  col_object : string;
  col_metric : string
}.

(** What a run of [main] leaves behind: it completed and wrote [rows], it
    raised [e], or it was still running when the fuel ran out. [csv] is
    [None] when the output file was never opened, else the rows written to
    it by then. *)
Inductive outcome : Type :=
| Completed (rows : list Row)
| Failed (e : exn) (csv : option (list Row))
| Unfinished (csv : option (list Row)).

Section Generator.

Context {G : Type} `{PRNG G}.

(** [random.random()] and [frand(mu, sigma)] on the global generator. *)
Definition rand : ST G Q := fun g => let (u, g') := random g in (Ok u, g').

Definition frand (mu sigma : Q) : ST G Q :=
  fun g => let (x, g') := gauss mu sigma g in (Ok x, g').

Definition set_seed (a : Z) : ST G unit := fun _ => (Ok tt, seed a).

(** The body of the base-profile loop (lines 78-84). *)
Definition base_state (mm : Z) : ST G Z :=
  if (0 <=? mm) && (mm <? 360) then
    u ← rand; mret (if Qltb u lit_0_9 then 0 else 3)
  else if (360 <=? mm) && (mm <? 1320) then
    u ← rand; mret (if Qltb u lit_0_9 then 2 else 3)
  else
    u ← rand; mret (if Qltb u (1 # 2) then 2 else 3).

Fixpoint base_profile (ts : list Py.datetime) (state_code : list Z)
    : ST G (list Z) :=
  match ts with
  | [] => mret state_code
  | t :: ts' =>
      s ← base_state (minute_of_day t);
      base_profile ts' (state_code ++ [s])
  end.

(** [while accum_cycle >= ideal_ct_s: ...] (lines 119-123) *)
Fixpoint cycle_loop (fuel : nat) (ideal reject : Q) (c : Counters)
    : ST G Counters :=
  if Qle_bool ideal (accum_cycle c) then
    match fuel with
    | O => lift OutOfFuel
    | S fuel' =>
        u ← rand;
        cycle_loop fuel' ideal reject
          {| pt := pt c + 1;
             pg := if Qle_bool reject u then pg c + 1 else pg c;
             run_sec_accum := run_sec_accum c;
             accum_cycle := (accum_cycle c - ideal)%Q;
             parts_total := parts_total c;
             parts_good := parts_good c;
             run_minutes_today := run_minutes_today c |}
    end
  else mret c.

(** One pass of [for i in range(n)] (lines 116-127). *)
Definition counter_step (fuel : nat) (interval : Z) (ideal reject : Q)
    (running : list Z) (i : nat) (c : Counters) : ST G Counters :=
  r ← lift (getitem running i);
  c1 ← (if negb (r =? 0) then
          cycle_loop fuel ideal reject
            {| pt := pt c; pg := pg c;
               run_sec_accum := (run_sec_accum c + inject_Z interval)%Q;
               accum_cycle := (accum_cycle c + inject_Z interval)%Q;
               parts_total := parts_total c;
               parts_good := parts_good c;
               run_minutes_today := run_minutes_today c |}
        else mret c);
  mret {| pt := pt c1; pg := pg c1;
          run_sec_accum := run_sec_accum c1;
          accum_cycle := accum_cycle c1;
          parts_total := parts_total c1 ++ [pt c1];
          parts_good := parts_good c1 ++ [pg c1];
          run_minutes_today := run_minutes_today c1 ++ [(run_sec_accum c1 / 60)%Q] |}.

Fixpoint counter_loop (fuel : nat) (interval : Z) (ideal reject : Q)
    (running : list Z) (range : list nat) (c : Counters) : ST G Counters :=
  match range with
  | [] => mret c
  | i :: range' =>
      c' ← counter_step fuel interval ideal reject running i c;
      counter_loop fuel interval ideal reject running range' c'
  end.

(** The motor-current loop (lines 131-140). *)
Definition motor_sample (s : Z) : ST G Q :=
  if s =? 2 then x ← frand 0 (6 # 10); mret (10 + x)%Q
  else if s =? 3 then x ← frand 0 (2 # 10); mret ((12 # 10) + x)%Q
  else if s =? 4 then x ← frand 0 (1 # 10); mret ((3 # 10) + x)%Q
  else x ← frand 0 (1 # 10); mret ((2 # 10) + x)%Q.

Fixpoint motor_loop (state_code : list Z) (range : list nat)
    (motor_current : list Q) : ST G (list Q) :=
  match range with
  | [] => mret motor_current
  | i :: range' =>
      s ← lift (getitem state_code i);
      x ← motor_sample s;
      motor_loop state_code range' (motor_current ++ [x])
  end.

(** Lines 42-140 of [main]: everything before the output file is opened. *)
Definition simulate (fuel : nat) (a : Args) : ST G Sim :=
  ts_list ← lift (timeline fuel a);
  let n := length ts_list in
  _ ← set_seed 7;
  state_code ← base_profile ts_list [];
  state_code ← lift (planned_loop planned_windows (enumerate ts_list) state_code);
  state_code ← lift (faults_loop rare_faults (enumerate ts_list) state_code);
  let running := map (fun s => if s =? 2 then 1 else 0) state_code in
  c ← counter_loop fuel (interval_sec a) (ideal_ct_s a) (reject_rate a)
        running (seq 0 n) counters0;
  motor_current ← motor_loop state_code (seq 0 n) [];
  mret {| ts_list := ts_list; state_code := state_code; running := running;
          counters := c; motor_current := motor_current |}.

End Generator.

(** ** The counter loop on binary64 numbers

    Lines 106-127 again, with the four [float] variables and the two
    [float] options as the binary64 numbers they are: every sum, difference
    and quotient is rounded. *)

Module Rounded.

Import Binary64.

Record Counters : Type := {
  pt : Z;
  pg : Z;
  run_sec_accum : float;
  accum_cycle : float;
  parts_total : list Z;
  parts_good : list Z;
  run_minutes_today : list float
}.

Definition counters0 : Counters :=
  {| pt := 0; pg := 0; run_sec_accum := Finite 0; accum_cycle := Finite 0;
     parts_total := []; parts_good := []; run_minutes_today := [] |}.

Section Loop.

Context {G : Type} `{PRNG G}.

(** [while accum_cycle >= ideal_ct_s: ...] (lines 119-123) *)
Fixpoint cycle_loop (fuel : nat) (ideal reject : float) (c : Counters)
    : ST G Counters :=
  if ge (accum_cycle c) ideal then
    match fuel with
    | O => lift OutOfFuel
    | S fuel' =>
        u ← rand;
        cycle_loop fuel' ideal reject
          {| pt := pt c + 1;
             pg := if ge (Finite u) reject then pg c + 1 else pg c;
             run_sec_accum := run_sec_accum c;
             accum_cycle := sub (accum_cycle c) ideal;
             parts_total := parts_total c;
             parts_good := parts_good c;
             run_minutes_today := run_minutes_today c |}
    end
  else mret c.

(** One pass of [for i in range(n)] (lines 116-127); [interval] is an
    [int], converted when it is added to a [float]. *)
Definition counter_step (fuel : nat) (interval : Z) (ideal reject : float)
    (running : list Z) (i : nat) (c : Counters) : ST G Counters :=
  r ← lift (getitem running i);
  c1 ← (if negb (r =? 0) then
          x ← lift (of_int interval);
          cycle_loop fuel ideal reject
            {| pt := pt c; pg := pg c;
               run_sec_accum := add (run_sec_accum c) x;
               accum_cycle := add (accum_cycle c) x;
               parts_total := parts_total c;
               parts_good := parts_good c;
               run_minutes_today := run_minutes_today c |}
        else mret c);
  mret {| pt := pt c1; pg := pg c1;
          run_sec_accum := run_sec_accum c1;
          accum_cycle := accum_cycle c1;
          parts_total := parts_total c1 ++ [pt c1];
          parts_good := parts_good c1 ++ [pg c1];
          run_minutes_today := run_minutes_today c1 ++ [div60 (run_sec_accum c1)] |}.

Fixpoint counter_loop (fuel : nat) (interval : Z) (ideal reject : float)
    (running : list Z) (range : list nat) (c : Counters) : ST G Counters :=
  match range with
  | [] => mret c
  | i :: range' =>
      c' ← counter_step fuel interval ideal reject running i c;
      counter_loop fuel interval ideal reject running range' c'
  end.

End Loop.

End Rounded.

(** [topic(object_, metric)] under [root = f"symbiotic/{site}/{line}/{machine}"] *)
Definition topic_of (a : Args) (object_ metric : string) : string :=
  ("symbiotic/" ++ site a ++ "/" ++ line a ++ "/" ++ machine a
     ++ "/" ++ object_ ++ "/" ++ metric)%string.

(** [add_row] (lines 151-161): one row appended to the open file. *)
Definition add_row (a : Args) (t : Py.datetime) (object_ metric : string)
    (v : value) (unit : option string) : ST (list Row) () :=
  fun w =>
    (Ok tt,
     w ++ [{| ts_iso := t;
              topic := topic_of a object_ metric;
              payload_json :=
                {| p_ts := t; p_value := v; p_q := "good"; p_unit := unit |};
              col_site := site a; col_line := line a; col_machine := machine a;
              col_object := object_; col_metric := metric |}]).

(** The time-series loop (lines 167-173). *)
Fixpoint series_rows (a : Args) (sim : Sim) (its : list (nat * Py.datetime))
    : ST (list Row) () :=
  match its with
  | [] => mret tt
  | (i, t) :: its' =>
      s ← lift (getitem (state_code sim) i);
      _ ← add_row a t "state" "state_code" (VInt s) None;
      r ← lift (getitem (running sim) i);
      _ ← add_row a t "state" "running" (VBool (negb (r =? 0))) None;
      p ← lift (getitem (parts_total (counters sim)) i);
      _ ← add_row a t "counter" "parts_total" (VInt p) (Some "count"%string);
      g ← lift (getitem (parts_good (counters sim)) i);
      _ ← add_row a t "counter" "parts_good" (VInt g) (Some "count"%string);
      m ← lift (getitem (run_minutes_today (counters sim)) i);
      _ ← add_row a t "kpi" "run_minutes_today" (VFloat m) (Some "min"%string);
      x ← lift (getitem (motor_current sim) i);
      _ ← add_row a t "sensor" "motor_current_a" (VFloat x) (Some "A"%string);
      series_rows a sim its'
  end.

(** The body of [with open(outfile, "w") ...] (lines 144-173). *)
Definition write_csv (a : Args) (sim : Sim) : ST (list Row) () :=
  t0 ← lift (getitem (ts_list sim) 0);
  _ ← add_row a t0 "config" "ideal_ct_s" (VFloat (ideal_ct_s a)) (Some "s"%string);
  series_rows a sim (enumerate (ts_list sim)).

(** [main]: [g0] is the state of the global generator when the program
    starts. *)
Definition main {G : Type} `{PRNG G} (fuel : nat) (a : Args) (g0 : G) : outcome :=
  match simulate fuel a g0 with
  | (Ok sim, _) =>
      match write_csv a sim [] with
      | (Ok _, rows) => Completed rows
      | (Raise e, rows) => Failed e (Some rows)
      | (OutOfFuel, rows) => Unfinished (Some rows)
      end
  | (Raise e, _) => Failed e None
  | (OutOfFuel, _) => Unfinished None
  end.

(** ** simple_mqtt_replayer.py *)

Module Replayer.

(** What [datetime.fromisoformat] returns: the instant in seconds (of UTC
    when the text carries an offset, of the wall clock when it does not) and
    whether it carries an offset. *)
Record stamp : Type := {
  instant : Q;
  aware : bool
}.

(** A row of the CSV as [csv.DictReader] gives it; the loop reads these
    three columns. *)
Record Row : Type := {
  ts_iso : string;
  topic : string;
  payload_json : string
}.

(** The options the pass uses. *)
Record Args : Type := {
  speed : Q;
  qos : Z;
  retain : bool
}.

(** What the pass does to the outside, in order. *)
Inductive action : Type :=
| Sleep (seconds : Q)
| Publish (topic payload : string) (qos : Z) (retain : bool).

Definition emit (x : action) : ST (list action) () :=
  fun tr => (Ok tt, tr ++ [x]).

(** [max(args.speed, 0.001)] *)
Definition clamp_speed (s : Q) : Q :=
  if Qltb s (1 # 1000) then 1 # 1000 else s.

(** Lines 42-45: the suspension before a row is delivered. Subtracting an
    aware from a naive datetime raises [TypeError]. *)
Definition wait (args : Args) (prev t : option stamp) : ST (list action) () :=
  match prev, t with
  | Some p, Some t' =>
      if negb (Bool.eqb (aware t') (aware p)) then lift (Raise TypeError)
      else
        let dt := (instant t' - instant p)%Q in
        if Qltb 0 dt then emit (Sleep (dt / clamp_speed (speed args))%Q)
        else mret tt
  | _, _ => mret tt
  end.

Section Pass.

(** [datetime.fromisoformat], [None] when it raises: the [try] of lines
    38-41 turns every exception into [t = None]. *)
Variable fromisoformat : string -> option stamp.

(** The loop of [publish_once] (lines 35-47), [prev] threaded. *)
Fixpoint publish_rows (args : Args) (prev : option stamp) (rows : list Row)
    : ST (list action) () :=
  match rows with
  | [] => mret tt
  | row :: rows' =>
      let t := fromisoformat (ts_iso row) in
      _ ← wait args prev t;
      _ ← emit (Publish (topic row) (payload_json row) (qos args) (retain args));
      publish_rows args t rows'
  end.

(** [publish_once]: [prev = None] at the start of every pass. *)
Definition publish_once (args : Args) (rows : list Row) : ST (list action) () :=
  publish_rows args None rows.

(** The timestamp the loop holds in [prev] after the rows [rows]. *)
Definition last_ts (prev : option stamp) (rows : list Row) : option stamp :=
  match rev rows with
  | [] => prev
  | row :: _ => fromisoformat (ts_iso row)
  end.

End Pass.

(** The options [main] reads besides those of the pass (lines 9-17). *)
Record Options : Type := {
  host : string;
  port : Z;
  username : option string;
  password : option string;
  client_id : string;
  loop : bool;
  pass_args : Args
}.

(** The calls on the MQTT client (lines 20-29 and 58-59). *)
Inductive call : Type :=
| Client (client_id : string)
| UsernamePwSet (username : string) (password : option string)
| TlsSet
| TlsInsecureSet (value : bool)
| Connect (host : string) (port keepalive : Z)
| LoopStart
| LoopStop
| Disconnect.

(** What a session does to the outside: calls on the client, and the sleeps
    and deliveries of the passes. *)
Inductive event : Type :=
| Call (c : call)
| Act (a : action).

(** Lines 20-29: the client is made, given the credentials when there is a
    non-empty user name, given TLS when the port is 8883, and connected. *)
Definition setup (o : Options) : list call :=
  [Client (client_id o)]
  ++ match username o with
     | Some (String c u) => [UsernamePwSet (String c u) (password o)]
     | _ => []
     end
  ++ (if port o =? 8883 then [TlsSet; TlsInsecureSet false] else [])
  ++ [Connect (host o) (port o) 60; LoopStart].

Section Session.

Variable fromisoformat : string -> option stamp.

(** [while True: publish_once()] (lines 51-52): every pass reads the file
    again; [rows] are its rows. *)
Fixpoint forever (fuel : nat) (args : Args) (rows : list Row)
    : ST (list action) () :=
  match fuel with
  | O => lift OutOfFuel
  | S fuel' =>
      _ ← publish_once fromisoformat args rows;
      forever fuel' args rows
  end.

(** [main] from line 20 on, for a session in which the calls on the client
    return and no [KeyboardInterrupt] arrives: the [finally] clause runs when
    the passes end, by returning or by raising. *)
Definition main (fuel : nat) (o : Options) (rows : list Row)
    : result () * list event :=
  let (r, acts) :=
    (if loop o then forever fuel (pass_args o) rows
     else publish_once fromisoformat (pass_args o) rows) [] in
  (r,
   map Call (setup o) ++ map Act acts
   ++ match r with
      | OutOfFuel => []
      | _ => [Call LoopStop; Call Disconnect]
      end).

End Session.

(** Sample inputs: a parser that reads a timestamp as whole seconds, and rows
    with the timestamps it is given. *)
Definition iso_seconds (s : string) : option stamp :=
  option_map (fun z => {| instant := inject_Z z; aware := true |}) (Py.int s).

Definition args1 : Args := {| speed := 1; qos := 0; retain := false |}.

Definition row_at (stamp name : string) : Row :=
  {| ts_iso := stamp; topic := name; payload_json := "{}" |}.

Definition pub (name : string) : action := Publish name "{}" 0 false.

End Replayer.

(** ** The vocabulary of the statements *)

(** The instants [t, t + interval, ...], [k] of them. *)
Definition instants (t interval : Z) (k : nat) : list Z :=
  map (fun j => t + Z.of_nat j * interval) (seq 0 k).

(** The date is three integers that name a day of the calendar. *)
Definition valid_date (s : string) : bool :=
  match parse_date s with
  | Ok (y, m, d) =>
      match Py.datetime_new y m d 0 0 0 with
      | Ok _ => true
      | _ => false
      end
  | _ => false
  end.

(** Midnight of a valid date (0 otherwise). *)
Definition midnight (s : string) : Py.datetime :=
  match parse_date s with
  | Ok (y, m, d) =>
      match Py.datetime_new y m d 0 0 0 with
      | Ok t0 => t0
      | _ => 0
      end
  | _ => 0
  end.

(** The date is text of 7-bit characters, the text [Py.int] models. *)
Definition ascii_text (s : string) : bool :=
  forallb (fun c => (nat_of_ascii c <? 128)%nat) (list_ascii_of_string s).

(** [mm] lies in one of the windows [[a, b)]. *)
Definition in_planned (ws : list (Z * Z)) (mm : Z) : bool :=
  existsb (fun w => (fst w <=? mm) && (mm <? snd w)) ws.

(** [mm] lies in one of the windows [[start_m, start_m + dur_m)]. *)
Definition in_fault (fs : list (Z * Z)) (mm : Z) : bool :=
  existsb (fun w => (fst w <=? mm) && (mm <? fst w + snd w)) fs.

(** Some pass [(i, t)] of an enumeration has index [j] and satisfies [p]. *)
Definition hit (p : Z -> bool) (its : list (nat * Py.datetime)) (j : nat) : bool :=
  existsb (fun it => (fst it =? j)%nat && p (minute_of_day (snd it))) its.

(** The number of instants among the first [k] whose running flag is set. *)
Fixpoint run_count (running : list Z) (k : nat) : Z :=
  match k with
  | O => 0
  | S k' =>
      run_count running k'
      + match running !! k' with
        | Some r => if r =? 0 then 0 else 1
        | None => 0
        end
  end.

(** [l] never decreases from one index to a later one. *)
Definition monotone {A} (R : A -> A -> Prop) (l : list A) : Prop :=
  forall i j x y, (i <= j)%nat -> l !! i = Some x -> l !! j = Some y -> R x y.

(** What the counter loop maintains about the two part counters. *)
Definition parts_inv (i : nat) (c : Counters) : Prop :=
  length (parts_total c) = i
  /\ length (parts_good c) = i
  /\ 0 <= pg c <= pt c
  /\ (forall j x, parts_total c !! j = Some x -> x <= pt c)
  /\ (forall j y, parts_good c !! j = Some y -> y <= pg c)
  /\ (forall j x y, parts_total c !! j = Some x -> parts_good c !! j = Some y ->
        0 <= y <= x)
  /\ monotone Z.le (parts_total c)
  /\ monotone Z.le (parts_good c).

(** The running time in closed form: [interval] seconds for every running
    instant so far; every entry of [run_minutes_today] is that over 60. *)
Definition run_inv (interval : Z) (running : list Z) (i : nat) (c : Counters)
    : Prop :=
  length (run_minutes_today c) = i
  /\ (run_sec_accum c == inject_Z (interval * run_count running i))%Q
  /\ forall j q, run_minutes_today c !! j = Some q ->
       (q == inject_Z (interval * run_count running (S j)) / 60)%Q.

(** The cycle accumulator in closed form, for a positive cycle time: the
    parts completed times the cycle time, plus the rest in the accumulator,
    is the running time; the rest is less than one cycle. *)
Definition cycle_inv (interval : Z) (ideal : Q) (running : list Z) (i : nat)
    (c : Counters) : Prop :=
  (0 <= accum_cycle c < ideal)%Q
  /\ (inject_Z (pt c) * ideal + accum_cycle c
      == inject_Z (interval * run_count running i))%Q
  /\ forall j x, parts_total c !! j = Some x ->
       (inject_Z x * ideal <= inject_Z (interval * run_count running (S j))
        < (inject_Z x + 1) * ideal)%Q.

Section DrawVocabulary.

Context {G : Type} `{PRNG G}.

(** The generator state after [k] calls of [random.random()], and the value
    the next call returns. *)
Fixpoint draw_state (g : G) (k : nat) : G :=
  match k with
  | O => g
  | S k' => draw_state (snd (random g)) k'
  end.

Definition nth_draw (g : G) (k : nat) : Q := fst (random (draw_state g k)).

(** The base-profile state of minute [mm] for the draw [u]. *)
Definition base_of (mm : Z) (u : Q) : Z :=
  if (0 <=? mm) && (mm <? 360) then (if Qltb u lit_0_9 then 0 else 3)
  else if (360 <=? mm) && (mm <? 1320) then (if Qltb u lit_0_9 then 2 else 3)
  else (if Qltb u (1 # 2) then 2 else 3).

(** The three layers in closed form: fault over planned over base. *)
Definition layered_state (mm : Z) (u : Q) : Z :=
  if in_fault rare_faults mm then 4
  else if in_planned planned_windows mm then 3
  else base_of mm u.

(** Among the next [k] draws from [g], those that are [>= reject]: the parts
    that are not rejected. *)
Fixpoint good_count (reject : Q) (g : G) (k : nat) : Z :=
  match k with
  | O => 0
  | S k' =>
      (if Qle_bool reject (fst (random g)) then 1 else 0)
      + good_count reject (snd (random g)) k'
  end.

(** Among the draws number [first], ..., [first + k - 1] of the stream that
    starts at [g], those that are [>= reject]. *)
Fixpoint accepted (reject : Q) (g : G) (first k : nat) : Z :=
  match k with
  | O => 0
  | S k' =>
      accepted reject g first k'
      + (if Qle_bool reject (nth_draw g (first + k')) then 1 else 0)
  end.

(** What the counter loop maintains about the generator: it has drawn once
    per completed part, and the good parts are the accepted draws. *)
Definition draw_inv (reject : Q) (g0 : G) (i : nat) (c : Counters) (g : G)
    : Prop :=
  parts_inv i c
  /\ exists k : nat,
       pt c = Z.of_nat k
       /\ pg c = good_count reject g0 k
       /\ g = draw_state g0 k
       /\ forall j p q,
            parts_total c !! j = Some p -> parts_good c !! j = Some q ->
            0 <= p /\ q = good_count reject g0 (Z.to_nat p).

End DrawVocabulary.

(** The row [add_row] builds. *)
Definition mk_row (a : Args) (t : Py.datetime) (object_ metric : string)
    (v : value) (unit : option string) : Row :=
  {| ts_iso := t;
     topic := topic_of a object_ metric;
     payload_json := {| p_ts := t; p_value := v; p_q := "good"; p_unit := unit |};
     col_site := site a; col_line := line a; col_machine := machine a;
     col_object := object_; col_metric := metric |}.

(** The six rows of the instant [t] at index [i], in the order written. *)
Definition rows_of (a : Args) (sim : Sim) (it : nat * Py.datetime) : list Row :=
  let (i, t) := it in
  [ mk_row a t "state" "state_code" (VInt (nth i (state_code sim) 0)) None;
    mk_row a t "state" "running"
      (VBool (negb (nth i (running sim) 0 =? 0))) None;
    mk_row a t "counter" "parts_total"
      (VInt (nth i (parts_total (counters sim)) 0)) (Some "count"%string);
    mk_row a t "counter" "parts_good"
      (VInt (nth i (parts_good (counters sim)) 0)) (Some "count"%string);
    mk_row a t "kpi" "run_minutes_today"
      (VFloat (nth i (run_minutes_today (counters sim)) 0%Q)) (Some "min"%string);
    mk_row a t "sensor" "motor_current_a"
      (VFloat (nth i (motor_current sim) 0%Q)) (Some "A"%string) ].

(** The whole file: the configuration row, then six rows per instant. *)
Definition csv_rows (a : Args) (sim : Sim) : list Row :=
  mk_row a (nth 0 (ts_list sim) 0) "config" "ideal_ct_s"
    (VFloat (ideal_ct_s a)) (Some "s"%string)
  :: flat_map (rows_of a sim) (enumerate (ts_list sim)).

(** All per-instant arrays have one entry per instant. *)
Definition aligned (sim : Sim) : Prop :=
  let n := length (ts_list sim) in
  (0 < n)%nat
  /\ length (state_code sim) = n
  /\ length (running sim) = n
  /\ length (parts_total (counters sim)) = n
  /\ length (parts_good (counters sim)) = n
  /\ length (run_minutes_today (counters sim)) = n
  /\ length (motor_current sim) = n.

(** The character [c] does not occur in [s]. *)
Fixpoint lacks (c : ascii) (s : string) : bool :=
  match s with
  | EmptyString => true
  | String c' s' => negb (Ascii.eqb c' c) && lacks c s'
  end.

(** The object, the metric and the unit of the seven kinds of rows. *)
Definition schema : list (string * string * option string) :=
  [ ("config", "ideal_ct_s", Some "s");
    ("state", "state_code", None);
    ("state", "running", None);
    ("counter", "parts_total", Some "count");
    ("counter", "parts_good", Some "count");
    ("kpi", "run_minutes_today", Some "min");
    ("sensor", "motor_current_a", Some "A") ]%string.

(** The JSON type of a payload value: 0 integer, 1 boolean, 2 float. *)
Definition value_kind (v : value) : Z :=
  match v with
  | VInt _ => 0
  | VBool _ => 1
  | VFloat _ => 2
  end.

(** The JSON type the rows of a metric carry. *)
Definition metric_kind (metric : string) : Z :=
  if String.eqb metric "running" then 1
  else if String.eqb metric "state_code" || String.eqb metric "parts_total"
          || String.eqb metric "parts_good" then 0
  else 2.

(** Two states of the counter loop that differ at most in the good parts
    counted. *)
Definition agree_but_good (c c' : Counters) : Prop :=
  pt c = pt c'
  /\ run_sec_accum c = run_sec_accum c'
  /\ accum_cycle c = accum_cycle c'
  /\ parts_total c = parts_total c'
  /\ run_minutes_today c = run_minutes_today c'.

(** How often the character [c] occurs in [s]. *)
Fixpoint occurrences (c : ascii) (s : string) : nat :=
  match s with
  | EmptyString => 0
  | String c' s' => (if Ascii.eqb c' c then 1 else 0) + occurrences c s'
  end.

(** The delivery of a row under the options of the pass. *)
Definition message (args : Replayer.Args) (row : Replayer.Row) : Replayer.action :=
  Replayer.Publish (Replayer.topic row) (Replayer.payload_json row)
    (Replayer.qos args) (Replayer.retain args).

Definition is_publish (x : Replayer.action) : bool :=
  match x with
  | Replayer.Publish _ _ _ _ => true
  | Replayer.Sleep _ => false
  end.

(** The counters of the exact reading, rounded: what the binary64 loop holds
    when no sum or difference had to be rounded. *)
Definition rounded (c : Counters) : Rounded.Counters :=
  {| Rounded.pt := pt c;
     Rounded.pg := pg c;
     Rounded.run_sec_accum := Binary64.round (run_sec_accum c);
     Rounded.accum_cycle := Binary64.round (accum_cycle c);
     Rounded.parts_total := parts_total c;
     Rounded.parts_good := parts_good c;
     Rounded.run_minutes_today := map Binary64.round (run_minutes_today c) |}.

(** [x <= y] on binary64 numbers. *)
Definition no_greater (x y : Binary64.float) : Prop := Binary64.ge y x = true.

(** A result with [f] applied to its value. *)
Definition result_map {A B} (f : A -> B) (r : result A) : result B :=
  match r with
  | Ok a => Ok (f a)
  | Raise e => Raise e
  | OutOfFuel => OutOfFuel
  end.

(** ** Sample inputs *)

(** The defaults of [build_args]. *)
Definition default_args : Args :=
  {| site := "blr"; line := "line1"; machine := "SF-01"; date := "2025-09-17";
     interval_sec := 10; ideal_ct_s := 12; reject_rate := 2 # 100 |}.

Definition with_interval (a : Args) (interval : Z) : Args :=
  {| site := site a; line := line a; machine := machine a; date := date a;
     interval_sec := interval; ideal_ct_s := ideal_ct_s a;
     reject_rate := reject_rate a |}.

Definition with_reject_rate (a : Args) (r : Q) : Args :=
  {| site := site a; line := line a; machine := machine a; date := date a;
     interval_sec := interval_sec a; ideal_ct_s := ideal_ct_s a;
     reject_rate := r |}.

Definition with_date (a : Args) (s : string) : Args :=
  {| site := site a; line := line a; machine := machine a; date := s;
     interval_sec := interval_sec a; ideal_ct_s := ideal_ct_s a;
     reject_rate := reject_rate a |}.

(** A small linear congruential generator, to run the generator on concrete
    inputs; its [gauss] is a uniform deviate around [mu]. *)
Definition lcg_next (g : Z) : Z := (1103515245 * g + 12345) mod 2 ^ 31.

#[global] Instance lcg : PRNG Z := {|
  seed := fun a => a;
  random := fun g => (lcg_next g # 2147483648, lcg_next g);
  gauss := fun mu sigma g =>
    ((mu + sigma * ((2 * lcg_next g - 2147483648) # 2147483648))%Q, lcg_next g)
|}.

(** A sample parser that tells timestamps with an offset from those without:
    whole seconds, with a trailing [Z] for UTC. *)
Fixpoint iso_zoned_aux (s : string) (digits : string) : option Replayer.stamp :=
  match s with
  | EmptyString =>
      option_map (fun z => {| Replayer.instant := inject_Z z;
                              Replayer.aware := false |}) (Py.int digits)
  | String "Z" EmptyString =>
      option_map (fun z => {| Replayer.instant := inject_Z z;
                              Replayer.aware := true |}) (Py.int digits)
  | String c s' => iso_zoned_aux s' (digits ++ String c EmptyString)
  end.

Definition iso_zoned (s : string) : option Replayer.stamp :=
  iso_zoned_aux s EmptyString.

(** A looping session on the default port. *)
Definition session1 : Replayer.Options :=
  {| Replayer.host := "broker.example"; Replayer.port := 8883;
     Replayer.username := None; Replayer.password := None;
     Replayer.client_id := "simple-replayer"; Replayer.loop := true;
     Replayer.pass_args := Replayer.args1 |}.

(** ** The timeline builder *)

Lemma days_in_month_pos y m : 28 <= Py.days_in_month y m.
Proof.
  unfold Py.days_in_month.
  repeat match goal with |- context [if ?b then _ else _] => destruct b end; lia.
Qed.

Lemma days_before_month_aux_nonneg y k : 0 <= Py.days_before_month_aux y k.
Proof.
  induction k as [|k IH]; cbn [Py.days_before_month_aux]; [lia|].
  pose proof (days_in_month_pos y (Z.of_nat (S k))). lia.
Qed.

Lemma days_before_year_nonneg y : 1 <= y -> 0 <= Py.days_before_year y.
Proof.
  intros Hy. unfold Py.days_before_year. cbv zeta.
  assert (0 <= (y - 1) / 4) by (apply Z.div_pos; lia).
  assert (0 <= (y - 1) / 400) by (apply Z.div_pos; lia).
  assert ((y - 1) / 100 <= y - 1) by (apply Z.div_le_upper_bound; lia).
  lia.
Qed.

(** A date the constructor accepts is a day from 0001-01-01 on. *)
Lemma datetime_new_inv y m d hh mi ss t :
  Py.datetime_new y m d hh mi ss = Ok t ->
  t = (Py.ymd2ord y m d - 1) * 86400 + hh * 3600 + mi * 60 + ss
  /\ 1 <= Py.ymd2ord y m d
  /\ Py.datetime_new y m d 0 0 0 = Ok ((Py.ymd2ord y m d - 1) * 86400)
  /\ Py.datetime_new y m d 23 59 50 = Ok ((Py.ymd2ord y m d - 1) * 86400 + 86390).
Proof.
  unfold Py.datetime_new.
  destruct (Py.c_int y) eqn:Ey, (Py.c_int m) eqn:Em, (Py.c_int d) eqn:Ed;
    cbn [andb negb]; try discriminate.
  destruct (Py.c_int hh && Py.c_int mi && Py.c_int ss); cbn [negb]; try discriminate.
  destruct ((1 <=? y) && (y <=? 9999) && (1 <=? m) && (m <=? 12)
            && (1 <=? d) && (d <=? Py.days_in_month y m)) eqn:E;
    cbn [andb]; [|discriminate].
  change (Py.c_int 0 && Py.c_int 0 && Py.c_int 0) with true.
  change (Py.c_int 23 && Py.c_int 59 && Py.c_int 50) with true.
  cbn [negb].
  destruct ((0 <=? hh) && (hh <? 24) && (0 <=? mi) && (mi <? 60)
            && (0 <=? ss) && (ss <? 60)); [|discriminate].
  intros [= <-].
  repeat (apply andb_prop in E; destruct E as [E ?]).
  split; [reflexivity|]. split.
  - unfold Py.ymd2ord, Py.days_before_month.
    pose proof (days_before_year_nonneg y).
    pose proof (days_before_month_aux_nonneg y (Z.to_nat (m - 1))). lia.
  - split; f_equal; lia.
Qed.

Lemma add_seconds_ok t s :
  0 < s -> 0 <= t -> t + s <= Py.datetime_max ->
  Py.add_seconds t s = Ok (t + s).
Proof.
  intros Hs Ht Hmax. unfold Py.add_seconds.
  assert (0 <= s / 86400) by (apply Z.div_pos; lia).
  assert (s / 86400 <= 999999999).
  { apply Z.div_le_upper_bound; [lia|]. unfold Py.datetime_max in Hmax. lia. }
  replace ((-999999999 <=? s / 86400) && (s / 86400 <=? 999999999)) with true
    by (symmetry; apply andb_true_intro; split; lia).
  cbn [negb].
  replace ((0 <=? t + s) && (t + s <=? Py.datetime_max)) with true
    by (symmetry; apply andb_true_intro; split; lia).
  reflexivity.
Qed.

Lemma instants_S t interval k :
  instants t interval (S k) = t :: instants (t + interval) interval k.
Proof.
  unfold instants. cbn [seq map]. f_equal; [lia|].
  rewrite <- seq_shift, map_map. apply map_ext. intros j. lia.
Qed.

Lemma instants_length t interval k : length (instants t interval k) = k.
Proof. unfold instants. rewrite length_map. apply length_seq. Qed.

Lemma instants_lookup t interval k i :
  (i < k)%nat -> instants t interval k !! i = Some (t + Z.of_nat i * interval).
Proof.
  intros Hi. unfold instants. rewrite list_lookup_fmap.
  rewrite lookup_seq_lt by lia. reflexivity.
Qed.

(** The loop appends exactly the instants up to [t1]. *)
Lemma build_ts_instants k : forall fuel interval t1 t acc,
  0 < interval -> 0 <= t ->
  t + (Z.of_nat k - 1) * interval <= t1 < t + Z.of_nat k * interval ->
  t + Z.of_nat k * interval <= Py.datetime_max ->
  (k <= fuel)%nat ->
  build_ts fuel interval t1 t acc = Ok (acc ++ instants t interval k).
Proof.
  induction k as [|k IH]; intros fuel interval t1 t acc Hi Ht Hk Hmax Hfuel.
  - destruct fuel; cbn [build_ts];
      (replace (t <=? t1) with false by (symmetry; apply Z.leb_gt; lia));
      unfold instants; cbn; now rewrite app_nil_r.
  - destruct fuel as [|fuel]; [lia|]. cbn [build_ts].
    replace (t <=? t1) with true by (symmetry; apply Z.leb_le; nia).
    rewrite add_seconds_ok by nia. cbv beta iota.
    rewrite IH by nia.
    rewrite instants_S, <- app_assoc. reflexivity.
Qed.

(** With a non-positive interval the loop never leaves the window upwards:
    it does not return a list. *)
Lemma build_ts_nonpositive fuel : forall interval t1 t acc,
  interval <= 0 -> t <= t1 ->
  forall l, build_ts fuel interval t1 t acc <> Ok l.
Proof.
  induction fuel as [|fuel IH]; intros interval t1 t acc Hi Ht l; cbn [build_ts];
    (replace (t <=? t1) with true by (symmetry; apply Z.leb_le; lia));
    [discriminate|].
  unfold Py.add_seconds.
  destruct (negb _); [discriminate|].
  destruct (_ && _); [|discriminate].
  apply IH; lia.
Qed.


(** The timeline of a valid date and a positive interval, in closed form. *)
Lemma timeline_instants fuel a y m d t0 :
  parse_date (date a) = Ok (y, m, d) ->
  Py.datetime_new y m d 0 0 0 = Ok t0 ->
  0 < interval_sec a ->
  t0 + (86390 / interval_sec a + 1) * interval_sec a <= Py.datetime_max ->
  (Z.to_nat (86390 / interval_sec a) < fuel)%nat ->
  timeline fuel a
  = Ok (instants t0 (interval_sec a) (S (Z.to_nat (86390 / interval_sec a)))).
Proof.
  intros Hp Ht0 Hi Hmax Hfuel. unfold timeline. rewrite Hp. cbn [mbind result_bind].
  destruct (datetime_new_inv _ _ _ _ _ _ _ Ht0) as (E0 & Hord & _ & E1).
  rewrite Ht0, E1. cbn [mbind result_bind].
  assert (Hq : 0 <= 86390 / interval_sec a) by (apply Z.div_pos; lia).
  pose proof (Z.mul_div_le 86390 (interval_sec a) Hi).
  pose proof (Z.mul_succ_div_gt 86390 (interval_sec a) Hi).
  rewrite (build_ts_instants (S (Z.to_nat (86390 / interval_sec a)))) by lia.
  reflexivity.
Qed.

(** C1 (as amended). For a valid date and a positive interval for which the
    instant after the last sample instant,
    [t0 + (floor(86390 / interval) + 1) * interval], is still a datetime (not
    after 9999-12-31T23:59:59; the loop computes it before it stops), the
    timeline builder returns the instants [t0 + i * interval] from midnight
    [t0] up to and including the last one not after 23:59:50: they are spaced
    exactly [interval] seconds apart, with no gap and no duplicate, and there
    are [floor(86390 / interval) + 1] of them; when the interval is a
    multiple of 10 they reach the end of the day (the next instant would be
    on the next day), and when it also divides the day there are
    [86400 / interval] of them. *)
Theorem timeline_length_spacing fuel a y m d t0 :
  parse_date (date a) = Ok (y, m, d) ->
  Py.datetime_new y m d 0 0 0 = Ok t0 ->
  0 < interval_sec a ->
  t0 + (86390 / interval_sec a + 1) * interval_sec a <= Py.datetime_max ->
  (Z.to_nat (86390 / interval_sec a) < fuel)%nat ->
  exists ts,
    timeline fuel a = Ok ts
    /\ Z.of_nat (length ts) = 86390 / interval_sec a + 1
    /\ (forall i, (i < length ts)%nat ->
          ts !! i = Some (t0 + Z.of_nat i * interval_sec a))
    /\ (forall i t t', ts !! i = Some t -> ts !! S i = Some t' ->
          t' = t + interval_sec a)
    /\ NoDup ts
    /\ (forall t, t ∈ ts -> t0 <= t <= t0 + 86390)
    /\ ((10 | interval_sec a) ->
          86400 <= Z.of_nat (length ts) * interval_sec a)
    /\ ((10 | interval_sec a) -> (interval_sec a | 86400) ->
          Z.of_nat (length ts) = 86400 / interval_sec a).
Proof.
  intros Hp Ht0 Hi Hmax Hfuel.
  assert (Hq : 0 <= 86390 / interval_sec a) by (apply Z.div_pos; lia).
  set (k := S (Z.to_nat (86390 / interval_sec a))).
  assert (Hk : Z.of_nat k = 86390 / interval_sec a + 1)
    by (unfold k; rewrite Nat2Z.inj_succ, Z2Nat.id; lia).
  assert (Hlook : forall i, (i < k)%nat ->
            instants t0 (interval_sec a) k !! i
            = Some (t0 + Z.of_nat i * interval_sec a))
    by (intros; now apply instants_lookup).
  exists (instants t0 (interval_sec a) k).
  split; [now apply (timeline_instants fuel a y m d)|].
  rewrite instants_length.
  split; [exact Hk|]. split; [exact Hlook|]. split; [|split; [|split; [|split]]].
  - intros i t t' H1 H2.
    assert (S i < k)%nat
      by (apply lookup_lt_Some in H2; now rewrite instants_length in H2).
    rewrite Hlook in H1, H2 by lia. injection H1 as <-. injection H2 as <-. lia.
  - apply NoDup_alt. intros i j t H1 H2.
    assert (i < k)%nat
      by (apply lookup_lt_Some in H1; now rewrite instants_length in H1).
    assert (j < k)%nat
      by (apply lookup_lt_Some in H2; now rewrite instants_length in H2).
    rewrite Hlook in H1, H2 by lia. injection H1 as <-. injection H2 as H2. nia.
  - intros t Ht. apply list_elem_of_lookup in Ht as [i H1].
    assert (i < k)%nat
      by (apply lookup_lt_Some in H1; now rewrite instants_length in H1).
    rewrite Hlook in H1 by lia. injection H1 as <-.
    pose proof (Z.mul_div_le 86390 (interval_sec a) Hi). nia.
  - intros [c Hc]. rewrite Hk.
    pose proof (Z.mul_succ_div_gt 86390 (interval_sec a) Hi) as Hgt.
    set (q := 86390 / interval_sec a) in *.
    assert (Hmul : (q + 1) * interval_sec a = 10 * ((q + 1) * c)) by lia.
    lia.
  - intros [c Hc] [e He]. rewrite Hk.
    assert (0 < c) by lia.
    assert (86390 = (e - 1) * interval_sec a + (interval_sec a - 10)) by lia.
    assert (86390 / interval_sec a = e - 1)
      by (symmetry; apply (Z.div_unique _ _ _ (interval_sec a - 10)); lia).
    assert (86400 / interval_sec a = e)
      by (rewrite He; apply Z.div_mul; lia).
    lia.
Qed.

(** The hypotheses of [timeline_length_spacing] at an hourly interval. *)
Lemma timeline_length_spacing_witness :
  exists ts,
    timeline 24 (with_interval default_args 3600) = Ok ts
    /\ Z.of_nat (length ts) = 24
    /\ ts !! 23%nat = Some (63893664000 + 23 * 3600)
    /\ Z.of_nat (length ts) = 86400 / 3600.
Proof.
  destruct (timeline_length_spacing 24 (with_interval default_args 3600)
              2025 9 17 63893664000)
    as (ts & H1 & H2 & H3 & _ & _ & _ & _ & H4);
    [ vm_compute; reflexivity | vm_compute; reflexivity | reflexivity
    | vm_compute; discriminate | vm_compute; lia | ].
  assert (H2' : Z.of_nat (length ts) = 24) by exact H2.
  exists ts. split; [exact H1|]. split; [exact H2|]. split.
  - apply (H3 23%nat). lia.
  - apply H4; [exists 360; reflexivity | exists 24; reflexivity].
Defined.

(** C1 as stated fails: a 5-hour interval gives the 5 instants 00:00, 05:00,
    10:00, 15:00 and 20:00, not [floor(86400 / 18000) = 4]; a 1-second
    interval gives 86391 instants (the last at 23:59:50), not 86400. *)
Lemma timeline_length_counterexample :
  (exists ts, timeline 5 (with_interval default_args 18000) = Ok ts
              /\ Z.of_nat (length ts) = 5)
  /\ 86400 / 18000 = 4
  /\ (exists ts, timeline (Z.to_nat 86391) (with_interval default_args 1) = Ok ts
                 /\ Z.of_nat (length ts) = 86391)
  /\ 86400 / 1 = 86400.
Proof.
  split; [|split; [reflexivity|split; [|reflexivity]]].
  - eexists. split; [vm_compute; reflexivity|reflexivity].
  - eexists. split.
    + apply (timeline_instants _ _ 2025 9 17 63893664000);
        [ vm_compute; reflexivity | vm_compute; reflexivity | reflexivity
        | vm_compute; discriminate | apply Nat.ltb_lt; vm_compute; reflexivity ].
    + rewrite instants_length. cbn [with_interval interval_sec].
      rewrite Nat2Z.inj_succ, Z2Nat.id by (vm_compute; discriminate).
      reflexivity.
Qed.

(** ** Reasoning about the two monads *)

Lemma result_bind_ok {A B} (r : result A) (k : A -> result B) b :
  r ≫= k = Ok b <-> exists a, r = Ok a /\ k a = Ok b.
Proof.
  unfold mbind, result_bind. split.
  - destruct r; try discriminate. eauto.
  - intros (a & -> & Hk). exact Hk.
Qed.

Lemma st_bind_ok {S A B} (m : ST S A) (k : A -> ST S B) s b s2 :
  (m ≫= k) s = (Ok b, s2) <->
  exists a s1, m s = (Ok a, s1) /\ k a s1 = (Ok b, s2).
Proof.
  unfold mbind, st_bind. split.
  - destruct (m s) as [[a| |] s1]; try discriminate. eauto.
  - intros (a & s1 & -> & Hk). exact Hk.
Qed.

Lemma st_ret_ok {S A} (a b : A) (s s' : S) :
  (mret a : ST S A) s = (Ok b, s') <-> a = b /\ s = s'.
Proof.
  unfold mret, st_ret. split; [intros [= -> ->]; auto | intros [-> ->]; auto].
Qed.

Lemma lift_ok {S A} (r : result A) (s s' : S) a :
  lift r s = (Ok a, s') <-> r = Ok a /\ s = s'.
Proof.
  unfold lift. split; [intros [= -> ->]; auto | intros [-> ->]; auto].
Qed.

(** Split a successful run of a sequence of binds into its steps. *)
Ltac st_inv H :=
  repeat match type of H with
  | (_ ≫= _) _ = (Ok _, _) =>
      let a := fresh "a" in let s := fresh "s" in let H1 := fresh "H" in
      apply st_bind_ok in H; destruct H as (a & s & H1 & H)
  | _ ≫= _ = Ok _ =>
      let a := fresh "a" in let H1 := fresh "H" in
      apply result_bind_ok in H; destruct H as (a & H1 & H)
  end.

Lemma getitem_ok {A} (l : list A) i x : getitem l i = Ok x <-> l !! i = Some x.
Proof.
  unfold getitem. destruct (l !! i); split; intros E;
    try discriminate; injection E as ->; reflexivity.
Qed.

Lemma getitem_lt {A} (l : list A) i :
  (i < length l)%nat -> exists x, getitem l i = Ok x.
Proof.
  intros Hi. destruct (lookup_lt_is_Some_2 l i Hi) as [x Hx].
  exists x. now apply getitem_ok.
Qed.

Lemma setitem_ok {A} (l l' : list A) i x :
  setitem l i x = Ok l' <-> (i < length l)%nat /\ l' = <[i:=x]> l.
Proof.
  unfold setitem. destruct (i <? length l)%nat eqn:E.
  - apply Nat.ltb_lt in E. split; [intros [= <-]; auto | intros [_ ->]; auto].
  - apply Nat.ltb_ge in E. split; [discriminate | intros [? _]; lia].
Qed.

Lemma enumerate_lookup {A} (l : list A) i x :
  enumerate l !! i = Some (i, x) <-> l !! i = Some x.
Proof.
  unfold enumerate. split.
  - intros E. apply lookup_zip_Some in E as [_ E]. exact E.
  - intros E. apply lookup_zip_Some. split; [|exact E].
    apply lookup_seq. split; [reflexivity|]. now apply lookup_lt_Some in E.
Qed.

Lemma enumerate_elem {A} (l : list A) i x :
  (i, x) ∈ enumerate l <-> l !! i = Some x.
Proof.
  split.
  - intros E. apply list_elem_of_lookup in E as [j E].
    unfold enumerate in E. apply lookup_zip_Some in E as [E1 E2].
    apply lookup_seq in E1 as [-> _]. exact E2.
  - intros E. apply list_elem_of_lookup. exists i. now apply enumerate_lookup.
Qed.

(** ** The state simulator *)

Lemma in_planned_spec ws mm :
  in_planned ws mm = true <-> exists a b, (a, b) ∈ ws /\ a <= mm < b.
Proof.
  unfold in_planned. rewrite existsb_exists. split.
  - intros ([a b] & Hin & Hw). exists a, b. cbn in Hw.
    apply andb_prop in Hw as [? ?]. split; [now apply list_elem_of_In|lia].
  - intros (a & b & Hin & Hw). exists (a, b). split; [now apply list_elem_of_In|].
    cbn. apply andb_true_intro. split; lia.
Qed.

Lemma in_fault_spec fs mm :
  in_fault fs mm = true <->
  exists start_m dur_m, (start_m, dur_m) ∈ fs /\ start_m <= mm < start_m + dur_m.
Proof.
  unfold in_fault. rewrite existsb_exists. split.
  - intros ([a b] & Hin & Hw). exists a, b. cbn in Hw.
    apply andb_prop in Hw as [? ?]. split; [now apply list_elem_of_In|lia].
  - intros (a & b & Hin & Hw). exists (a, b). split; [now apply list_elem_of_In|].
    cbn. apply andb_true_intro. split; lia.
Qed.

Lemma hit_enumerate p (ts : list Py.datetime) j :
  hit p (enumerate ts) j = true <->
  exists t, ts !! j = Some t /\ p (minute_of_day t) = true.
Proof.
  unfold hit. rewrite existsb_exists. split.
  - intros ([i t] & Hin & Hp). cbn in Hp. apply andb_prop in Hp as [Hi Hp].
    apply Nat.eqb_eq in Hi as ->. exists t. split; [|exact Hp].
    apply enumerate_elem. now apply list_elem_of_In.
  - intros (t & Hl & Hp). exists (j, t). split.
    + apply list_elem_of_In. now apply enumerate_elem.
    + cbn. rewrite Nat.eqb_refl. exact Hp.
Qed.

(** One instant against the planned windows. *)
Lemma planned_at_spec ws mm i : forall sc sc',
  planned_at ws mm i sc = Ok sc' ->
  length sc' = length sc
  /\ forall j, sc' !! j
       = if (i =? j)%nat && in_planned ws mm && (j <? length sc)%nat
         then Some 3 else sc !! j.
Proof.
  induction ws as [|[a b] ws IH]; intros sc sc' E; cbn [planned_at] in E.
  - injection E as <-. split; [reflexivity|]. intros j.
    cbn. now rewrite andb_false_r.
  - cbn [in_planned existsb fst snd]. fold (in_planned ws mm).
    destruct ((a <=? mm) && (mm <? b)) eqn:Ew.
    + st_inv E. apply setitem_ok in H as [Hi ->].
      apply IH in E as [Hlen Hj]. rewrite length_insert in Hlen, Hj.
      split; [exact Hlen|]. intros j. rewrite Hj. cbn [orb].
      destruct (Nat.eqb_spec i j) as [->|Hne]; cbn [andb].
      * destruct (Nat.ltb_spec j (length sc)); [|lia].
        rewrite andb_true_r.
        destruct (in_planned ws mm); [reflexivity|].
        now apply list_lookup_insert_eq.
      * now apply list_lookup_insert_ne.
    + cbn [orb]. now apply IH.
Qed.

Lemma faults_at_spec fs mm i : forall sc sc',
  faults_at fs mm i sc = Ok sc' ->
  length sc' = length sc
  /\ forall j, sc' !! j
       = if (i =? j)%nat && in_fault fs mm && (j <? length sc)%nat
         then Some 4 else sc !! j.
Proof.
  induction fs as [|[a b] fs IH]; intros sc sc' E; cbn [faults_at] in E.
  - injection E as <-. split; [reflexivity|]. intros j.
    cbn. now rewrite andb_false_r.
  - cbn [in_fault existsb fst snd]. fold (in_fault fs mm).
    destruct ((a <=? mm) && (mm <? a + b)) eqn:Ew.
    + st_inv E. apply setitem_ok in H as [Hi ->].
      apply IH in E as [Hlen Hj]. rewrite length_insert in Hlen, Hj.
      split; [exact Hlen|]. intros j. rewrite Hj. cbn [orb].
      destruct (Nat.eqb_spec i j) as [->|Hne]; cbn [andb].
      * destruct (Nat.ltb_spec j (length sc)); [|lia].
        rewrite andb_true_r.
        destruct (in_fault fs mm); [reflexivity|].
        now apply list_lookup_insert_eq.
      * now apply list_lookup_insert_ne.
    + cbn [orb]. now apply IH.
Qed.

(** The planned-window loop forces 3 exactly at the enumerated instants that
    lie in a window. *)
Lemma planned_loop_spec ws its : forall sc sc',
  planned_loop ws its sc = Ok sc' ->
  length sc' = length sc
  /\ forall j, sc' !! j
       = if hit (in_planned ws) its j && (j <? length sc)%nat
         then Some 3 else sc !! j.
Proof.
  induction its as [|[i t] its IH]; intros sc sc' E; cbn [planned_loop] in E.
  - injection E as <-. split; [reflexivity|]. intros j. reflexivity.
  - st_inv E. apply planned_at_spec in H as [Hlen1 H1].
    apply IH in E as [Hlen2 H2]. split; [congruence|].
    intros j. rewrite H2, H1, Hlen1. cbn [hit existsb fst snd].
    fold (hit (in_planned ws) its j).
    destruct (hit (in_planned ws) its j), (j <? length sc)%nat,
      ((i =? j)%nat), (in_planned ws (minute_of_day t)); reflexivity.
Qed.

Lemma faults_loop_spec fs its : forall sc sc',
  faults_loop fs its sc = Ok sc' ->
  length sc' = length sc
  /\ forall j, sc' !! j
       = if hit (in_fault fs) its j && (j <? length sc)%nat
         then Some 4 else sc !! j.
Proof.
  induction its as [|[i t] its IH]; intros sc sc' E; cbn [faults_loop] in E.
  - injection E as <-. split; [reflexivity|]. intros j. reflexivity.
  - st_inv E. apply faults_at_spec in H as [Hlen1 H1].
    apply IH in E as [Hlen2 H2]. split; [congruence|].
    intros j. rewrite H2, H1, Hlen1. cbn [hit existsb fst snd].
    fold (hit (in_fault fs) its j).
    destruct (hit (in_fault fs) its j), (j <? length sc)%nat,
      ((i =? j)%nat), (in_fault fs (minute_of_day t)); reflexivity.
Qed.

Section StateSimulator.

Context {G : Type} `{PRNG G}.

Lemma draw_state_add g a b :
  draw_state g (a + b) = draw_state (draw_state g a) b.
Proof. revert g. induction a as [|a IH]; intros g; cbn; [reflexivity|apply IH]. Qed.

Lemma draw_state_S g k :
  draw_state g (S k) = snd (random (draw_state g k)).
Proof.
  replace (S k) with (k + 1)%nat by lia. now rewrite draw_state_add.
Qed.

Lemma rand_eq g : rand g = (Ok (fst (random g)), snd (random g)).
Proof. unfold rand. now destruct (random g). Qed.

Lemma base_state_eq mm g :
  base_state mm g = (Ok (base_of mm (fst (random g))), snd (random g)).
Proof.
  unfold base_state, base_of.
  destruct ((0 <=? mm) && (mm <? 360)); [|destruct ((360 <=? mm) && (mm <? 1320))];
    unfold mbind, st_bind; rewrite rand_eq; reflexivity.
Qed.

Lemma base_of_range mm u : base_of mm u = 0 \/ base_of mm u = 2 \/ base_of mm u = 3.
Proof.
  unfold base_of.
  repeat match goal with |- context [if ?b then _ else _] => destruct b end; auto.
Qed.

(** The base-profile loop draws once per instant, in order. *)
Lemma base_profile_eq ts : forall acc g,
  base_profile ts acc g
  = (Ok (acc ++ imap (fun i t => base_of (minute_of_day t) (nth_draw g i)) ts),
     draw_state g (length ts)).
Proof.
  induction ts as [|t ts IH]; intros acc g; cbn [base_profile].
  - cbn. now rewrite app_nil_r.
  - unfold mbind, st_bind. rewrite base_state_eq, IH.
    cbn [imap length draw_state]. rewrite <- app_assoc. reflexivity.
Qed.

(** How a successful run of [simulate] decomposes. *)
Lemma simulate_inv fuel a g sim g' :
  simulate fuel a g = (Ok sim, g') ->
  exists ts sc0 sc1 sc2 c g2 mc,
    timeline fuel a = Ok ts
    /\ sc0 = imap (fun i t => base_of (minute_of_day t) (nth_draw (seed 7) i)) ts
    /\ planned_loop planned_windows (enumerate ts) sc0 = Ok sc1
    /\ faults_loop rare_faults (enumerate ts) sc1 = Ok sc2
    /\ counter_loop fuel (interval_sec a) (ideal_ct_s a) (reject_rate a)
         (map (fun s => if s =? 2 then 1 else 0) sc2) (seq 0 (length ts))
         counters0 (draw_state (seed 7) (length ts)) = (Ok c, g2)
    /\ motor_loop sc2 (seq 0 (length ts)) [] g2 = (Ok mc, g')
    /\ sim = {| ts_list := ts; state_code := sc2;
                running := map (fun s => if s =? 2 then 1 else 0) sc2;
                counters := c; motor_current := mc |}.
Proof.
  intros E. unfold simulate in E. st_inv E.
  apply lift_ok in H0 as [Hts ->].
  unfold set_seed in H1. injection H1 as _ <-.
  rewrite base_profile_eq in H2. injection H2 as E1 E2. subst a2 s1.
  apply lift_ok in H3 as [Hp E3]. subst s2.
  apply lift_ok in H4 as [Hf E4]. subst s3.
  apply st_ret_ok in E as [E5 E6]. subst sim s5.
  eexists _, _, _, _, _, _, _. repeat split; eauto.
Qed.

(** The state code of every instant is the layered state of its minute and
    of its own draw. *)
Lemma simulate_state_code fuel a g sim g' :
  simulate fuel a g = (Ok sim, g') ->
  length (state_code sim) = length (ts_list sim)
  /\ forall i t, ts_list sim !! i = Some t ->
       state_code sim !! i
       = Some (layered_state (minute_of_day t) (nth_draw (seed 7) i)).
Proof.
  intros E. apply simulate_inv in E
    as (ts & sc0 & sc1 & sc2 & c & g2 & mc & _ & Hsc0 & Hp & Hf & _ & _ & ->).
  cbn [state_code ts_list].
  apply planned_loop_spec in Hp as [Hl1 Hp].
  apply faults_loop_spec in Hf as [Hl2 Hf].
  assert (Hl0 : length sc0 = length ts) by (subst sc0; apply length_imap).
  split; [congruence|].
  intros i t Hit. rewrite Hf, Hp, Hl1, Hl0.
  assert (Hi : (i <? length ts)%nat = true)
    by (apply Nat.ltb_lt; now apply lookup_lt_Some in Hit).
  rewrite Hi, !andb_true_r. unfold layered_state.
  destruct (in_fault rare_faults (minute_of_day t)) eqn:Ef.
  - replace (hit (in_fault rare_faults) (enumerate ts) i) with true; [reflexivity|].
    symmetry. apply hit_enumerate. eauto.
  - replace (hit (in_fault rare_faults) (enumerate ts) i) with false.
    2:{ symmetry. apply not_true_is_false. intros Hh.
        apply hit_enumerate in Hh as (t' & Ht' & Hh). congruence. }
    destruct (in_planned planned_windows (minute_of_day t)) eqn:Epl.
    + replace (hit (in_planned planned_windows) (enumerate ts) i) with true;
        [reflexivity|].
      symmetry. apply hit_enumerate. eauto.
    + replace (hit (in_planned planned_windows) (enumerate ts) i) with false.
      2:{ symmetry. apply not_true_is_false. intros Hh.
          apply hit_enumerate in Hh as (t' & Ht' & Hh). congruence. }
      subst sc0. rewrite list_lookup_imap, Hit. reflexivity.
Qed.

End StateSimulator.

(** C3. In every generated timeline, an instant whose minute of the day lies
    in a fault window [[start_m, start_m + dur_m)] has state code 4 (FAULT),
    whatever the generator drew; an instant in a planned window [[a, b)] and
    in no fault window has state code 3 (IDLE); the windows are half-open,
    start inclusive and end exclusive: an instant in no fault window is
    never FAULT, and an instant in no window of either kind, the end minute
    of a window among them, has the state the base profile drew for it. *)
Theorem state_windows {G : Type} `{PRNG G} fuel a (g g' : G) sim i t :
  simulate fuel a g = (Ok sim, g') ->
  ts_list sim !! i = Some t ->
  ((exists start_m dur_m, (start_m, dur_m) ∈ rare_faults
       /\ start_m <= minute_of_day t < start_m + dur_m) ->
     state_code sim !! i = Some 4)
  /\ ((exists a b, (a, b) ∈ planned_windows /\ a <= minute_of_day t < b) ->
      ~ (exists start_m dur_m, (start_m, dur_m) ∈ rare_faults
           /\ start_m <= minute_of_day t < start_m + dur_m) ->
      state_code sim !! i = Some 3)
  /\ (~ (exists start_m dur_m, (start_m, dur_m) ∈ rare_faults
           /\ start_m <= minute_of_day t < start_m + dur_m) ->
      state_code sim !! i <> Some 4)
  /\ (~ (exists start_m dur_m, (start_m, dur_m) ∈ rare_faults
           /\ start_m <= minute_of_day t < start_m + dur_m) ->
      ~ (exists a b, (a, b) ∈ planned_windows /\ a <= minute_of_day t < b) ->
      state_code sim !! i
      = Some (base_of (minute_of_day t) (nth_draw (seed 7) i))).
Proof.
  intros E Hit. apply simulate_state_code in E as [_ E].
  rewrite (E i t Hit). unfold layered_state.
  split; [|split; [|split]].
  - intros Hf. apply in_fault_spec in Hf. now rewrite Hf.
  - intros Hp Hf. apply in_planned_spec in Hp.
    rewrite <- in_fault_spec in Hf. apply not_true_is_false in Hf.
    now rewrite Hf, Hp.
  - intros Hf. rewrite <- in_fault_spec in Hf. apply not_true_is_false in Hf.
    rewrite Hf. destruct (in_planned planned_windows (minute_of_day t));
      [discriminate|].
    destruct (base_of_range (minute_of_day t) (nth_draw (seed 7) i))
      as [-> | [-> | ->]]; discriminate.
  - intros Hf Hp. rewrite <- in_fault_spec in Hf. apply not_true_is_false in Hf.
    rewrite <- in_planned_spec in Hp. apply not_true_is_false in Hp.
    now rewrite Hf, Hp.
Qed.

(** [state_windows] on a quarter-hourly day: 10:15 is in a fault window,
    13:00 in a planned one, 10:30 in no fault window, and
    13:30, the end of a planned window, is RUN. *)
Lemma state_windows_witness :
  exists sim g',
    simulate 100 (with_interval default_args 900) 0 = (Ok sim, g')
    /\ state_code sim !! 41%nat = Some 4
    /\ state_code sim !! 52%nat = Some 3
    /\ state_code sim !! 42%nat <> Some 4
    /\ state_code sim !! 54%nat = Some 2.
Proof.
  eexists ?[sim], ?[g'].
  assert (E : simulate 100 (with_interval default_args 900) 0 = (Ok ?sim, ?g'))
    by (vm_compute; reflexivity).
  split; [exact E|]. split; [|split; [|split]].
  - apply (state_windows 100 _ 0 _ _ 41%nat (63893664000 + 41 * 900) E);
      [reflexivity|].
    exists 615, 3. split; [|vm_compute; split; [discriminate|reflexivity]].
    apply list_elem_of_In. left. reflexivity.
  - apply (state_windows 100 _ 0 _ _ 52%nat (63893664000 + 52 * 900) E);
      [reflexivity| |].
    + exists 780, 810. split; [|vm_compute; split; [discriminate|reflexivity]].
      apply list_elem_of_In. left. reflexivity.
    + intros Hf. apply in_fault_spec in Hf. vm_compute in Hf. discriminate.
  - apply (state_windows 100 _ 0 _ _ 42%nat (63893664000 + 42 * 900) E);
      [reflexivity|].
    intros Hf. apply in_fault_spec in Hf. vm_compute in Hf. discriminate.
  - rewrite (proj2 (proj2 (proj2
               (state_windows 100 _ 0 _ _ 54%nat (63893664000 + 54 * 900) E
                  eq_refl)))).
    + vm_compute. reflexivity.
    + intros Hf. apply in_fault_spec in Hf. vm_compute in Hf. discriminate.
    + intros Hp. apply in_planned_spec in Hp. vm_compute in Hp. discriminate.
Defined.

(** ** The production accumulator *)

Section Accumulator.

Context {G : Type} `{PRNG G}.

Lemma good_count_range reject g k : 0 <= good_count reject g k <= Z.of_nat k.
Proof.
  revert g. induction k as [|k IH]; intros g; cbn [good_count]; [lia|].
  specialize (IH (snd (random g))).
  destruct (Qle_bool reject (fst (random g))); lia.
Qed.

Lemma good_count_S reject g k :
  good_count reject g (S k)
  = good_count reject g k
    + (if Qle_bool reject (nth_draw g k) then 1 else 0).
Proof.
  revert g. induction k as [|k IH]; intros g.
  - cbn. unfold nth_draw. cbn. lia.
  - cbn [good_count] in *. rewrite IH. unfold nth_draw. cbn [draw_state]. lia.
Qed.

(** The [while] loop, when it returns: it completed [k] parts, drew [k]
    times, and left less than one cycle in the accumulator. *)
Lemma cycle_loop_spec fuel ideal reject : forall c g c' g',
  cycle_loop fuel ideal reject c g = (Ok c', g') ->
  exists k : nat,
    (k <= fuel)%nat
    /\ pt c' = pt c + Z.of_nat k
    /\ pg c' = pg c + good_count reject g k
    /\ (accum_cycle c' == accum_cycle c - inject_Z (Z.of_nat k) * ideal)%Q
    /\ (accum_cycle c' < ideal)%Q
    /\ ((0 <= accum_cycle c)%Q -> (0 <= accum_cycle c')%Q)
    /\ run_sec_accum c' = run_sec_accum c
    /\ parts_total c' = parts_total c
    /\ parts_good c' = parts_good c
    /\ run_minutes_today c' = run_minutes_today c
    /\ g' = draw_state g k.
Proof.
  induction fuel as [|fuel IH]; intros c g c' g' E; cbn [cycle_loop] in E;
    destruct (Qle_bool ideal (accum_cycle c)) eqn:Ecmp.
  - discriminate.
  - injection E as <- <-. exists 0%nat.
    assert (~ (ideal <= accum_cycle c)%Q)
      by (rewrite <- Qle_bool_iff; congruence).
    cbn [good_count draw_state]. change (inject_Z (Z.of_nat 0)) with 0%Q.
    repeat split; try reflexivity; try lia; try lra; auto.
  - apply Qle_bool_iff in Ecmp.
    unfold mbind, st_bind in E. rewrite rand_eq in E.
    apply IH in E as (k & Hk & Hpt & Hpg & Hacc & Hlt & Hpos & Hrun & Hl1 & Hl2 & Hl3 & Hg).
    cbn [pt pg accum_cycle run_sec_accum parts_total parts_good run_minutes_today] in *.
    exists (S k). cbn [good_count draw_state].
    rewrite Nat2Z.inj_succ. unfold Z.succ. rewrite inject_Z_plus.
    repeat split; try assumption; try lia.
    + rewrite Hpg. destruct (Qle_bool reject (fst (random g))); lia.
    + rewrite Hacc. change (inject_Z 1) with 1%Q. lra.
    + intros _. apply Hpos. lra.
  - injection E as <- <-. exists 0%nat.
    assert (~ (ideal <= accum_cycle c)%Q)
      by (rewrite <- Qle_bool_iff; congruence).
    cbn [good_count draw_state]. change (inject_Z (Z.of_nat 0)) with 0%Q.
    repeat split; try reflexivity; try lia; try lra; auto.
Qed.

(** The [while] loop returns when the cycle time is positive and the fuel
    covers the cycles in the accumulator. *)
Lemma cycle_loop_total fuel ideal reject : forall c g,
  (0 < ideal)%Q ->
  (accum_cycle c < inject_Z (Z.of_nat fuel) * ideal)%Q ->
  exists c' g', cycle_loop fuel ideal reject c g = (Ok c', g').
Proof.
  induction fuel as [|fuel IH]; intros c g Hid Hfuel; cbn [cycle_loop];
    destruct (Qle_bool ideal (accum_cycle c)) eqn:Ecmp;
    try (eexists _, _; reflexivity).
  - apply Qle_bool_iff in Ecmp.
    change (inject_Z (Z.of_nat 0)) with 0%Q in Hfuel. lra.
  - apply Qle_bool_iff in Ecmp.
    unfold mbind, st_bind. rewrite rand_eq. apply IH; [exact Hid|].
    cbn [accum_cycle]. rewrite Nat2Z.inj_succ in Hfuel. unfold Z.succ in Hfuel.
    rewrite inject_Z_plus in Hfuel. change (inject_Z 1) with 1%Q in Hfuel. lra.
Qed.

(** With a cycle time that is not positive the [while] loop, once entered,
    never returns. *)
Lemma cycle_loop_diverges fuel ideal reject : forall c g,
  (ideal <= 0)%Q -> (ideal <= accum_cycle c)%Q ->
  fst (cycle_loop fuel ideal reject c g) = OutOfFuel.
Proof.
  induction fuel as [|fuel IH]; intros c g Hid Hacc; cbn [cycle_loop];
    (replace (Qle_bool ideal (accum_cycle c)) with true
       by (symmetry; now apply Qle_bool_iff)); [reflexivity|].
  unfold mbind, st_bind. rewrite rand_eq. apply IH; [exact Hid|].
  cbn [accum_cycle]. lra.
Qed.

End Accumulator.

Lemma monotone_snoc {A} (R : A -> A -> Prop) (l : list A) z :
  monotone R l -> (forall j x, l !! j = Some x -> R x z) -> R z z ->
  monotone R (l ++ [z]).
Proof.
  intros Hm Hz Hr i j x y Hij Hi Hj.
  apply lookup_app_Some in Hi as [Hi | [Hil Hi]];
    apply lookup_app_Some in Hj as [Hj | [Hjl Hj]].
  - eapply Hm; eauto.
  - apply list_lookup_singleton_Some in Hj as [_ <-]. eapply Hz; eauto.
  - apply lookup_lt_Some in Hj. lia.
  - apply list_lookup_singleton_Some in Hi as [_ <-].
    apply list_lookup_singleton_Some in Hj as [_ <-]. exact Hr.
Qed.

Lemma run_count_S running k :
  run_count running (S k)
  = run_count running k
    + match running !! k with
      | Some r => if r =? 0 then 0 else 1
      | None => 0
      end.
Proof. reflexivity. Qed.

Lemma run_count_mono running i j :
  (i <= j)%nat -> run_count running i <= run_count running j.
Proof.
  induction 1 as [|j Hij IH]; [lia|]. cbn [run_count].
  destruct (running !! j) as [r|]; [destruct (r =? 0)|]; lia.
Qed.

Section CounterLoop.

Context {G : Type} `{PRNG G}.
Variables (fuel : nat) (interval : Z) (ideal reject : Q) (running : list Z).

(** One pass of the counter loop, when it returns. *)
Lemma counter_step_spec i c g c' g' :
  counter_step fuel interval ideal reject running i c g = (Ok c', g') ->
  exists r (k : nat),
    running !! i = Some r
    /\ (r = 0 -> k = 0%nat)
    /\ pt c' = pt c + Z.of_nat k
    /\ pg c' = pg c + good_count reject g k
    /\ run_sec_accum c'
       = (if r =? 0 then run_sec_accum c
          else run_sec_accum c + inject_Z interval)%Q
    /\ (accum_cycle c'
        == (if r =? 0 then accum_cycle c else accum_cycle c + inject_Z interval)
           - inject_Z (Z.of_nat k) * ideal)%Q
    /\ (r <> 0 -> (accum_cycle c' < ideal)%Q)
    /\ ((0 <= accum_cycle c)%Q -> 0 <= interval -> (0 <= accum_cycle c')%Q)
    /\ parts_total c' = parts_total c ++ [pt c']
    /\ parts_good c' = parts_good c ++ [pg c']
    /\ run_minutes_today c'
       = run_minutes_today c ++ [(run_sec_accum c' / 60)%Q]
    /\ g' = draw_state g k.
Proof.
  intros E. unfold counter_step in E. st_inv E.
  apply lift_ok in H0 as [Hr ->]. apply getitem_ok in Hr.
  apply st_ret_ok in E as [<- <-].
  cbn [pt pg run_sec_accum accum_cycle parts_total parts_good run_minutes_today].
  exists a. destruct (Z.eqb_spec a 0) as [->|Hne]; cbn [negb] in H1.
  - apply st_ret_ok in H1 as [<- <-]. exists 0%nat.
    cbn [good_count draw_state]. change (inject_Z (Z.of_nat 0)) with 0%Q.
    repeat split; try reflexivity; try lia; try lra; auto.
  - apply cycle_loop_spec in H1
      as (k & _ & Hpt & Hpg & Hacc & Hlt & Hpos & Hrun & Hl1 & Hl2 & Hl3 & Hg).
    cbn [pt pg run_sec_accum accum_cycle parts_total parts_good
         run_minutes_today] in *.
    exists k. rewrite Hl1, Hl2, Hl3, Hrun.
    repeat split; try assumption; try reflexivity; try lia; [auto|].
    intros Ha Hi. apply Hpos.
    assert (0 <= inject_Z interval)%Q
      by (change 0%Q with (inject_Z 0); now rewrite <- Zle_Qle).
    lra.
Qed.

(** One pass returns when its index is in range, the cycle time is positive,
    the accumulator holds less than one cycle and the fuel covers one
    interval more. *)
Lemma counter_step_total i c g :
  (i < length running)%nat ->
  (0 < ideal)%Q ->
  (accum_cycle c < ideal)%Q ->
  (inject_Z interval + ideal <= inject_Z (Z.of_nat fuel) * ideal)%Q ->
  exists c' g', counter_step fuel interval ideal reject running i c g = (Ok c', g').
Proof.
  intros Hi Hid Hacc Hfuel. unfold counter_step.
  destruct (getitem_lt running i Hi) as [r Hr].
  unfold mbind, st_bind, lift. rewrite Hr.
  destruct (negb (r =? 0)).
  - match goal with |- context [cycle_loop fuel ideal reject ?c0 g] =>
      destruct (cycle_loop_total fuel ideal reject c0 g Hid) as (c1 & g1 & E)
    end; [cbn [accum_cycle]; lra|].
    rewrite E. eexists _, _. reflexivity.
  - eexists _, _. reflexivity.
Qed.

(** An invariant of the passes holds when the loop returns. *)
Lemma counter_loop_invariant (P : nat -> Counters -> G -> Prop) :
  forall k s c g c' g',
  (forall i c g c' g', (s <= i < s + k)%nat -> P i c g ->
     counter_step fuel interval ideal reject running i c g = (Ok c', g') ->
     P (S i) c' g') ->
  P s c g ->
  counter_loop fuel interval ideal reject running (seq s k) c g = (Ok c', g') ->
  P (s + k)%nat c' g'.
Proof.
  induction k as [|k IH]; intros s c g c' g' Hstep H0 E; cbn [seq counter_loop] in E.
  - apply st_ret_ok in E as [<- <-]. now rewrite Nat.add_0_r.
  - st_inv E. replace (s + S k)%nat with (S s + k)%nat by lia.
    apply (IH (S s) a s0); [|eapply Hstep; eauto; lia|exact E].
    intros i c1 g1 c2 g2 Hi. apply Hstep. lia.
Qed.

(** The loop returns when the cycle time is positive, the interval is not
    negative and the fuel covers one interval more than a cycle. *)
Lemma counter_loop_total : forall k s c g,
  (s + k <= length running)%nat ->
  (0 < ideal)%Q -> 0 <= interval ->
  (0 <= accum_cycle c < ideal)%Q ->
  (inject_Z interval + ideal <= inject_Z (Z.of_nat fuel) * ideal)%Q ->
  exists c' g',
    counter_loop fuel interval ideal reject running (seq s k) c g = (Ok c', g').
Proof.
  induction k as [|k IH]; intros s c g Hlen Hid Hi Hacc Hfuel; cbn [seq counter_loop].
  - eexists _, _. reflexivity.
  - destruct (counter_step_total s c g) as (c1 & g1 & E1); try lia; try lra.
    unfold mbind, st_bind. rewrite E1.
    apply IH; try assumption; try lia.
    apply counter_step_spec in E1
      as (r & j & _ & _ & _ & _ & _ & Hacc1 & Hlt & Hpos & _).
    split; [apply Hpos; [lra|lia]|].
    destruct (Z.eq_dec r 0) as [->|Hne]; [|now apply Hlt].
    cbn [Z.eqb] in Hacc1.
    assert (0 <= inject_Z (Z.of_nat j) * ideal)%Q.
    { apply Qmult_le_0_compat; [|lra].
      change 0%Q with (inject_Z 0). rewrite <- Zle_Qle. lia. }
    lra.
Qed.

End CounterLoop.

Section CounterInvariants.

Context {G : Type} `{PRNG G}.
Variables (fuel : nat) (interval : Z) (ideal reject : Q) (running : list Z).

Lemma parts_inv_step i c g c' g' :
  parts_inv i c ->
  counter_step fuel interval ideal reject running i c g = (Ok c', g') ->
  parts_inv (S i) c'.
Proof.
  intros (Hl1 & Hl2 & Hpg & Hb1 & Hb2 & Hpw & Hm1 & Hm2) E.
  apply counter_step_spec in E
    as (r & k & _ & _ & Hpt' & Hpg' & _ & _ & _ & _ & Ht & Hg & _).
  pose proof (good_count_range reject g k) as Hgc.
  unfold parts_inv. rewrite Ht, Hg, !length_app. cbn [length].
  split; [lia|]. split; [lia|]. split; [lia|].
  split; [|split; [|split; [|split]]].
  - intros j x Hj. apply lookup_app_Some in Hj as [Hj | [_ Hj]].
    + apply Hb1 in Hj. lia.
    + apply list_lookup_singleton_Some in Hj as [_ <-]. lia.
  - intros j y Hj. apply lookup_app_Some in Hj as [Hj | [_ Hj]].
    + apply Hb2 in Hj. lia.
    + apply list_lookup_singleton_Some in Hj as [_ <-]. lia.
  - intros j x y Hx Hy.
    apply lookup_app_Some in Hx as [Hx | [Hjx Hx]];
      apply lookup_app_Some in Hy as [Hy | [Hjy Hy]].
    + eapply Hpw; eauto.
    + apply lookup_lt_Some in Hx. lia.
    + apply lookup_lt_Some in Hy. lia.
    + apply list_lookup_singleton_Some in Hx as [_ <-].
      apply list_lookup_singleton_Some in Hy as [_ <-]. lia.
  - apply monotone_snoc; [exact Hm1| |lia].
    intros j x Hj. apply Hb1 in Hj. lia.
  - apply monotone_snoc; [exact Hm2| |lia].
    intros j x Hj. apply Hb2 in Hj. lia.
Qed.

Lemma counter_loop_parts n c g g' :
  counter_loop fuel interval ideal reject running (seq 0 n) counters0 g = (Ok c, g') ->
  parts_inv n c.
Proof.
  intros E.
  apply (counter_loop_invariant fuel interval ideal reject running
           (fun i c _ => parts_inv i c) n 0%nat counters0 g c g'); [| |exact E].
  - intros i c1 g1 c2 g2 _. apply parts_inv_step.
  - unfold parts_inv, counters0, monotone. cbn.
    repeat split; try lia; intros; discriminate.
Qed.

End CounterInvariants.

(** C4. In every generated timeline, at every index,
    [parts_total[i] >= parts_good[i] >= 0], and both [parts_total] and
    [parts_good] never decrease along the timeline (they have one entry per
    instant). *)
Theorem parts_counters_ordered {G : Type} `{PRNG G} fuel a (g g' : G) sim :
  simulate fuel a g = (Ok sim, g') ->
  length (parts_total (counters sim)) = length (ts_list sim)
  /\ length (parts_good (counters sim)) = length (ts_list sim)
  /\ (forall i x y,
        parts_total (counters sim) !! i = Some x ->
        parts_good (counters sim) !! i = Some y ->
        x >= y /\ y >= 0)
  /\ (forall i j x y, (i <= j)%nat ->
        parts_total (counters sim) !! i = Some x ->
        parts_total (counters sim) !! j = Some y -> x <= y)
  /\ (forall i j x y, (i <= j)%nat ->
        parts_good (counters sim) !! i = Some x ->
        parts_good (counters sim) !! j = Some y -> x <= y).
Proof.
  intros E. apply simulate_inv in E
    as (ts & sc0 & sc1 & sc2 & c & g2 & mc & _ & _ & _ & _ & Hc & _ & ->).
  cbn [counters ts_list].
  apply counter_loop_parts in Hc
    as (Hl1 & Hl2 & _ & _ & _ & Hpw & Hm1 & Hm2).
  split; [exact Hl1|]. split; [exact Hl2|]. split; [|split].
  - intros i x y Hx Hy. specialize (Hpw i x y Hx Hy). lia.
  - exact Hm1.
  - exact Hm2.
Qed.

(** [parts_counters_ordered] on an hourly day of the default machine. *)
Lemma parts_counters_ordered_witness :
  exists sim g',
    simulate 400 (with_interval default_args 3600) 0 = (Ok sim, g')
    /\ (forall i x y,
          parts_total (counters sim) !! i = Some x ->
          parts_good (counters sim) !! i = Some y ->
          x >= y /\ y >= 0)
    /\ parts_total (counters sim) !! 23%nat = Some 3600
    /\ parts_good (counters sim) !! 23%nat = Some 3542.
Proof.
  eexists ?[sim], ?[g'].
  assert (E : simulate 400 (with_interval default_args 3600) 0 = (Ok ?sim, ?g'))
    by (vm_compute; reflexivity).
  split; [exact E|]. split; [|split; reflexivity].
  exact (proj1 (proj2 (proj2 (parts_counters_ordered 400 _ 0 _ _ E)))).
Defined.

Section RunTime.

Context {G : Type} `{PRNG G}.
Variables (fuel : nat) (interval : Z) (ideal reject : Q) (running : list Z).

Lemma run_inv_step i c g c' g' :
  run_inv interval running i c ->
  counter_step fuel interval ideal reject running i c g = (Ok c', g') ->
  run_inv interval running (S i) c'.
Proof.
  intros (Hl & Hrun & Hrm) E.
  apply counter_step_spec in E
    as (r & k & Hr & _ & _ & _ & Hrun' & _ & _ & _ & _ & _ & Hrm' & _).
  assert (Hnew : (run_sec_accum c' == inject_Z (interval * run_count running (S i)))%Q).
  { rewrite Hrun'. cbn [run_count]. rewrite Hr.
    destruct (r =? 0).
    - rewrite Hrun. now rewrite Z.add_0_r.
    - rewrite Hrun, Z.mul_add_distr_l, Z.mul_1_r, inject_Z_plus. reflexivity. }
  unfold run_inv. rewrite Hrm', length_app. cbn [length].
  split; [lia|]. split; [exact Hnew|].
  intros j q Hj. apply lookup_app_Some in Hj as [Hj | [Hji Hj]].
  - now apply Hrm.
  - apply list_lookup_singleton_Some in Hj as [Hj <-].
    replace j with i by lia. now rewrite Hnew.
Qed.

Lemma counter_loop_run n c g g' :
  counter_loop fuel interval ideal reject running (seq 0 n) counters0 g = (Ok c, g') ->
  run_inv interval running n c.
Proof.
  intros E.
  apply (counter_loop_invariant fuel interval ideal reject running
           (fun i c _ => run_inv interval running i c) n 0%nat counters0 g c g'); [| |exact E].
  - intros i c1 g1 c2 g2 _. apply run_inv_step.
  - unfold run_inv, counters0. cbn [run_minutes_today run_sec_accum run_count length].
    rewrite Z.mul_0_r. repeat split; try reflexivity; intros; discriminate.
Qed.

Lemma cycle_inv_step i c g c' g' :
  0 <= interval ->
  length (parts_total c) = i ->
  cycle_inv interval ideal running i c ->
  counter_step fuel interval ideal reject running i c g = (Ok c', g') ->
  cycle_inv interval ideal running (S i) c'.
Proof.
  intros Hi Hlen ([Hge Hlt] & Hsum & Hent) E.
  apply counter_step_spec in E
    as (r & k & Hr & Hk & Hpt' & _ & _ & Hacc' & Hlt' & Hpos' & Hl' & _).
  assert (Hsum' : (inject_Z (pt c') * ideal + accum_cycle c'
                   == inject_Z (interval * run_count running (S i)))%Q).
  { cbn [run_count]. rewrite Hr, Hpt', Hacc', inject_Z_plus.
    destruct (r =? 0).
    - rewrite Z.add_0_r, <- Hsum. ring.
    - rewrite Z.mul_add_distr_l, Z.mul_1_r, inject_Z_plus, <- Hsum. ring. }
  assert (Hrange : (0 <= accum_cycle c' < ideal)%Q).
  { split; [now apply Hpos'|].
    destruct (Z.eq_dec r 0) as [->|Hne]; [|now apply Hlt'].
    rewrite Hacc', (Hk eq_refl). cbn [Z.eqb].
    change (inject_Z (Z.of_nat 0)) with 0%Q. lra. }
  split; [exact Hrange|]. split; [exact Hsum'|].
  intros j x Hj. rewrite Hl' in Hj.
  apply lookup_app_Some in Hj as [Hj | [Hji Hj]].
  - now apply Hent.
  - apply list_lookup_singleton_Some in Hj as [Hj <-].
    replace j with i by lia. rewrite <- Hsum'. lra.
Qed.

Lemma counter_loop_cycle n c g g' :
  0 <= interval -> (0 < ideal)%Q ->
  counter_loop fuel interval ideal reject running (seq 0 n) counters0 g = (Ok c, g') ->
  cycle_inv interval ideal running n c.
Proof.
  intros Hi Hid E.
  enough (parts_inv n c /\ cycle_inv interval ideal running n c) by tauto.
  apply (counter_loop_invariant fuel interval ideal reject running
           (fun i c _ => parts_inv i c /\ cycle_inv interval ideal running i c) n 0%nat counters0 g c g');
    [| |exact E].
  - intros i c1 g1 c2 g2 _ [Hp Hc] E1. split.
    + eapply parts_inv_step; eauto.
    + eapply cycle_inv_step; eauto. apply Hp.
  - split.
    + unfold parts_inv, counters0, monotone. cbn.
      repeat split; try lia; intros; discriminate.
    + unfold cycle_inv, counters0.
      cbn [accum_cycle pt parts_total run_count].
      rewrite Z.mul_0_r. repeat split; try lra; intros; discriminate.
Qed.

End RunTime.

(** How a successful run of [timeline] decomposes. *)
Lemma timeline_inv fuel a ts :
  timeline fuel a = Ok ts ->
  exists y m d t0,
    parse_date (date a) = Ok (y, m, d)
    /\ Py.datetime_new y m d 0 0 0 = Ok t0
    /\ 0 <= t0
    /\ build_ts fuel (interval_sec a) (t0 + 86390) t0 [] = Ok ts.
Proof.
  unfold timeline. intros E.
  destruct (parse_date (date a)) as [[[y m] d]| |]; try discriminate.
  cbn [mbind result_bind] in E.
  destruct (Py.datetime_new y m d 0 0 0) as [t0| |] eqn:E0; try discriminate.
  destruct (datetime_new_inv _ _ _ _ _ _ _ E0) as (Ht0 & Hord & _ & E1).
  rewrite E1 in E. cbn [mbind result_bind] in E.
  exists y, m, d, t0.
  split; [reflexivity|]. split; [exact E0|]. split; [lia|].
  replace (t0 + 86390) with ((Py.ymd2ord y m d - 1) * 86400 + 86390) by lia.
  exact E.
Qed.

(** A timeline is only built for a positive interval. *)
Lemma timeline_interval_pos fuel a ts :
  timeline fuel a = Ok ts -> 0 < interval_sec a.
Proof.
  intros E. apply timeline_inv in E as (y & m & d & t0 & _ & _ & _ & E).
  destruct (Z_lt_le_dec 0 (interval_sec a)) as [Hpos|Hneg]; [exact Hpos|].
  exfalso. eapply (build_ts_nonpositive fuel); [exact Hneg| |exact E]. lia.
Qed.

Lemma run_count_all_running running s k :
  (forall j, (s <= j < s + k)%nat -> exists r, running !! j = Some r /\ r <> 0) ->
  run_count running (s + k) = run_count running s + Z.of_nat k.
Proof.
  induction k as [|k IH]; intros Hrun.
  - rewrite Nat.add_0_r. cbn. lia.
  - replace (s + S k)%nat with (S (s + k)) by lia. rewrite run_count_S.
    rewrite IH by (intros j Hj; apply Hrun; lia).
    destruct (Hrun (s + k)%nat) as (r & -> & Hr); [lia|].
    destruct (Z.eqb_spec r 0); lia.
Qed.

(** ** The event emitter *)

Lemma getitem_nth {A} (l : list A) i d :
  (i < length l)%nat -> getitem l i = Ok (nth i l d).
Proof.
  intros Hi. apply getitem_ok.
  destruct (lookup_lt_is_Some_2 l i Hi) as [x Hx].
  rewrite Hx. f_equal. symmetry. now apply nth_lookup_Some.
Qed.

Lemma add_row_eq a t object_ metric v unit w :
  add_row a t object_ metric v unit w
  = (Ok tt, w ++ [mk_row a t object_ metric v unit]).
Proof. reflexivity. Qed.

Lemma lift_bind_ok {S A B} (x : A) (k : A -> ST S B) (s : S) :
  (lift (Ok x) ≫= k) s = k x s.
Proof. reflexivity. Qed.

Lemma series_rows_eq a sim : forall its w,
  aligned sim ->
  Forall (fun it => (fst it < length (ts_list sim))%nat) its ->
  series_rows a sim its w = (Ok tt, w ++ flat_map (rows_of a sim) its).
Proof.
  intros its w (_ & H1 & H2 & H3 & H4 & H5 & H6).
  revert w. induction its as [|[i t] its IH]; intros w Hall; cbn [series_rows].
  - cbn. now rewrite app_nil_r.
  - apply Forall_cons in Hall as [Hi Hall]. cbn [fst] in Hi.
    rewrite (getitem_nth (state_code sim) i 0) by lia.
    rewrite lift_bind_ok. unfold mbind at 1, st_bind at 1. rewrite add_row_eq.
    rewrite (getitem_nth (running sim) i 0) by lia.
    rewrite lift_bind_ok. unfold mbind at 1, st_bind at 1. rewrite add_row_eq.
    rewrite (getitem_nth (parts_total (counters sim)) i 0) by lia.
    rewrite lift_bind_ok. unfold mbind at 1, st_bind at 1. rewrite add_row_eq.
    rewrite (getitem_nth (parts_good (counters sim)) i 0) by lia.
    rewrite lift_bind_ok. unfold mbind at 1, st_bind at 1. rewrite add_row_eq.
    rewrite (getitem_nth (run_minutes_today (counters sim)) i 0%Q) by lia.
    rewrite lift_bind_ok. unfold mbind at 1, st_bind at 1. rewrite add_row_eq.
    rewrite (getitem_nth (motor_current sim) i 0%Q) by lia.
    rewrite lift_bind_ok. unfold mbind at 1, st_bind at 1. rewrite add_row_eq.
    rewrite IH by exact Hall. cbn [flat_map rows_of].
    rewrite <- !app_assoc. reflexivity.
Qed.

(** With aligned arrays the writer completes and writes [csv_rows]. *)
Lemma write_csv_eq a sim :
  aligned sim -> write_csv a sim [] = (Ok tt, csv_rows a sim).
Proof.
  intros Hal. unfold write_csv.
  rewrite (getitem_nth (ts_list sim) 0 0) by apply Hal.
  rewrite lift_bind_ok. unfold mbind at 1, st_bind at 1. rewrite add_row_eq.
  rewrite series_rows_eq; [reflexivity|exact Hal|].
  apply Forall_forall. intros [i t] Hin. cbn [fst].
  apply enumerate_elem in Hin. now apply lookup_lt_Some in Hin.
Qed.

(** A block of [c] rows per element: where the rows of element [i] are. *)
Lemma flat_map_lookup {A B} (f : A -> list B) (c : nat) :
  (forall x, length (f x) = c) ->
  forall l i k x, (k < c)%nat -> l !! i = Some x ->
  flat_map f l !! (c * i + k)%nat = f x !! k.
Proof.
  intros Hc l. induction l as [|y l IH]; intros i k x Hk Hi; [discriminate|].
  cbn [flat_map]. destruct i as [|i].
  - injection Hi as ->. rewrite Nat.mul_0_r, Nat.add_0_l.
    apply lookup_app_l. now rewrite Hc.
  - cbn in Hi. rewrite lookup_app_r by (rewrite Hc; lia).
    rewrite Hc. replace (c * S i + k - c)%nat with (c * i + k)%nat by lia.
    now apply IH.
Qed.

Lemma flat_map_length_const {A B} (f : A -> list B) (c : nat) (l : list A) :
  (forall x, length (f x) = c) -> length (flat_map f l) = (c * length l)%nat.
Proof.
  intros Hc. induction l as [|y l IH]; cbn [flat_map length]; [lia|].
  rewrite length_app, Hc, IH. lia.
Qed.

Lemma build_ts_length fuel : forall interval t1 t acc l,
  build_ts fuel interval t1 t acc = Ok l ->
  (length acc <= length l)%nat /\ (t <= t1 -> (length acc < length l)%nat).
Proof.
  induction fuel as [|fuel IH]; intros interval t1 t acc l E; cbn [build_ts] in E;
    destruct (Z.leb_spec t t1) as [Hle|Hgt]; try discriminate;
    try (injection E as <-; split; [lia|intros; lia]).
  destruct (Py.add_seconds t interval) as [t'| |]; try discriminate.
  apply IH in E as [E _]. rewrite length_app in E. cbn [length] in E.
  split; [lia|intros; lia].
Qed.

Lemma timeline_nonempty fuel a ts :
  timeline fuel a = Ok ts -> (0 < length ts)%nat.
Proof.
  intros E. apply timeline_inv in E as (y & m & d & t0 & _ & _ & _ & E).
  apply build_ts_length in E as [_ E]. cbn [length] in E. apply E. lia.
Qed.

Section Sensor.

Context {G : Type} `{PRNG G}.

Lemma motor_sample_ok s g : exists x g', motor_sample s g = (Ok x, g').
Proof.
  unfold motor_sample, frand, mbind, st_bind.
  repeat match goal with |- context [if ?b then _ else _] => destruct b end;
    match goal with |- context [gauss ?mu ?sigma g] =>
      destruct (gauss mu sigma g) end; eexists _, _; reflexivity.
Qed.

Lemma motor_loop_length sc : forall range acc g mc g',
  motor_loop sc range acc g = (Ok mc, g') ->
  length mc = (length acc + length range)%nat.
Proof.
  induction range as [|i range IH]; intros acc g mc g' E; cbn [motor_loop] in E.
  - apply st_ret_ok in E as [<- _]. cbn. lia.
  - st_inv E. apply IH in E. rewrite length_app in E. cbn [length] in *. lia.
Qed.

Lemma motor_loop_total sc : forall range acc g,
  Forall (fun i => (i < length sc)%nat) range ->
  exists mc g', motor_loop sc range acc g = (Ok mc, g').
Proof.
  induction range as [|i range IH]; intros acc g Hall; cbn [motor_loop].
  - eexists _, _. reflexivity.
  - apply Forall_cons in Hall as [Hi Hall].
    destruct (getitem_lt sc i Hi) as [s Hs]. rewrite Hs, lift_bind_ok.
    destruct (motor_sample_ok s g) as (x & g1 & Ex).
    unfold mbind, st_bind. rewrite Ex. now apply IH.
Qed.

(** Every array a run computes has one entry per instant, and there is at
    least one instant. *)
Lemma simulate_aligned fuel a g sim g' :
  simulate fuel a g = (Ok sim, g') -> aligned sim.
Proof.
  intros E. pose proof (simulate_state_code _ _ _ _ _ E) as [Hsc _].
  apply simulate_inv in E
    as (ts & sc0 & sc1 & sc2 & c & g2 & mc & Hts & _ & _ & _ & Hc & Hm & ->).
  cbn [state_code ts_list] in Hsc. unfold aligned.
  cbn [ts_list state_code running counters motor_current].
  pose proof (counter_loop_parts _ _ _ _ _ _ _ _ _ Hc) as (Hl1 & Hl2 & _).
  apply counter_loop_run in Hc as (Hl3 & _).
  apply motor_loop_length in Hm. rewrite length_seq in Hm. cbn [length] in Hm.
  apply timeline_nonempty in Hts. rewrite length_map.
  repeat split; try assumption; lia.
Qed.

(** [main] completes exactly when the simulation does, and then writes the
    configuration row followed by six rows per instant. *)
Lemma main_completed fuel a g rows :
  main fuel a g = Completed rows <->
  exists sim g', simulate fuel a g = (Ok sim, g') /\ rows = csv_rows a sim.
Proof.
  unfold main. split.
  - destruct (simulate fuel a g) as [[sim| |] g'] eqn:E; try discriminate.
    rewrite write_csv_eq by (eapply simulate_aligned; eauto).
    intros [= <-]. eauto.
  - intros (sim & g' & E & ->). rewrite E.
    rewrite write_csv_eq by (eapply simulate_aligned; eauto). reflexivity.
Qed.

(** Whatever happens, [main] leaves no partly written file behind. *)
Lemma main_no_partial_output fuel a g :
  (exists rows, main fuel a g = Completed rows)
  \/ (exists e, main fuel a g = Failed e None)
  \/ main fuel a g = Unfinished None.
Proof.
  unfold main.
  destruct (simulate fuel a g) as [[sim| |] g'] eqn:E; eauto.
  rewrite write_csv_eq by (eapply simulate_aligned; eauto). eauto.
Qed.

End Sensor.

Lemma rows_of_length a sim it : length (rows_of a sim it) = 6%nat.
Proof. destruct it. reflexivity. Qed.

(** C8. When [main] completes, the file holds one configuration row (ideal
    cycle time) for the first instant, and it is the only one; after it come,
    for each instant in order, six rows in the fixed order [state_code],
    [running], [parts_total], [parts_good], [run_minutes_today] and the
    sensor reading [motor_current_a], each carrying the instant's value. *)
Theorem event_order {G : Type} `{PRNG G} fuel a (g : G) rows :
  main fuel a g = Completed rows ->
  exists sim g' t0,
    simulate fuel a g = (Ok sim, g')
    /\ length rows = (1 + 6 * length (ts_list sim))%nat
    /\ ts_list sim !! 0%nat = Some t0
    /\ rows !! 0%nat
       = Some (mk_row a t0 "config" "ideal_ct_s" (VFloat (ideal_ct_s a))
                 (Some "s"%string))
    /\ (forall j row, rows !! j = Some row -> col_object row = "config"%string ->
          j = 0%nat)
    /\ (forall i t, ts_list sim !! i = Some t ->
          exists s r p q m x,
            state_code sim !! i = Some s
            /\ running sim !! i = Some r
            /\ parts_total (counters sim) !! i = Some p
            /\ parts_good (counters sim) !! i = Some q
            /\ run_minutes_today (counters sim) !! i = Some m
            /\ motor_current sim !! i = Some x
            /\ rows !! (1 + 6 * i)%nat
               = Some (mk_row a t "state" "state_code" (VInt s) None)
            /\ rows !! (2 + 6 * i)%nat
               = Some (mk_row a t "state" "running" (VBool (negb (r =? 0))) None)
            /\ rows !! (3 + 6 * i)%nat
               = Some (mk_row a t "counter" "parts_total" (VInt p)
                         (Some "count"%string))
            /\ rows !! (4 + 6 * i)%nat
               = Some (mk_row a t "counter" "parts_good" (VInt q)
                         (Some "count"%string))
            /\ rows !! (5 + 6 * i)%nat
               = Some (mk_row a t "kpi" "run_minutes_today" (VFloat m)
                         (Some "min"%string))
            /\ rows !! (6 + 6 * i)%nat
               = Some (mk_row a t "sensor" "motor_current_a" (VFloat x)
                         (Some "A"%string))).
Proof.
  intros E. apply main_completed in E as (sim & g' & E & ->).
  pose proof (simulate_aligned _ _ _ _ _ E) as Hal.
  destruct Hal as (Hn & H1 & H2 & H3 & H4 & H5 & H6).
  destruct (lookup_lt_is_Some_2 (ts_list sim) 0%nat Hn) as [t0 Ht0].
  exists sim, g', t0. split; [exact E|].
  assert (Hblock : forall i k t, (k < 6)%nat -> ts_list sim !! i = Some t ->
            csv_rows a sim !! (S (6 * i + k)) = rows_of a sim (i, t) !! k).
  { intros i k t Hk Hi. unfold csv_rows. cbn [lookup list_lookup].
    apply (flat_map_lookup (rows_of a sim) 6 (rows_of_length a sim));
      [exact Hk|]. now apply enumerate_lookup. }
  split; [|split; [exact Ht0|split; [|split]]].
  - unfold csv_rows. cbn [length].
    rewrite (flat_map_length_const _ 6) by apply rows_of_length.
    unfold enumerate. rewrite length_zip_with, length_seq. lia.
  - unfold csv_rows. cbn [lookup list_lookup].
    now rewrite (nth_lookup_Some (ts_list sim) 0 _ t0 Ht0).
  - intros j row Hj Hobj. destruct j as [|j]; [reflexivity|exfalso].
    assert (Hlt : (j < 6 * length (ts_list sim))%nat).
    { apply lookup_lt_Some in Hj. unfold csv_rows in Hj. cbn [length] in Hj.
      rewrite (flat_map_length_const _ 6) in Hj by apply rows_of_length.
      unfold enumerate in Hj. rewrite length_zip_with, length_seq in Hj. lia. }
    assert (Hi : (j / 6 < length (ts_list sim))%nat)
      by (apply Nat.Div0.div_lt_upper_bound; lia).
    destruct (lookup_lt_is_Some_2 _ _ Hi) as [t Ht].
    pose proof (Nat.mod_upper_bound j 6 ltac:(lia)) as Hk.
    rewrite (Nat.div_mod_eq j 6) in Hj.
    rewrite (Hblock _ _ t Hk Ht) in Hj. cbn [rows_of] in Hj.
    destruct (j mod 6)%nat as [|[|[|[|[|[|k]]]]]]; cbn in Hj;
      try (injection Hj as <-; discriminate); lia.
  - intros i t Hi.
    assert (Hlt : (i < length (ts_list sim))%nat) by now apply lookup_lt_Some in Hi.
    destruct (lookup_lt_is_Some_2 (state_code sim) i) as [s Hs]; [lia|].
    destruct (lookup_lt_is_Some_2 (running sim) i) as [r Hr]; [lia|].
    destruct (lookup_lt_is_Some_2 (parts_total (counters sim)) i) as [p Hp]; [lia|].
    destruct (lookup_lt_is_Some_2 (parts_good (counters sim)) i) as [q Hq]; [lia|].
    destruct (lookup_lt_is_Some_2 (run_minutes_today (counters sim)) i)
      as [m Hm]; [lia|].
    destruct (lookup_lt_is_Some_2 (motor_current sim) i) as [x Hx]; [lia|].
    exists s, r, p, q, m, x. repeat (split; [assumption|]).
    replace (1 + 6 * i)%nat with (S (6 * i + 0)) by lia.
    replace (2 + 6 * i)%nat with (S (6 * i + 1)) by lia.
    replace (3 + 6 * i)%nat with (S (6 * i + 2)) by lia.
    replace (4 + 6 * i)%nat with (S (6 * i + 3)) by lia.
    replace (5 + 6 * i)%nat with (S (6 * i + 4)) by lia.
    replace (6 + 6 * i)%nat with (S (6 * i + 5)) by lia.
    rewrite !(Hblock i _ t) by (exact Hi || lia).
    cbn [rows_of lookup list_lookup].
    rewrite (nth_lookup_Some _ _ 0 _ Hs), (nth_lookup_Some _ _ 0 _ Hr),
      (nth_lookup_Some _ _ 0 _ Hp), (nth_lookup_Some _ _ 0 _ Hq),
      (nth_lookup_Some _ _ 0%Q _ Hm), (nth_lookup_Some _ _ 0%Q _ Hx).
    repeat split; reflexivity.
Qed.

(** [event_order] on a day of the default machine sampled every six hours:
    25 rows. *)
Lemma event_order_witness :
  exists rows,
    main 2000 (with_interval default_args 21600) 0 = Completed rows
    /\ length rows = 25%nat
    /\ option_map col_metric (rows !! 0%nat) = Some "ideal_ct_s"%string
    /\ option_map col_metric (rows !! 1%nat) = Some "state_code"%string
    /\ option_map col_metric (rows !! 6%nat) = Some "motor_current_a"%string.
Proof.
  eexists ?[rows].
  assert (E : main 2000 (with_interval default_args 21600) 0 = Completed ?rows)
    by (vm_compute; reflexivity).
  split; [exact E|].
  destruct (event_order 2000 _ 0 _ E) as (sim & g' & t0 & _ & Hlen & _).
  split; [|repeat split; reflexivity].
  reflexivity.
Defined.

(** ** Totality of the generator *)

Lemma planned_at_total ws mm i : forall sc,
  (i < length sc)%nat ->
  exists sc', planned_at ws mm i sc = Ok sc' /\ length sc' = length sc.
Proof.
  induction ws as [|[a b] ws IH]; intros sc Hi; cbn [planned_at]; [eauto|].
  destruct ((a <=? mm) && (mm <? b)); [|now apply IH].
  unfold setitem. replace (i <? length sc)%nat with true
    by (symmetry; now apply Nat.ltb_lt).
  cbn [mbind result_bind].
  destruct (IH (<[i:=3]> sc)) as (sc' & E & Hl);
    [now rewrite length_insert|].
  exists sc'. split; [exact E|]. now rewrite Hl, length_insert.
Qed.

Lemma faults_at_total fs mm i : forall sc,
  (i < length sc)%nat ->
  exists sc', faults_at fs mm i sc = Ok sc' /\ length sc' = length sc.
Proof.
  induction fs as [|[a b] fs IH]; intros sc Hi; cbn [faults_at]; [eauto|].
  destruct ((a <=? mm) && (mm <? a + b)); [|now apply IH].
  unfold setitem. replace (i <? length sc)%nat with true
    by (symmetry; now apply Nat.ltb_lt).
  cbn [mbind result_bind].
  destruct (IH (<[i:=4]> sc)) as (sc' & E & Hl);
    [now rewrite length_insert|].
  exists sc'. split; [exact E|]. now rewrite Hl, length_insert.
Qed.

Lemma planned_loop_total ws its : forall sc,
  Forall (fun it => (fst it < length sc)%nat) its ->
  exists sc', planned_loop ws its sc = Ok sc' /\ length sc' = length sc.
Proof.
  induction its as [|[i t] its IH]; intros sc Hall; cbn [planned_loop]; [eauto|].
  apply Forall_cons in Hall as [Hi Hall]. cbn [fst] in Hi.
  destruct (planned_at_total ws (minute_of_day t) i sc Hi) as (sc1 & E1 & Hl1).
  rewrite E1. cbn [mbind result_bind].
  destruct (IH sc1) as (sc' & E & Hl); [now rewrite Hl1|].
  exists sc'. split; [exact E|]. congruence.
Qed.

Lemma faults_loop_total fs its : forall sc,
  Forall (fun it => (fst it < length sc)%nat) its ->
  exists sc', faults_loop fs its sc = Ok sc' /\ length sc' = length sc.
Proof.
  induction its as [|[i t] its IH]; intros sc Hall; cbn [faults_loop]; [eauto|].
  apply Forall_cons in Hall as [Hi Hall]. cbn [fst] in Hi.
  destruct (faults_at_total fs (minute_of_day t) i sc Hi) as (sc1 & E1 & Hl1).
  rewrite E1. cbn [mbind result_bind].
  destruct (IH sc1) as (sc' & E & Hl); [now rewrite Hl1|].
  exists sc'. split; [exact E|]. congruence.
Qed.

Lemma enumerate_in_range {A} (l : list A) n :
  length l = n -> Forall (fun it => (fst it < n)%nat) (enumerate l).
Proof.
  intros <-. apply Forall_forall. intros [i x] Hin. cbn [fst].
  apply enumerate_elem in Hin. now apply lookup_lt_Some in Hin.
Qed.

Lemma valid_date_inv s :
  valid_date s = true ->
  exists y m d,
    parse_date s = Ok (y, m, d)
    /\ Py.datetime_new y m d 0 0 0 = Ok (midnight s).
Proof.
  unfold valid_date, midnight.
  destruct (parse_date s) as [[[y m] d]| |]; try discriminate.
  destruct (Py.datetime_new y m d 0 0 0) eqn:E; try discriminate.
  intros _. exists y, m, d. split; [reflexivity|exact E].
Qed.

(** The generator completes for a valid date, a positive interval whose
    instants are representable and a positive cycle time, when the fuel
    covers the instants of the day and the cycles of one interval. *)
Lemma simulate_total {G : Type} `{PRNG G} fuel a (g : G) :
  valid_date (date a) = true ->
  0 < interval_sec a ->
  midnight (date a) + (86390 / interval_sec a + 1) * interval_sec a
    <= Py.datetime_max ->
  (0 < ideal_ct_s a)%Q ->
  (Z.to_nat (86390 / interval_sec a) < fuel)%nat ->
  (inject_Z (interval_sec a) + ideal_ct_s a
   <= inject_Z (Z.of_nat fuel) * ideal_ct_s a)%Q ->
  exists sim g', simulate fuel a g = (Ok sim, g').
Proof.
  intros Hd Hi Hmax Hid Hf1 Hf2.
  apply valid_date_inv in Hd as (y & m & d & Hp & Ht0).
  pose proof (timeline_instants fuel a y m d _ Hp Ht0 Hi Hmax Hf1) as Hts.
  set (ts := instants _ _ _) in Hts.
  unfold simulate. rewrite Hts, lift_bind_ok.
  unfold mbind at 1, st_bind at 1, set_seed.
  unfold mbind at 1, st_bind at 1. rewrite base_profile_eq. cbn [app].
  set (sc0 := imap (fun i t => base_of (minute_of_day t) (nth_draw (seed 7) i)) ts).
  assert (Hl0 : length sc0 = length ts) by apply length_imap.
  destruct (planned_loop_total planned_windows (enumerate ts) sc0)
    as (sc1 & E1 & Hl1); [now apply enumerate_in_range|].
  rewrite E1, lift_bind_ok.
  destruct (faults_loop_total rare_faults (enumerate ts) sc1)
    as (sc2 & E2 & Hl2); [apply enumerate_in_range; congruence|].
  rewrite E2, lift_bind_ok.
  set (run := map (fun s => if s =? 2 then 1 else 0) sc2).
  destruct (counter_loop_total fuel (interval_sec a) (ideal_ct_s a)
              (reject_rate a) run (length ts) 0%nat counters0
              (draw_state (seed 7) (length ts))) as (c & g2 & Ec);
    [unfold run; rewrite length_map; lia | exact Hid | lia
    | cbn [counters0 accum_cycle]; lra | exact Hf2 |].
  unfold mbind at 1, st_bind at 1. rewrite Ec.
  destruct (motor_loop_total sc2 (seq 0 (length ts)) [] g2) as (mc & g3 & Em).
  { apply Forall_forall. intros i Hin. apply elem_of_seq in Hin. lia. }
  unfold mbind at 1, st_bind at 1. rewrite Em.
  eexists _, _. reflexivity.
Qed.

(** ** The order of the draws *)

Section Draws.

Context {G : Type} `{PRNG G}.
Variables (fuel : nat) (interval : Z) (ideal reject : Q) (running : list Z).

Lemma good_count_add g a b :
  good_count reject g (a + b)
  = good_count reject g a + good_count reject (draw_state g a) b.
Proof.
  revert g. induction a as [|a IH]; intros g; cbn [good_count draw_state Nat.add].
  - lia.
  - rewrite IH. lia.
Qed.

Lemma good_count_accepted g n k :
  good_count reject (draw_state g n) k = accepted reject g n k.
Proof.
  induction k as [|k IH]; [reflexivity|].
  rewrite good_count_S, IH. cbn [accepted].
  unfold nth_draw. now rewrite draw_state_add.
Qed.

Lemma draw_inv_step g0 i c g c' g' :
  draw_inv reject g0 i c g ->
  counter_step fuel interval ideal reject running i c g = (Ok c', g') ->
  draw_inv reject g0 (S i) c' g'.
Proof.
  intros (Hp & k & Hpt & Hpg & Hg & Hent) E.
  pose proof (parts_inv_step _ _ _ _ _ _ _ _ _ _ Hp E) as Hp'.
  split; [exact Hp'|].
  destruct Hp as (Hl1 & Hl2 & _).
  apply counter_step_spec in E
    as (r & k' & _ & _ & Hpt' & Hpg' & _ & _ & _ & _ & Ht & Hgd & _ & Hg').
  assert (Hnew : pg c' = good_count reject g0 (k + k')).
  { rewrite Hpg', Hpg, good_count_add, Hg. reflexivity. }
  exists (k + k')%nat. split; [lia|]. split; [exact Hnew|]. split.
  - rewrite Hg', Hg. now rewrite draw_state_add.
  - intros j p q Hj Hq. rewrite Ht in Hj. rewrite Hgd in Hq.
    apply lookup_app_Some in Hj as [Hj | [Hjl Hj]];
      apply lookup_app_Some in Hq as [Hq | [Hql Hq]].
    + eapply Hent; eauto.
    + apply lookup_lt_Some in Hj. lia.
    + apply lookup_lt_Some in Hq. lia.
    + apply list_lookup_singleton_Some in Hj as [_ <-].
      apply list_lookup_singleton_Some in Hq as [_ <-].
      split; [lia|]. rewrite Hnew. f_equal. lia.
Qed.

Lemma counter_loop_draws n g0 c g' :
  counter_loop fuel interval ideal reject running (seq 0 n) counters0 g0
  = (Ok c, g') ->
  draw_inv reject g0 n c g'.
Proof.
  intros E.
  apply (counter_loop_invariant fuel interval ideal reject running
           (draw_inv reject g0) n 0%nat counters0 g0 c g'); [| |exact E].
  - intros i c1 g1 c2 g2 _. apply draw_inv_step.
  - split.
    + unfold parts_inv, counters0, monotone. cbn.
      repeat split; try lia; intros; discriminate.
    + exists 0%nat. cbn. repeat split; intros; discriminate.
Qed.

End Draws.

(** The result of the simulation does not depend on the state the global
    generator was in when the program started. *)
Lemma simulate_seeded {G : Type} `{PRNG G} fuel a (g1 g2 : G) :
  fst (simulate fuel a g1) = fst (simulate fuel a g2).
Proof.
  unfold simulate, mbind, st_bind, lift, set_seed.
  destruct (timeline fuel a); reflexivity.
Qed.

(** C6. Two runs on the same options give the same outcome, row for row,
    whatever state the generator was in at start: [main] seeds it with 7
    before the first draw.  The draws are taken in a fixed order: the state
    of instant [i] is decided by draw number [i] of the seeded stream, and
    after the [n] state draws the reject decisions follow, one per completed
    part: [parts_good[i]] counts, among the draws number [n], ...,
    [n + parts_total[i] - 1], those that are not below the reject rate. *)
Theorem seeded_runs_agree {G : Type} `{PRNG G} fuel a (g1 g2 : G) :
  main fuel a g1 = main fuel a g2
  /\ forall sim g',
       simulate fuel a g1 = (Ok sim, g') ->
       (forall i t, ts_list sim !! i = Some t ->
          state_code sim !! i
          = Some (layered_state (minute_of_day t) (nth_draw (seed 7) i)))
       /\ (forall i p q,
             parts_total (counters sim) !! i = Some p ->
             parts_good (counters sim) !! i = Some q ->
             0 <= p
             /\ q = accepted (reject_rate a) (seed 7) (length (ts_list sim))
                      (Z.to_nat p)).
Proof.
  split.
  - unfold main. pose proof (simulate_seeded fuel a g1 g2) as E.
    destruct (simulate fuel a g1) as [r1 s1], (simulate fuel a g2) as [r2 s2].
    cbn [fst] in E. subst r2. reflexivity.
  - intros sim g' E. split; [apply (simulate_state_code _ _ _ _ _ E)|].
    apply simulate_inv in E
      as (ts & sc0 & sc1 & sc2 & c & g2' & mc & _ & _ & _ & _ & Hc & _ & ->).
    cbn [counters ts_list].
    apply counter_loop_draws in Hc as (_ & k & _ & _ & _ & Hent).
    intros i p q Hp Hq. destruct (Hent i p q Hp Hq) as [Hp0 ->].
    split; [exact Hp0|]. apply good_count_accepted.
Qed.

(** [seeded_runs_agree] on an hourly day, from two different start states of
    the generator. *)
Lemma seeded_runs_agree_witness :
  main 400 (with_interval default_args 3600) 0
  = main 400 (with_interval default_args 3600) 1
  /\ exists sim g',
       simulate 400 (with_interval default_args 3600) 0 = (Ok sim, g')
       /\ state_code sim !! 8%nat
          = Some (layered_state 480 (nth_draw (seed 7) 8))
       /\ parts_total (counters sim) !! 8%nat = Some 300
       /\ parts_good (counters sim) !! 8%nat = Some 294
       /\ 294 = accepted (reject_rate (with_interval default_args 3600))
                  (seed 7) (length (ts_list sim)) (Z.to_nat 300).
Proof.
  split; [exact (proj1 (seeded_runs_agree 400 _ 0 1))|].
  eexists ?[sim], ?[g'].
  assert (E : simulate 400 (with_interval default_args 3600) 0 = (Ok ?sim, ?g'))
    by (vm_compute; reflexivity).
  destruct (proj2 (seeded_runs_agree 400 _ 0 1) _ _ E) as [Hs Hg].
  split; [exact E|]. split; [|split; [reflexivity|split; [reflexivity|]]].
  - apply (Hs 8%nat (63893664000 + 8 * 3600)). reflexivity.
  - apply (Hg 8%nat 300 294); reflexivity.
Defined.

(** ** Configuration errors *)

Lemma main_timeline_raise {G : Type} `{PRNG G} fuel a (g : G) e :
  timeline fuel a = Raise e -> main fuel a g = Failed e None.
Proof.
  intros E. unfold main, simulate, mbind, st_bind, lift. rewrite E. reflexivity.
Qed.

Lemma main_completed_timeline {G : Type} `{PRNG G} fuel a (g : G) rows :
  main fuel a g = Completed rows -> exists ts, timeline fuel a = Ok ts.
Proof.
  intros E. apply main_completed in E as (sim & g' & E & _).
  apply simulate_inv in E as (ts & _ & _ & _ & _ & _ & _ & Hts & _). eauto.
Qed.

Lemma datetime_new_error y m d hh mi ss :
  (exists t, Py.datetime_new y m d hh mi ss = Ok t)
  \/ Py.datetime_new y m d hh mi ss = Raise ValueError
  \/ Py.datetime_new y m d hh mi ss = Raise OverflowError.
Proof.
  unfold Py.datetime_new.
  repeat match goal with |- context [if ?b then _ else _] => destruct b end; eauto.
Qed.

(** An invalid date stops [timeline] with an exception. *)
Lemma timeline_invalid_date fuel a :
  valid_date (date a) = false ->
  timeline fuel a = Raise ValueError \/ timeline fuel a = Raise OverflowError.
Proof.
  unfold valid_date, timeline, parse_date.
  destruct (map Py.int (Py.split "-" (date a)))
    as [|[y|] [|[m|] [|[d|] [|? ?]]]]; cbn [mbind result_bind]; auto.
  destruct (datetime_new_error y m d 0 0 0) as [[t ->]|[-> | ->]];
    cbn [mbind result_bind]; auto. discriminate.
Qed.

(** Enough fuel for the cycles of one interval. *)
Lemma cycle_fuel_exists (interval : Z) (ideal : Q) :
  (0 < ideal)%Q ->
  exists fuel0 : nat, forall fuel : nat, (fuel0 <= fuel)%nat ->
    (inject_Z interval + ideal <= inject_Z (Z.of_nat fuel) * ideal)%Q.
Proof.
  intros Hid.
  exists (Z.to_nat (Qceiling (inject_Z interval / ideal) + 1)).
  intros fuel Hfuel.
  pose proof (Qle_ceiling (inject_Z interval / ideal)) as Hc.
  assert (Hz : Qceiling (inject_Z interval / ideal) + 1 <= Z.of_nat fuel) by lia.
  rewrite Zle_Qle, inject_Z_plus in Hz. change (inject_Z 1) with 1%Q in Hz.
  assert (Hdiv : (inject_Z interval == inject_Z interval / ideal * ideal)%Q)
    by (field; lra).
  assert (Hm : (inject_Z interval / ideal * ideal
                <= inject_Z (Qceiling (inject_Z interval / ideal)) * ideal)%Q)
    by (apply Qmult_le_compat_r; [exact Hc|lra]).
  assert (Hn : ((inject_Z (Qceiling (inject_Z interval / ideal)) + 1) * ideal
                <= inject_Z (Z.of_nat fuel) * ideal)%Q)
    by (apply Qmult_le_compat_r; [exact Hz|lra]).
  rewrite Hdiv at 1. lra.
Qed.

(** C2 (as amended). Of the configuration errors only an invalid date is
    detected: when the date (ASCII text) is not three integers naming a day
    of the calendar, generation stops with a [ValueError] or an
    [OverflowError] before any event is produced, and no output is written.
    The interval and the reject probability are not validated.  With a
    non-positive interval no output is ever written: the run stops with an
    exception or is still building the timeline.  With any reject
    probability, in or out of [[0, 1]], a run with a valid date, a positive
    interval whose timeline is built and a cycle time that is a positive
    whole number of seconds (the default 12.0 is one) completes and writes
    the whole file, given enough fuel; with such a cycle time the part loop
    has nothing to round. *)
Theorem config_errors {G : Type} `{PRNG G} :
  (forall fuel a (g : G),
     ascii_text (date a) = true -> valid_date (date a) = false ->
     main fuel a g = Failed ValueError None
     \/ main fuel a g = Failed OverflowError None)
  /\ (forall fuel a (g : G),
        interval_sec a <= 0 ->
        (exists e, main fuel a g = Failed e None)
        \/ main fuel a g = Unfinished None)
  /\ (forall a (g : G),
        valid_date (date a) = true ->
        0 < interval_sec a ->
        midnight (date a) + (86390 / interval_sec a + 1) * interval_sec a
          <= Py.datetime_max ->
        (exists k, 0 < k /\ (ideal_ct_s a == inject_Z k)%Q) ->
        exists fuel0 : nat, forall fuel : nat, (fuel0 <= fuel)%nat ->
          exists sim g',
            simulate fuel a g = (Ok sim, g')
            /\ main fuel a g = Completed (csv_rows a sim)).
Proof.
  split; [|split].
  - intros fuel a g _ Hd.
    destruct (timeline_invalid_date fuel a Hd) as [E|E];
      [left|right]; now apply main_timeline_raise.
  - intros fuel a g Hi.
    destruct (main_no_partial_output fuel a g) as [[rows E]|[E|E]]; auto.
    exfalso. apply main_completed_timeline in E as [ts E].
    apply timeline_interval_pos in E. lia.
  - intros a g Hd Hi Hmax (k & Hk & Hidk).
    assert (Hid : (0 < ideal_ct_s a)%Q).
    { rewrite Hidk. change 0%Q with (inject_Z 0). now rewrite <- Zlt_Qlt. }
    destruct (cycle_fuel_exists (interval_sec a) (ideal_ct_s a) Hid) as [f0 Hf0].
    exists (S (Z.to_nat (86390 / interval_sec a)) + f0)%nat.
    intros fuel Hfuel.
    destruct (simulate_total fuel a g Hd Hi Hmax Hid) as (sim & g' & E);
      [lia|apply Hf0; lia|].
    exists sim, g'. split; [exact E|].
    apply main_completed. eauto.
Qed.

(** [config_errors] on the 30th of February, on a zero interval, and on a
    reject probability of 1.5 with a six-hour interval. *)
Lemma config_errors_witness :
  main 10 (with_date default_args "2025-02-30") 0 = Failed ValueError None
  /\ main 10 (with_interval default_args 0) 0 = Unfinished None
  /\ exists fuel0 : nat, forall fuel : nat, (fuel0 <= fuel)%nat ->
       exists sim g',
         simulate fuel
           (with_reject_rate (with_interval default_args 21600) (3 # 2)) 0
         = (Ok sim, g')
         /\ main fuel
              (with_reject_rate (with_interval default_args 21600) (3 # 2)) 0
            = Completed
                (csv_rows
                   (with_reject_rate (with_interval default_args 21600) (3 # 2))
                   sim).
Proof.
  split; [|split].
  - destruct (proj1 (@config_errors Z lcg) 10%nat
                (with_date default_args "2025-02-30") 0) as [E|E];
      [reflexivity|reflexivity|exact E|].
    vm_compute in E. discriminate.
  - destruct (proj1 (proj2 (@config_errors Z lcg)) 10%nat
                (with_interval default_args 0) 0) as [[e E]|E];
      [cbn; lia| |exact E].
    vm_compute in E. discriminate.
  - apply (proj2 (proj2 (@config_errors Z lcg))
             (with_reject_rate (with_interval default_args 21600) (3 # 2)) 0);
      [reflexivity|reflexivity|vm_compute; discriminate|].
    exists 12. split; reflexivity.
Defined.

(** C2 as stated fails: with a reject probability of 1.5 (and of -1)
    generation raises nothing and writes the whole file, 25 rows for a
    six-hour interval; with a zero interval it raises nothing either, after
    1000 passes it is still building the timeline. *)
Lemma config_errors_counterexample :
  (1 < 3 # 2)%Q
  /\ (exists rows,
        main 2000 (with_reject_rate (with_interval default_args 21600) (3 # 2)) 0
        = Completed rows /\ length rows = 25%nat)
  /\ (-1 < 0)%Q
  /\ (exists rows,
        main 2000 (with_reject_rate (with_interval default_args 21600) (-1)) 0
        = Completed rows /\ length rows = 25%nat)
  /\ main 1000 (with_interval default_args 0) 0 = Unfinished None.
Proof.
  split; [reflexivity|]. split; [|split; [reflexivity|split]].
  - eexists. split; [vm_compute; reflexivity|reflexivity].
  - eexists. split; [vm_compute; reflexivity|reflexivity].
  - vm_compute. reflexivity.
Qed.

(** ** The replayer *)

Section ReplayerFacts.

Import Replayer.

Variable fromisoformat : string -> option stamp.

Abbreviation parse row := (fromisoformat (ts_iso row)) (only parsing).

Lemma last_ts_snoc prev rows row :
  last_ts fromisoformat prev (rows ++ [row]) = parse row.
Proof. unfold last_ts. now rewrite rev_unit. Qed.

(** A pass over [pre ++ post] is the pass over [pre] followed, when that
    did not raise, by the pass over [post]. *)
Lemma publish_rows_app args : forall pre prev post tr,
  publish_rows fromisoformat args prev (pre ++ post) tr
  = match publish_rows fromisoformat args prev pre tr with
    | (Ok _, tr') =>
        publish_rows fromisoformat args (last_ts fromisoformat prev pre) post tr'
    | other => other
    end.
Proof.
  induction pre as [|row pre IH]; intros prev post tr.
  - reflexivity.
  - cbn [app publish_rows]. unfold mbind, st_bind.
    destruct (wait args prev (parse row) tr) as [[[]| |] tr1]; try reflexivity.
    unfold emit. rewrite IH.
    replace (last_ts fromisoformat prev (row :: pre))
      with (last_ts fromisoformat (parse row) pre); [reflexivity|].
    unfold last_ts. cbn [rev]. destruct (rev pre); reflexivity.
Qed.

(** The step for a row that follows the rows [pre]. *)
Lemma publish_rows_next args pre row post tr tr' :
  publish_rows fromisoformat args None pre tr = (Ok tt, tr') ->
  publish_rows fromisoformat args None (pre ++ row :: post) tr
  = (_ ← wait args (last_ts fromisoformat None pre) (parse row);
     _ ← emit (Publish (topic row) (payload_json row) (qos args) (retain args));
     publish_rows fromisoformat args (parse row) post) tr'.
Proof.
  intros E. rewrite publish_rows_app, E. reflexivity.
Qed.

(** The actions already taken stay: a pass only appends to the trace. *)
Lemma wait_extends args prev t tr :
  exists suffix, snd (wait args prev t tr) = tr ++ suffix.
Proof.
  unfold wait, emit, lift.
  destruct prev as [p|], t as [t'|]; try (exists []; cbn; now rewrite app_nil_r).
  destruct (negb _); [exists []; cbn; now rewrite app_nil_r|].
  destruct (Qltb _ _); [eexists; reflexivity|].
  exists []. cbn. now rewrite app_nil_r.
Qed.

Lemma publish_rows_extends args : forall rows prev tr,
  exists suffix,
    snd (publish_rows fromisoformat args prev rows tr) = tr ++ suffix.
Proof.
  induction rows as [|row rows IH]; intros prev tr; cbn [publish_rows].
  - exists []. cbn. now rewrite app_nil_r.
  - unfold mbind, st_bind.
    destruct (wait_extends args prev (parse row) tr) as [s1 E1].
    destruct (wait args prev (parse row) tr) as [[[]| |] tr1];
      cbn [snd] in E1; subst tr1; try (eexists; reflexivity).
    unfold emit.
    destruct (IH (parse row)
                ((tr ++ s1)
                 ++ [Publish (topic row) (payload_json row) (qos args)
                       (retain args)])) as [s2 E2].
    rewrite E2. rewrite <- !app_assoc. eexists. reflexivity.
Qed.

(** C9. A row whose timestamp does not parse is delivered at once: right
    after the actions of the rows before it comes its [Publish], with no
    [Sleep] in between, and the pass goes on with the rows after it instead
    of stopping.  The same holds for every row whose difference to the
    previous timestamp is computed and is not positive. *)
Theorem unparsed_timestamp_immediate args pre row post tr :
  publish_once fromisoformat args pre [] = (Ok tt, tr) ->
  let delivered :=
    tr ++ [Publish (topic row) (payload_json row) (qos args) (retain args)] in
  (parse row = None ->
     publish_once fromisoformat args (pre ++ row :: post) []
     = publish_rows fromisoformat args None post delivered
     /\ exists rest,
          snd (publish_once fromisoformat args (pre ++ row :: post) [])
          = delivered ++ rest)
  /\ (forall p t,
        last_ts fromisoformat None pre = Some p -> parse row = Some t ->
        aware t = aware p -> (instant t - instant p <= 0)%Q ->
        publish_once fromisoformat args (pre ++ row :: post) []
        = publish_rows fromisoformat args (Some t) post delivered
        /\ exists rest,
             snd (publish_once fromisoformat args (pre ++ row :: post) [])
             = delivered ++ rest).
Proof.
  intros E delivered. unfold publish_once in *. split.
  - intros Hts.
    assert (Eq : publish_rows fromisoformat args None (pre ++ row :: post) []
                 = publish_rows fromisoformat args None post delivered).
    { rewrite (publish_rows_next _ _ _ _ _ _ E), Hts.
      unfold wait. destruct (last_ts fromisoformat None pre); reflexivity. }
    split; [exact Eq|]. rewrite Eq. apply publish_rows_extends.
  - intros p t Hp Hts Haw Hdt.
    assert (Eq : publish_rows fromisoformat args None (pre ++ row :: post) []
                 = publish_rows fromisoformat args (Some t) post delivered).
    { rewrite (publish_rows_next _ _ _ _ _ _ E), Hts, Hp.
      unfold wait. rewrite Haw, eqb_reflx. cbn [negb].
      replace (Qltb 0 (instant t - instant p)) with false; [reflexivity|].
      symmetry. unfold Qltb. apply negb_false_iff. now apply Qle_bool_iff. }
    split; [exact Eq|]. rewrite Eq. apply publish_rows_extends.
Qed.

(** C10. After a row whose timestamp does not parse the next row is
    delivered at once as well, whatever timestamps it and the rows before
    carry: the failed parse leaves [prev = None], so no difference is
    computed for the next row. *)
Theorem unparsed_timestamp_clears_previous args pre row next post tr :
  publish_once fromisoformat args pre [] = (Ok tt, tr) ->
  parse row = None ->
  let delivered :=
    tr ++ [Publish (topic row) (payload_json row) (qos args) (retain args);
           Publish (topic next) (payload_json next) (qos args) (retain args)] in
  publish_once fromisoformat args (pre ++ row :: next :: post) []
  = publish_rows fromisoformat args (parse next) post delivered
  /\ exists rest,
       snd (publish_once fromisoformat args (pre ++ row :: next :: post) [])
       = delivered ++ rest.
Proof.
  intros E Hts delivered. unfold publish_once in *.
  assert (Eq : publish_rows fromisoformat args None
                 (pre ++ row :: next :: post) []
               = publish_rows fromisoformat args (parse next) post delivered).
  { rewrite (publish_rows_next _ _ _ _ _ _ E), Hts.
    cbn [publish_rows]. unfold mbind, st_bind, emit, wait.
    destruct (last_ts fromisoformat None pre); cbn; unfold delivered;
      rewrite <- app_assoc; reflexivity. }
  split; [exact Eq|]. rewrite Eq. apply publish_rows_extends.
Qed.

End ReplayerFacts.

(** [unparsed_timestamp_immediate] on the rows 0 s, unparsable, 10 s, and on
    the rows 10 s, 5 s. *)
Lemma unparsed_timestamp_immediate_witness :
  Replayer.publish_once Replayer.iso_seconds Replayer.args1
    [Replayer.row_at "0" "a"; Replayer.row_at "soon" "b";
     Replayer.row_at "10" "c"] []
  = (Ok tt, [Replayer.pub "a"; Replayer.pub "b"; Replayer.pub "c"])
  /\ Replayer.publish_once Replayer.iso_seconds Replayer.args1
       [Replayer.row_at "10" "c"; Replayer.row_at "5" "d"] []
     = (Ok tt, [Replayer.pub "c"; Replayer.pub "d"]).
Proof.
  split.
  - destruct (unparsed_timestamp_immediate Replayer.iso_seconds Replayer.args1
                [Replayer.row_at "0" "a"] (Replayer.row_at "soon" "b")
                [Replayer.row_at "10" "c"] [Replayer.pub "a"] eq_refl)
      as [H _].
    exact (proj1 (H eq_refl)).
  - destruct (unparsed_timestamp_immediate Replayer.iso_seconds Replayer.args1
                [Replayer.row_at "10" "c"] (Replayer.row_at "5" "d")
                [] [Replayer.pub "c"] eq_refl) as [_ H].
    refine (proj1 (H {| Replayer.instant := 10; Replayer.aware := true |}
                     {| Replayer.instant := 5; Replayer.aware := true |}
                     eq_refl eq_refl eq_refl _)).
    cbn. discriminate.
Defined.

(** [unparsed_timestamp_clears_previous] on the rows 0 s, unparsable, 10 s:
    the third row is not delayed, although it is 10 s after the first; with
    the second row left out it is. *)
Lemma unparsed_timestamp_clears_previous_witness :
  Replayer.publish_once Replayer.iso_seconds Replayer.args1
    [Replayer.row_at "0" "a"; Replayer.row_at "soon" "b";
     Replayer.row_at "10" "c"] []
  = (Ok tt, [Replayer.pub "a"; Replayer.pub "b"; Replayer.pub "c"])
  /\ Replayer.publish_once Replayer.iso_seconds Replayer.args1
       [Replayer.row_at "0" "a"; Replayer.row_at "10" "c"] []
     = (Ok tt, [Replayer.pub "a"; Replayer.Sleep (10 / 1)%Q; Replayer.pub "c"]).
Proof.
  split; [|reflexivity].
  exact (proj1 (unparsed_timestamp_clears_previous Replayer.iso_seconds
                  Replayer.args1 [Replayer.row_at "0" "a"]
                  (Replayer.row_at "soon" "b") (Replayer.row_at "10" "c") []
                  [Replayer.pub "a"] eq_refl eq_refl)).
Defined.

(** ** Topics *)

Lemma split_lacks sep s : lacks sep s = true -> Py.split sep s = [s].
Proof.
  induction s as [|c s IH]; cbn [lacks Py.split]; [reflexivity|].
  intros Hs. apply andb_prop in Hs as [Hc Hs].
  apply negb_true_iff in Hc. rewrite Hc, (IH Hs). reflexivity.
Qed.

Lemma split_append sep s rest :
  lacks sep s = true ->
  Py.split sep (s ++ String sep rest) = s :: Py.split sep rest.
Proof.
  induction s as [|c s IH]; cbn [lacks Py.split String.append].
  - intros _. now rewrite Ascii.eqb_refl.
  - intros Hs. apply andb_prop in Hs as [Hc Hs].
    apply negb_true_iff in Hc. rewrite Hc, (IH Hs). reflexivity.
Qed.

Lemma append_assoc (a b c : string) : ((a ++ b) ++ c = a ++ (b ++ c))%string.
Proof. induction a as [|x a IH]; cbn; [reflexivity|now rewrite IH]. Qed.

(** The topic decodes: when no identifier contains a slash, splitting the
    topic at the slashes gives back the namespace, the site, the line, the
    machine, the object and the metric, in this order. *)
Theorem topic_levels a object_ metric :
  lacks "/" (site a) = true -> lacks "/" (line a) = true ->
  lacks "/" (machine a) = true -> lacks "/" object_ = true ->
  lacks "/" metric = true ->
  Py.split "/" (topic_of a object_ metric)
  = ["symbiotic"%string; site a; line a; machine a; object_; metric].
Proof.
  intros Hs Hl Hm Ho Hme. unfold topic_of.
  change ("symbiotic/" ++ site a)%string
    with ("symbiotic" ++ String "/" (site a))%string.
  change ("/" ++ ?x)%string with (String "/" x).
  repeat rewrite append_assoc.
  cbn [String.append].
  change (String "s" (String "y" (String "m" (String "b" (String "i"
           (String "o" (String "t" (String "i" (String "c"
             (String "/" ?x))))))))))
    with ("symbiotic" ++ String "/" x)%string.
  rewrite split_append by reflexivity.
  rewrite split_append by exact Hs.
  rewrite split_append by exact Hl.
  rewrite split_append by exact Hm.
  rewrite split_append by exact Ho.
  rewrite split_lacks by exact Hme. reflexivity.
Qed.

(** [topic_levels] on the default machine. *)
Lemma topic_levels_witness :
  Py.split "/" (topic_of default_args "counter" "parts_total")
  = ["symbiotic"; "blr"; "line1"; "SF-01"; "counter"; "parts_total"]%string.
Proof.
  apply (topic_levels default_args "counter" "parts_total"); reflexivity.
Defined.

(** ** The rows of the file *)

(** What the timeline loop returns is a run of evenly spaced instants. *)
Lemma build_ts_ok_inv fuel : forall interval t1 t acc l,
  build_ts fuel interval t1 t acc = Ok l ->
  exists k, l = acc ++ instants t interval k
            /\ forall i, (i < k)%nat -> t + Z.of_nat i * interval <= t1.
Proof.
  induction fuel as [|fuel IH]; intros interval t1 t acc l E; cbn [build_ts] in E;
    destruct (Z.leb_spec t t1) as [Hle|Hgt]; try discriminate;
    try (injection E as <-; exists 0%nat; unfold instants; cbn;
         rewrite app_nil_r; split; [reflexivity|intros; lia]).
  unfold Py.add_seconds in E.
  destruct (negb _); [discriminate|].
  destruct (_ && _); [|discriminate].
  apply IH in E as (k & -> & Hk). exists (S k).
  rewrite instants_S, <- app_assoc. split; [reflexivity|].
  intros [|i] Hi; [lia|]. specialize (Hk i ltac:(lia)). lia.
Qed.

(** The timeline, when it is built: instants from a midnight on, with a
    positive step, inside the day's window. *)
Lemma timeline_closed_form fuel a ts :
  timeline fuel a = Ok ts ->
  exists d k,
    ts = instants (d * 86400) (interval_sec a) k
    /\ 0 <= d /\ 0 < interval_sec a /\ (0 < k)%nat
    /\ forall i, (i < k)%nat -> Z.of_nat i * interval_sec a <= 86390.
Proof.
  intros E. pose proof (timeline_interval_pos _ _ _ E) as Hi.
  pose proof (timeline_nonempty _ _ _ E) as Hn.
  apply timeline_inv in E as (y & m & d & t0 & _ & Ht0 & _ & E).
  destruct (datetime_new_inv _ _ _ _ _ _ _ Ht0) as (-> & Hord & _ & _).
  apply build_ts_ok_inv in E as (k & -> & Hk). cbn [app] in *.
  exists (Py.ymd2ord y m d - 1), k.
  rewrite instants_length in Hn.
  split; [f_equal; lia|]. repeat split; try lia.
  intros i Hlt. specialize (Hk i Hlt). lia.
Qed.

Lemma rows_of_elem a sim i t row :
  row ∈ rows_of a sim (i, t) ->
  ts_iso row = t
  /\ topic row = topic_of a (col_object row) (col_metric row)
  /\ col_site row = site a /\ col_line row = line a
  /\ col_machine row = machine a
  /\ p_ts (payload_json row) = ts_iso row
  /\ p_q (payload_json row) = "good"%string
  /\ (col_object row, col_metric row, p_unit (payload_json row)) ∈ schema
  /\ value_kind (p_value (payload_json row)) = metric_kind (col_metric row).
Proof.
  cbn [rows_of]. intros Hin.
  repeat (apply elem_of_cons in Hin as [-> | Hin];
          [cbn; repeat split; try reflexivity;
           apply list_elem_of_In; cbn; tauto|]).
  now apply elem_of_nil in Hin.
Qed.

Lemma csv_rows_elem a sim row :
  aligned sim ->
  row ∈ csv_rows a sim ->
  (exists t0, ts_list sim !! 0%nat = Some t0
     /\ row = mk_row a t0 "config" "ideal_ct_s" (VFloat (ideal_ct_s a))
                (Some "s"%string))
  \/ exists i t, ts_list sim !! i = Some t /\ row ∈ rows_of a sim (i, t).
Proof.
  intros (Hn & _) Hin. unfold csv_rows in Hin.
  apply elem_of_cons in Hin as [-> | Hin].
  - left. destruct (lookup_lt_is_Some_2 (ts_list sim) 0%nat Hn) as [t0 Ht0].
    exists t0. split; [exact Ht0|].
    now rewrite (nth_lookup_Some (ts_list sim) 0 _ t0 Ht0).
  - right. apply list_elem_of_In, in_flat_map in Hin as ([i t] & Hit & Hin).
    apply (proj2 (list_elem_of_In _ _)) in Hit. apply enumerate_elem in Hit.
    exists i, t. split; [exact Hit|]. now apply list_elem_of_In.
Qed.

(** Every row of the file is well formed: its topic is built from its own
    object and metric columns, its site, line and machine are those of the
    options, its payload carries the row's own timestamp and the quality
    "good", its timestamp is an instant of the timeline, and its object,
    metric and unit are one of the seven kinds of rows, with the JSON type
    that goes with the metric. *)
Theorem rows_well_formed {G : Type} `{PRNG G} fuel a (g : G) rows :
  main fuel a g = Completed rows ->
  exists sim g',
    simulate fuel a g = (Ok sim, g')
    /\ forall row, row ∈ rows ->
         ts_iso row ∈ ts_list sim
         /\ topic row = topic_of a (col_object row) (col_metric row)
         /\ col_site row = site a /\ col_line row = line a
         /\ col_machine row = machine a
         /\ p_ts (payload_json row) = ts_iso row
         /\ p_q (payload_json row) = "good"%string
         /\ (col_object row, col_metric row, p_unit (payload_json row)) ∈ schema
         /\ value_kind (p_value (payload_json row))
            = metric_kind (col_metric row).
Proof.
  intros E. apply main_completed in E as (sim & g' & E & ->).
  exists sim, g'. split; [exact E|]. intros row Hin.
  apply csv_rows_elem in Hin; [|eapply simulate_aligned; eauto].
  destruct Hin as [(t0 & Ht0 & ->) | (i & t & Hit & Hin)].
  - cbn. repeat split; try reflexivity.
    + apply list_elem_of_lookup. eauto.
    + apply list_elem_of_In. cbn. tauto.
  - apply rows_of_elem in Hin as (Hts & Hrest).
    split; [|exact Hrest]. rewrite Hts. apply list_elem_of_lookup. eauto.
Qed.

(** [rows_well_formed] on a day of the default machine sampled every six
    hours. *)
Lemma rows_well_formed_witness :
  exists rows sim g',
    main 2000 (with_interval default_args 21600) 0 = Completed rows
    /\ simulate 2000 (with_interval default_args 21600) 0 = (Ok sim, g')
    /\ forall row, row ∈ rows ->
         ts_iso row ∈ ts_list sim
         /\ topic row
            = topic_of (with_interval default_args 21600) (col_object row)
                (col_metric row).
Proof.
  eexists ?[rows].
  assert (E : main 2000 (with_interval default_args 21600) 0 = Completed ?rows)
    by (vm_compute; reflexivity).
  destruct (rows_well_formed 2000 _ 0 _ E) as (sim & g' & Es & Hrows).
  exists sim, g'. split; [exact E|]. split; [exact Es|].
  intros row Hin. destruct (Hrows row Hin) as (H1 & H2 & _). auto.
Defined.

Lemma csv_rows_ts a sim j row :
  aligned sim ->
  csv_rows a sim !! j = Some row ->
  ts_list sim !! ((j - 1) / 6)%nat = Some (ts_iso row).
Proof.
  intros Hal Hj. pose proof Hal as (Hn & _).
  destruct j as [|j].
  - unfold csv_rows in Hj. cbn [lookup list_lookup] in Hj. injection Hj as <-.
    cbn [mk_row ts_iso]. cbn.
    destruct (lookup_lt_is_Some_2 (ts_list sim) 0%nat Hn) as [t0 Ht0].
    now rewrite (nth_lookup_Some (ts_list sim) 0 _ t0 Ht0).
  - replace (S j - 1)%nat with j by lia.
    assert (Hlt : (j < 6 * length (ts_list sim))%nat).
    { apply lookup_lt_Some in Hj. unfold csv_rows in Hj. cbn [length] in Hj.
      rewrite (flat_map_length_const _ 6) in Hj by apply rows_of_length.
      unfold enumerate in Hj. rewrite length_zip_with, length_seq in Hj. lia. }
    assert (Hi : (j / 6 < length (ts_list sim))%nat)
      by (apply Nat.Div0.div_lt_upper_bound; lia).
    destruct (lookup_lt_is_Some_2 _ _ Hi) as [t Ht].
    pose proof (Nat.mod_upper_bound j 6 ltac:(lia)) as Hk.
    rewrite (Nat.div_mod_eq j 6) in Hj.
    unfold csv_rows in Hj. cbn [lookup list_lookup] in Hj.
    rewrite (flat_map_lookup (rows_of a sim) 6 (rows_of_length a sim)
               _ _ _ (j / 6, t)%nat Hk) in Hj
      by now apply enumerate_lookup.
    assert (Hin : row ∈ rows_of a sim (j / 6, t)%nat)
      by (apply list_elem_of_lookup; eauto).
    apply rows_of_elem in Hin as (-> & _). exact Ht.
Qed.

Lemma csv_rows_time_ordered {G : Type} `{PRNG G} fuel a (g g' : G) sim :
  simulate fuel a g = (Ok sim, g') ->
  monotone Z.le (map ts_iso (csv_rows a sim)).
Proof.
  intros E.
  pose proof (simulate_aligned _ _ _ _ _ E) as Hal.
  apply simulate_inv in E
    as (ts & sc0 & sc1 & sc2 & c & g2 & mc & Hts & _ & _ & _ & _ & _ & Hsim).
  apply timeline_closed_form in Hts as (d & k & Hts & _ & Hi & _ & _).
  intros i j x y Hij Hx Hy.
  rewrite list_lookup_fmap in Hx, Hy.
  destruct (csv_rows a sim !! i) as [ri|] eqn:Ei; [|discriminate].
  destruct (csv_rows a sim !! j) as [rj|] eqn:Ej; [|discriminate].
  injection Hx as <-. injection Hy as <-.
  apply (csv_rows_ts _ _ _ _ Hal) in Ei, Ej.
  assert (Hsts : ts_list sim = instants (d * 86400) (interval_sec a) k)
    by (subst sim; exact Hts).
  rewrite Hsts in Ei, Ej.
  assert (Hle : ((i - 1) / 6 <= (j - 1) / 6)%nat)
    by (apply Nat.Div0.div_le_mono; lia).
  set (qi := ((i - 1) / 6)%nat) in *. set (qj := ((j - 1) / 6)%nat) in *.
  assert (Hli : (qi < k)%nat)
    by (apply lookup_lt_Some in Ei; now rewrite instants_length in Ei).
  assert (Hlj : (qj < k)%nat)
    by (apply lookup_lt_Some in Ej; now rewrite instants_length in Ej).
  rewrite instants_lookup in Ei, Ej by assumption.
  injection Ei as <-. injection Ej as <-.
  apply Nat2Z.inj_le in Hle.
  pose proof (Z.mul_le_mono_nonneg_r _ _ (interval_sec a) ltac:(lia) Hle).
  lia.
Qed.

(** The file is in time order: from one row to any later row the timestamp
    never decreases, so a replay never meets a negative difference. *)
Theorem rows_time_ordered {G : Type} `{PRNG G} fuel a (g : G) rows :
  main fuel a g = Completed rows ->
  monotone Z.le (map ts_iso rows).
Proof.
  intros E. apply main_completed in E as (sim & g' & E & ->).
  exact (csv_rows_time_ordered _ _ _ _ _ E).
Qed.

(** [rows_time_ordered] on a day of the default machine sampled every six
    hours. *)
Lemma rows_time_ordered_witness :
  exists rows,
    main 2000 (with_interval default_args 21600) 0 = Completed rows
    /\ monotone Z.le (map ts_iso rows).
Proof.
  eexists ?[rows].
  assert (E : main 2000 (with_interval default_args 21600) 0 = Completed ?rows)
    by (vm_compute; reflexivity).
  split; [exact E|]. exact (rows_time_ordered 2000 _ 0 _ E).
Defined.

(** ** The states of the day *)

Lemma minute_of_day_offset d x :
  0 <= x < 86400 -> minute_of_day (d * 86400 + x) = x / 60.
Proof.
  intros Hx. unfold minute_of_day, Py.hour, Py.minute.
  replace ((d * 86400 + x) mod 86400) with x
    by (rewrite Z.add_comm, Z.mod_add by lia; symmetry; apply Z.mod_small; lia).
  replace ((d * 86400 + x) mod 3600) with (x mod 3600)
    by (replace (d * 86400) with (d * 24 * 3600) by lia;
        now rewrite Z.add_comm, Z.mod_add by lia).
  rewrite (Z.div_mod x 3600) at 3 by lia.
  replace (3600 * (x / 3600) + x mod 3600)
    with (x / 3600 * 60 * 60 + x mod 3600) by lia.
  rewrite Z.div_add_l by lia. reflexivity.
Qed.

Lemma layered_state_range mm u :
  layered_state mm u = 0 \/ layered_state mm u = 2
  \/ layered_state mm u = 3 \/ layered_state mm u = 4.
Proof.
  unfold layered_state.
  destruct (in_fault rare_faults mm); [auto|].
  destruct (in_planned planned_windows mm); [auto|].
  destruct (base_of_range mm u) as [-> | [-> | ->]]; auto.
Qed.

Lemma layered_state_night mm u :
  0 <= mm < 360 -> layered_state mm u = 0 \/ layered_state mm u = 3.
Proof.
  intros Hmm. unfold layered_state, in_fault, in_planned, rare_faults,
    planned_windows. cbn [existsb fst snd].
  repeat match goal with
  | |- context [(?a <=? mm) && (mm <? ?b)] =>
      replace ((a <=? mm) && (mm <? b)) with false
        by (symmetry; apply andb_false_iff; left; apply Z.leb_gt; lia)
  end.
  cbn [orb]. unfold base_of.
  replace ((0 <=? mm) && (mm <? 360)) with true
    by (symmetry; apply andb_true_intro; split; lia).
  destruct (Qltb u lit_0_9); auto.
Qed.

(** Every state code is STOPPED (0), RUN (2), IDLE (3) or FAULT (4), and the
    running flag of an instant is 1 exactly when its state is RUN, else 0. *)
Theorem state_codes_domain {G : Type} `{PRNG G} fuel a (g g' : G) sim :
  simulate fuel a g = (Ok sim, g') ->
  forall i s, state_code sim !! i = Some s ->
    (s = 0 \/ s = 2 \/ s = 3 \/ s = 4)
    /\ running sim !! i = Some (if s =? 2 then 1 else 0).
Proof.
  intros E i s Hs.
  pose proof (simulate_state_code _ _ _ _ _ E) as [Hlen Hst].
  assert (Hi : (i < length (ts_list sim))%nat)
    by (rewrite <- Hlen; now apply lookup_lt_Some in Hs).
  destruct (lookup_lt_is_Some_2 _ _ Hi) as [t Ht].
  rewrite (Hst i t Ht) in Hs. injection Hs as <-.
  split; [apply layered_state_range|].
  apply simulate_inv in E
    as (ts & sc0 & sc1 & sc2 & c & g2 & mc & _ & _ & _ & _ & _ & _ & ->).
  cbn [running state_code ts_list] in *.
  rewrite list_lookup_fmap, (Hst i t Ht). reflexivity.
Qed.

(** [state_codes_domain] on an hourly day of the default machine. *)
Lemma state_codes_domain_witness :
  exists sim g',
    simulate 400 (with_interval default_args 3600) 0 = (Ok sim, g')
    /\ state_code sim !! 8%nat = Some 2
    /\ running sim !! 8%nat = Some 1.
Proof.
  eexists ?[sim], ?[g'].
  assert (E : simulate 400 (with_interval default_args 3600) 0 = (Ok ?sim, ?g'))
    by (vm_compute; reflexivity).
  split; [exact E|]. split; [reflexivity|].
  exact (proj2 (state_codes_domain 400 _ 0 _ _ E 8%nat 2 eq_refl)).
Defined.

Lemma run_count_nonneg running k : 0 <= run_count running k.
Proof.
  induction k as [|k IH]; cbn [run_count]; [lia|].
  destruct (running !! k) as [r|]; [destruct (r =? 0)|]; lia.
Qed.

Lemma run_count_zero running k :
  (forall j, (j < k)%nat -> running !! j = Some 0) -> run_count running k = 0.
Proof.
  induction k as [|k IH]; intros Hz; cbn [run_count]; [reflexivity|].
  rewrite IH by (intros j Hj; apply Hz; lia).
  rewrite (Hz k) by lia. reflexivity.
Qed.

Section Idle.

Context {G : Type} `{PRNG G}.
Variables (fuel : nat) (interval : Z) (ideal reject : Q) (running : list Z).

(** While no instant has been running, no part has been counted. *)
Lemma counter_loop_idle n c g g' :
  counter_loop fuel interval ideal reject running (seq 0 n) counters0 g
  = (Ok c, g') ->
  forall j x, parts_total c !! j = Some x -> run_count running (S j) = 0 ->
    x = 0.
Proof.
  intros E.
  enough (parts_inv n c
          /\ (run_count running n = 0 -> pt c = 0)
          /\ forall j x, parts_total c !! j = Some x ->
               run_count running (S j) = 0 -> x = 0) by tauto.
  apply (counter_loop_invariant fuel interval ideal reject running
           (fun i c _ =>
              parts_inv i c
              /\ (run_count running i = 0 -> pt c = 0)
              /\ forall j x, parts_total c !! j = Some x ->
                   run_count running (S j) = 0 -> x = 0)
           n 0%nat counters0 g c g'); [| |exact E].
  - intros i c1 g1 c2 g2 _ (Hp & Hpt & Hent) E1.
    pose proof (parts_inv_step _ _ _ _ _ _ _ _ _ _ Hp E1) as Hp'.
    split; [exact Hp'|].
    destruct Hp as (Hlen & _).
    apply counter_step_spec in E1
      as (r & k & Hr & Hk & Hpt' & _ & _ & _ & _ & _ & Ht & _).
    pose proof (run_count_nonneg running i) as Hnn.
    assert (Hnew : run_count running (S i) = 0 -> pt c2 = 0).
    { rewrite run_count_S, Hr. destruct (Z.eqb_spec r 0) as [Hr0|Hr0]; [|lia].
      intros Hz. rewrite Hpt', (Hk Hr0). rewrite Hpt by lia. reflexivity. }
    split; [exact Hnew|].
    intros j x Hj Hz. rewrite Ht in Hj.
    apply lookup_app_Some in Hj as [Hj | [Hjl Hj]]; [eauto|].
    apply list_lookup_singleton_Some in Hj as [Hj <-].
    apply Hnew. replace i with j by lia. exact Hz.
  - split; [|split].
    + unfold parts_inv, counters0, monotone. cbn.
      repeat split; try lia; intros; discriminate.
    + reflexivity.
    + cbn. intros; discriminate.
Qed.

End Idle.

(** Before 06:00 the machine never runs: the state of every instant before
    minute 360 is STOPPED or IDLE, and up to there [parts_total],
    [parts_good] and [run_minutes_today] are still 0. *)
Theorem night_is_idle {G : Type} `{PRNG G} fuel a (g g' : G) sim i t :
  simulate fuel a g = (Ok sim, g') ->
  ts_list sim !! i = Some t ->
  minute_of_day t < 360 ->
  (state_code sim !! i = Some 0 \/ state_code sim !! i = Some 3)
  /\ parts_total (counters sim) !! i = Some 0
  /\ parts_good (counters sim) !! i = Some 0
  /\ exists m, run_minutes_today (counters sim) !! i = Some m /\ (m == 0)%Q.
Proof.
  intros E Hit Hmm.
  pose proof (simulate_state_code _ _ _ _ _ E) as [Hlen Hst].
  pose proof (simulate_aligned _ _ _ _ _ E) as (_ & _ & _ & Hl3 & Hl4 & Hl5 & _).
  apply simulate_inv in E
    as (ts & sc0 & sc1 & sc2 & c & g2 & mc & Hts & _ & _ & _ & Hc & _ & ->).
  cbn [state_code ts_list running counters] in *.
  apply timeline_closed_form in Hts as (d & k & -> & _ & Hi & _ & Hday).
  assert (Hik : (i < k)%nat)
    by (apply lookup_lt_Some in Hit; now rewrite instants_length in Hit).
  assert (Hnight : forall j, (j <= i)%nat ->
            0 <= minute_of_day (d * 86400 + Z.of_nat j * interval_sec a) < 360).
  { intros j Hj.
    pose proof (Hday j ltac:(lia)) as Hdj. pose proof (Hday i Hik) as Hdi.
    rewrite instants_lookup in Hit by exact Hik. injection Hit as <-.
    rewrite minute_of_day_offset in Hmm by lia.
    rewrite minute_of_day_offset by lia.
    assert (Z.of_nat j * interval_sec a <= Z.of_nat i * interval_sec a)
      by (apply Z.mul_le_mono_nonneg_r; lia).
    split; [apply Z.div_pos; lia|].
    eapply Z.le_lt_trans; [apply Z.div_le_mono; [lia|eassumption]|exact Hmm]. }
  assert (Hidle : forall j, (j <= i)%nat ->
            sc2 !! j = Some 0 \/ sc2 !! j = Some 3).
  { intros j Hj.
    rewrite (Hst j (d * 86400 + Z.of_nat j * interval_sec a))
      by (apply instants_lookup; lia).
    destruct (layered_state_night _ (nth_draw (seed 7) j) (Hnight j Hj))
      as [-> | ->]; auto. }
  set (run := map (fun s => if s =? 2 then 1 else 0) sc2) in *.
  assert (Hrc : run_count run (S i) = 0).
  { apply run_count_zero. intros j Hj. unfold run.
    rewrite list_lookup_fmap.
    destruct (Hidle j ltac:(lia)) as [-> | ->]; reflexivity. }
  rewrite instants_length in *.
  destruct (lookup_lt_is_Some_2 (parts_total c) i ltac:(lia)) as [x Hx].
  destruct (lookup_lt_is_Some_2 (parts_good c) i ltac:(lia)) as [y Hy].
  destruct (lookup_lt_is_Some_2 (run_minutes_today c) i ltac:(lia)) as [m Hm].
  pose proof (counter_loop_idle _ _ _ _ _ _ _ _ _ Hc i x Hx Hrc) as ->.
  pose proof (counter_loop_parts _ _ _ _ _ _ _ _ _ Hc)
    as (_ & _ & _ & _ & _ & Hpw & _).
  pose proof (Hpw i 0 y Hx Hy) as Hy0.
  apply counter_loop_run in Hc as (_ & _ & Hrm).
  split; [apply Hidle; lia|]. split; [exact Hx|]. split.
  - rewrite Hy. f_equal. lia.
  - exists m. split; [exact Hm|].
    rewrite (Hrm i m Hm), Hrc, Z.mul_0_r. reflexivity.
Qed.

(** [night_is_idle] at 05:00 of an hourly day of the default machine. *)
Lemma night_is_idle_witness :
  exists sim g',
    simulate 400 (with_interval default_args 3600) 0 = (Ok sim, g')
    /\ (state_code sim !! 5%nat = Some 0 \/ state_code sim !! 5%nat = Some 3)
    /\ parts_total (counters sim) !! 5%nat = Some 0.
Proof.
  eexists ?[sim], ?[g'].
  assert (E : simulate 400 (with_interval default_args 3600) 0 = (Ok ?sim, ?g'))
    by (vm_compute; reflexivity).
  destruct (night_is_idle 400 _ 0 _ _ 5%nat (63893664000 + 5 * 3600) E)
    as (Hs & Hp & _); [reflexivity|reflexivity|].
  split; [exact E|]. split; [exact Hs|exact Hp].
Defined.

(** ** A cycle time that is not positive *)

Section NoCycleTime.

Context {G : Type} `{PRNG G}.
Variables (fuel : nat) (interval : Z) (ideal reject : Q) (running : list Z).

(** With a cycle time that is not positive the counter loop only returns
    when no instant is running. *)
Lemma counter_loop_never_runs n c g g' :
  0 <= interval -> (ideal <= 0)%Q ->
  counter_loop fuel interval ideal reject running (seq 0 n) counters0 g
  = (Ok c, g') ->
  forall j r, (j < n)%nat -> running !! j = Some r -> r = 0.
Proof.
  intros Hi Hid E.
  enough ((0 <= accum_cycle c)%Q
          /\ forall j r, (j < n)%nat -> running !! j = Some r -> r = 0) by tauto.
  apply (counter_loop_invariant fuel interval ideal reject running
           (fun i c _ =>
              (0 <= accum_cycle c)%Q
              /\ forall j r, (j < i)%nat -> running !! j = Some r -> r = 0)
           n 0%nat counters0 g c g'); [| |exact E].
  - intros i c1 g1 c2 g2 _ [Hacc Hrun] E1.
    assert (Hr0 : forall r, running !! i = Some r -> r = 0).
    { intros r Hr. destruct (Z.eq_dec r 0) as [|Hne]; [assumption|exfalso].
      unfold counter_step in E1. st_inv E1.
      apply lift_ok in H0 as [Hg ->]. apply getitem_ok in Hg.
      rewrite Hr in Hg. injection Hg as <-.
      destruct (Z.eqb_spec r 0) as [|_]; [contradiction|]. cbn [negb] in H1.
      match type of H1 with cycle_loop _ _ _ ?c0 ?s = _ =>
        pose proof (cycle_loop_diverges fuel ideal reject c0 s Hid) as Hd
      end.
      rewrite H1 in Hd. cbn [fst accum_cycle] in Hd.
      assert (0 <= inject_Z interval)%Q
        by (change 0%Q with (inject_Z 0); now rewrite <- Zle_Qle).
      assert (Hge : (ideal <= accum_cycle c1 + inject_Z interval)%Q) by lra.
      specialize (Hd Hge). discriminate Hd. }
    apply counter_step_spec in E1
      as (r & k & Hr & _ & _ & _ & _ & _ & _ & Hpos & _).
    split; [now apply Hpos|].
    intros j r' Hj Hr'. destruct (Nat.eq_dec j i) as [->|Hne].
    + now apply Hr0.
    + apply (Hrun j r'); [lia|exact Hr'].
  - split; [cbn; lra|]. intros; lia.
Qed.

End NoCycleTime.

(** With an ideal cycle time of 0 or less the generator completes only when
    no instant of the day is RUN: once the machine runs, the part loop never
    ends. *)
Theorem no_cycle_time_no_run {G : Type} `{PRNG G} fuel a (g g' : G) sim :
  simulate fuel a g = (Ok sim, g') ->
  (ideal_ct_s a <= 0)%Q ->
  forall i s, state_code sim !! i = Some s -> s <> 2.
Proof.
  intros E Hid i s Hs.
  pose proof (simulate_state_code _ _ _ _ _ E) as [Hlen _].
  apply simulate_inv in E
    as (ts & sc0 & sc1 & sc2 & c & g2 & mc & Hts & _ & _ & _ & Hc & _ & ->).
  cbn [state_code ts_list] in *. apply timeline_interval_pos in Hts.
  intros ->.
  assert (Hi : (i < length ts)%nat)
    by (rewrite <- Hlen; now apply lookup_lt_Some in Hs).
  assert (Hi0 : 0 <= interval_sec a) by lia.
  pose proof (counter_loop_never_runs _ _ _ _ _ _ _ _ _ Hi0 Hid Hc i 1 Hi) as Hr.
  rewrite list_lookup_fmap, Hs in Hr. specialize (Hr eq_refl). discriminate.
Qed.

(** [no_cycle_time_no_run] at midnight sampled once a day, a STOPPED or IDLE
    instant, with a cycle time of 0. *)
Lemma no_cycle_time_no_run_witness :
  exists sim g',
    simulate 2
      {| site := "blr"; line := "line1"; machine := "SF-01";
         date := "2025-09-17"; interval_sec := 86400; ideal_ct_s := 0;
         reject_rate := 0 |} 0 = (Ok sim, g')
    /\ forall s, state_code sim !! 0%nat = Some s -> s <> 2.
Proof.
  eexists ?[sim], ?[g'].
  match goal with |- simulate 2 ?a 0 = _ /\ _ =>
    assert (E : simulate 2 a 0 = (Ok ?sim, ?g')) by (vm_compute; reflexivity)
  end.
  split; [exact E|].
  apply (no_cycle_time_no_run 2 _ 0 _ _ E); reflexivity || discriminate.
Defined.

(** ** Reject rates at and beyond the ends of the unit interval *)

Section RejectExtremes.

Context {G : Type} `{PRNG G}.

Lemma good_count_all reject k : forall g,
  (forall g', Qle_bool reject (fst (random g')) = true) ->
  good_count reject g k = Z.of_nat k.
Proof.
  induction k as [|k IH]; intros g Hall; cbn [good_count]; [reflexivity|].
  rewrite Hall, IH by exact Hall. lia.
Qed.

Lemma good_count_none reject k : forall g,
  (forall g', Qle_bool reject (fst (random g')) = false) ->
  good_count reject g k = 0.
Proof.
  induction k as [|k IH]; intros g Hall; cbn [good_count]; [reflexivity|].
  rewrite Hall, IH by exact Hall. lia.
Qed.

End RejectExtremes.

(** When the generator draws from [[0, 1)], a reject rate of 0 or less
    rejects nothing, [parts_good] equals [parts_total] throughout, and a
    reject rate of 1 or more rejects everything, [parts_good] stays 0: rates
    outside [[0, 1]] act as the nearest end. *)
Theorem reject_rate_saturates {G : Type} `{PRNG G} fuel a (g g' : G) sim :
  (forall s : G, (0 <= fst (random s) < 1)%Q) ->
  simulate fuel a g = (Ok sim, g') ->
  ((reject_rate a <= 0)%Q ->
     parts_good (counters sim) = parts_total (counters sim))
  /\ ((1 <= reject_rate a)%Q ->
      forall i q, parts_good (counters sim) !! i = Some q -> q = 0).
Proof.
  intros Hrange E.
  apply simulate_inv in E
    as (ts & sc0 & sc1 & sc2 & c & g2 & mc & _ & _ & _ & _ & Hc & _ & ->).
  cbn [counters].
  pose proof (counter_loop_parts _ _ _ _ _ _ _ _ _ Hc) as (Hl1 & Hl2 & _).
  apply counter_loop_draws in Hc as (_ & k & _ & _ & _ & Hent).
  split.
  - intros Hr. apply list_eq. intros i.
    destruct (parts_total c !! i) as [p|] eqn:Hp.
    + destruct (lookup_lt_is_Some_2 (parts_good c) i) as [q Hq];
        [apply lookup_lt_Some in Hp; lia|].
      destruct (Hent i p q Hp Hq) as [Hp0 ->]. rewrite Hq. f_equal.
      rewrite good_count_all; [lia|].
      intros s. apply Qle_bool_iff. destruct (Hrange s). lra.
    + apply lookup_ge_None in Hp. apply lookup_ge_None. lia.
  - intros Hr i q Hq.
    destruct (lookup_lt_is_Some_2 (parts_total c) i) as [p Hp];
      [apply lookup_lt_Some in Hq; lia|].
    destruct (Hent i p q Hp Hq) as [_ ->].
    apply good_count_none. intros s. apply not_true_is_false.
    rewrite Qle_bool_iff. destruct (Hrange s). lra.
Qed.

Lemma lcg_range (s : Z) : (0 <= fst (random s) < 1)%Q.
Proof.
  cbn [random lcg fst]. unfold lcg_next, Qle, Qlt. cbn [Qnum Qden].
  pose proof (Z.mod_pos_bound (1103515245 * s + 12345) (2 ^ 31) eq_refl).
  change (2 ^ 31) with 2147483648 in *. lia.
Qed.

(** [reject_rate_saturates] on an hourly day with the reject rates -1 and
    1.5. *)
Lemma reject_rate_saturates_witness :
  (exists sim g',
     simulate 400 (with_reject_rate (with_interval default_args 3600) (-1)) 0
     = (Ok sim, g')
     /\ parts_good (counters sim) = parts_total (counters sim))
  /\ (exists sim g',
        simulate 400 (with_reject_rate (with_interval default_args 3600) (3 # 2)) 0
        = (Ok sim, g')
        /\ parts_total (counters sim) !! 23%nat = Some 3600
        /\ forall q, parts_good (counters sim) !! 23%nat = Some q -> q = 0).
Proof.
  split.
  - eexists ?[sim], ?[g'].
    match goal with |- simulate 400 ?a 0 = _ /\ _ =>
      assert (E : simulate 400 a 0 = (Ok ?sim, ?g')) by (vm_compute; reflexivity)
    end.
    split; [exact E|].
    apply (proj1 (reject_rate_saturates 400 _ 0 _ _ lcg_range E)).
    discriminate.
  - eexists ?[sim], ?[g'].
    match goal with |- simulate 400 ?a 0 = _ /\ _ =>
      assert (E : simulate 400 a 0 = (Ok ?sim, ?g')) by (vm_compute; reflexivity)
    end.
    split; [exact E|]. split; [reflexivity|].
    apply (proj2 (reject_rate_saturates 400 _ 0 _ _ lcg_range E)).
    discriminate.
Defined.

(** ** Instants that are not representable *)

Lemma days_before_month_upper y m d :
  1 <= m <= 12 -> 1 <= d <= Py.days_in_month y m ->
  Py.days_before_month y m + d <= (if Py.is_leap y then 366 else 365).
Proof.
  intros Hm Hd.
  assert (Hcases : m = 1 \/ m = 2 \/ m = 3 \/ m = 4 \/ m = 5 \/ m = 6 \/ m = 7
                   \/ m = 8 \/ m = 9 \/ m = 10 \/ m = 11 \/ m = 12) by lia.
  unfold Py.days_before_month.
  repeat (destruct Hcases as [-> | Hcases]); try subst m;
    match goal with |- context [Z.to_nat ?e] =>
      let n := eval vm_compute in (Z.to_nat e) in change (Z.to_nat e) with n
    end;
    cbn [Py.days_before_month_aux]; unfold Py.days_in_month in *;
    remember (Py.is_leap y) as lp;
    repeat match goal with |- context [Z.of_nat ?n] =>
      let z := eval vm_compute in (Z.of_nat n) in change (Z.of_nat n) with z
    end;
    cbn in *; destruct lp; lia.
Qed.

Lemma ymd2ord_upper y m d :
  1 <= y <= 9999 -> 1 <= m <= 12 -> 1 <= d <= Py.days_in_month y m ->
  Py.ymd2ord y m d <= 3652059.
Proof.
  intros Hy Hm Hd. unfold Py.ymd2ord.
  pose proof (days_before_month_upper y m d Hm Hd) as Hdm.
  assert (Hcase : y = 9999 \/ y <= 9998) by lia.
  destruct Hcase as [-> | Hy'].
  - change (if Py.is_leap 9999 then 366 else 365) with 365 in Hdm.
    change (Py.days_before_year 9999) with 3651694. lia.
  - assert (Py.days_before_year y <= 3651330).
    { unfold Py.days_before_year. cbv zeta.
      pose proof (Z.div_mod (y - 1) 4 ltac:(lia)).
      pose proof (Z.mod_pos_bound (y - 1) 4 ltac:(lia)).
      pose proof (Z.div_mod (y - 1) 100 ltac:(lia)).
      pose proof (Z.mod_pos_bound (y - 1) 100 ltac:(lia)).
      pose proof (Z.div_mod (y - 1) 400 ltac:(lia)).
      pose proof (Z.mod_pos_bound (y - 1) 400 ltac:(lia)).
      lia. }
    destruct (Py.is_leap y); lia.
Qed.

(** A date the constructor accepts ends, at 23:59:50, inside the
    representable range. *)
Lemma datetime_new_upper y m d t0 :
  Py.datetime_new y m d 0 0 0 = Ok t0 -> 0 <= t0 /\ t0 + 86390 <= Py.datetime_max.
Proof.
  intros E. pose proof (datetime_new_inv _ _ _ _ _ _ _ E) as (-> & Hord & _).
  unfold Py.datetime_new in E.
  destruct (negb _); [discriminate|].
  destruct ((1 <=? y) && (y <=? 9999) && (1 <=? m) && (m <=? 12)
            && (1 <=? d) && (d <=? Py.days_in_month y m)) eqn:Ev;
    cbn [andb] in E; [|discriminate].
  repeat (apply andb_prop in Ev; destruct Ev as [Ev ?]).
  pose proof (ymd2ord_upper y m d ltac:(lia) ltac:(lia) ltac:(lia)).
  unfold Py.datetime_max. lia.
Qed.

(** The loop raises when an instant inside the window has a successor that
    is not representable. *)
Lemma build_ts_overflow k : forall fuel interval t1 t acc,
  0 < interval -> 0 <= t ->
  t + Z.of_nat k * interval <= t1 -> t1 <= Py.datetime_max ->
  Py.datetime_max < t + (Z.of_nat k + 1) * interval ->
  (k < fuel)%nat ->
  build_ts fuel interval t1 t acc = Raise OverflowError.
Proof.
  induction k as [|k IH]; intros fuel interval t1 t acc Hi Ht Hin Hmax Hov Hfuel;
    (destruct fuel as [|fuel]; [lia|]); cbn [build_ts];
    (replace (t <=? t1) with true by (symmetry; apply Z.leb_le; nia)).
  - unfold Py.add_seconds. destruct (negb _); [reflexivity|].
    replace ((0 <=? t + interval) && (t + interval <=? Py.datetime_max))
      with false; [reflexivity|].
    symmetry. apply andb_false_iff. right. apply Z.leb_gt. lia.
  - rewrite add_seconds_ok by nia. cbv beta iota.
    apply IH; try lia; nia.
Qed.

(** On a day whose last sample instant has no representable successor the
    loop of lines 66-68 raises [OverflowError] when it computes that
    successor, although every instant of the day itself is representable:
    [main] stops before the output file is opened.  For the last day of the
    calendar, 9999-12-31, this is so for every interval that is a multiple
    of 10. *)
Theorem timeline_overflow {G : Type} `{PRNG G} fuel a (g : G) y m d t0 :
  parse_date (date a) = Ok (y, m, d) ->
  Py.datetime_new y m d 0 0 0 = Ok t0 ->
  0 < interval_sec a ->
  Py.datetime_max < t0 + (86390 / interval_sec a + 1) * interval_sec a ->
  (Z.to_nat (86390 / interval_sec a) < fuel)%nat ->
  timeline fuel a = Raise OverflowError
  /\ main fuel a g = Failed OverflowError None.
Proof.
  intros Hp Ht0 Hi Hov Hfuel.
  assert (E : timeline fuel a = Raise OverflowError).
  { unfold timeline. rewrite Hp. cbn [mbind result_bind].
    destruct (datetime_new_upper _ _ _ _ Ht0) as [Hlo Hhi].
    destruct (datetime_new_inv _ _ _ _ _ _ _ Ht0) as (E0 & _ & _ & E1).
    rewrite Ht0, E1. cbn [mbind result_bind].
    assert (Hq : 0 <= 86390 / interval_sec a) by (apply Z.div_pos; lia).
    pose proof (Z.mul_div_le 86390 (interval_sec a) Hi).
    apply (build_ts_overflow (Z.to_nat (86390 / interval_sec a))); lia. }
  split; [exact E|]. now apply main_timeline_raise.
Qed.

(** [timeline_overflow] on 9999-12-31 with a sample every twelve hours. *)
Lemma timeline_overflow_witness :
  timeline 2 (with_interval (with_date default_args "9999-12-31") 43200)
  = Raise OverflowError
  /\ main 2 (with_interval (with_date default_args "9999-12-31") 43200) 0
     = Failed OverflowError None.
Proof.
  apply (timeline_overflow 2
           (with_interval (with_date default_args "9999-12-31") 43200) 0
           9999 12 31 (3652058 * 86400));
    [reflexivity | reflexivity | reflexivity | reflexivity | ].
  vm_compute. lia.
Defined.

(** ** What the reject rate can change *)

Section RejectConfined.

Context {G : Type} `{PRNG G}.
Variables (fuel : nat) (interval : Z) (ideal reject reject' : Q).
Variable running : list Z.

(** The inner loop draws once per part whatever the reject rate is: two runs
    from the same generator state end in the same generator state. *)
Lemma cycle_loop_confined : forall n c c' g c1 g1,
  agree_but_good c c' ->
  cycle_loop n ideal reject c g = (Ok c1, g1) ->
  exists c1', cycle_loop n ideal reject' c' g = (Ok c1', g1)
              /\ agree_but_good c1 c1'.
Proof.
  induction n as [|n IH]; intros c c' g c1 g1 Hag E; cbn [cycle_loop] in *;
    pose proof Hag as (Hpt & Hrs & Hac & Hpts & Hrm); rewrite <- Hac;
    destruct (Qle_bool ideal (accum_cycle c)).
  - discriminate E.
  - apply st_ret_ok in E as [<- <-]. exists c'. split; [reflexivity|exact Hag].
  - unfold mbind, st_bind, rand in *. destruct (random g) as [u g2].
    eapply IH; [|exact E].
    unfold agree_but_good. cbn. repeat split; congruence.
  - apply st_ret_ok in E as [<- <-]. exists c'. split; [reflexivity|exact Hag].
Qed.

Lemma counter_step_confined i c c' g c1 g1 :
  agree_but_good c c' ->
  counter_step fuel interval ideal reject running i c g = (Ok c1, g1) ->
  exists c1', counter_step fuel interval ideal reject' running i c' g = (Ok c1', g1)
              /\ agree_but_good c1 c1'.
Proof.
  intros Hag E. pose proof Hag as (Hpt & Hrs & Hac & Hpts & Hrm).
  unfold counter_step in *. unfold mbind at 1, st_bind at 1 in E.
  unfold mbind at 1, st_bind at 1.
  destruct (lift (getitem running i) g) as [[r| |] g0] eqn:Er; try discriminate E.
  unfold mbind, st_bind in E |- *.
  destruct (negb (r =? 0)).
  - match type of E with
    | context [cycle_loop fuel ideal reject ?c0 g0] =>
        destruct (cycle_loop fuel ideal reject c0 g0) as [[c2| |] g2] eqn:Ec;
        try discriminate E
    end.
    eapply cycle_loop_confined in Ec as (c2' & Ec' & Hag2).
    + rewrite Ec'. apply st_ret_ok in E as [<- <-].
      eexists. split; [reflexivity|].
      destruct Hag2 as (? & ? & ? & ? & ?).
      unfold agree_but_good. cbn. repeat split; congruence.
    + unfold agree_but_good. cbn. repeat split; congruence.
  - apply st_ret_ok in E as [<- <-]. eexists. split; [reflexivity|].
    unfold agree_but_good. cbn. repeat split; congruence.
Qed.

Lemma counter_loop_confined : forall range c c' g c1 g1,
  agree_but_good c c' ->
  counter_loop fuel interval ideal reject running range c g = (Ok c1, g1) ->
  exists c1', counter_loop fuel interval ideal reject' running range c' g
              = (Ok c1', g1)
              /\ agree_but_good c1 c1'.
Proof.
  induction range as [|i range IH]; intros c c' g c1 g1 Hag E;
    cbn [counter_loop] in *.
  - apply st_ret_ok in E as [<- <-]. exists c'. split; [reflexivity|exact Hag].
  - apply st_bind_ok in E as (c2 & g2 & Es & E).
    destruct (counter_step_confined _ _ _ _ _ _ Hag Es) as (c2' & Es' & Hag2).
    destruct (IH _ _ _ _ _ Hag2 E) as (c1' & E' & Hag1).
    exists c1'. split; [|exact Hag1].
    apply st_bind_ok. eauto.
Qed.

End RejectConfined.

(** The reject rate decides which parts count as good and nothing else: a
    run with another reject rate returns as well, with the same instants,
    states, running flags, total parts, running minutes and motor currents,
    and leaves the generator in the same state, because the loop draws one
    number per completed part whether the part is rejected or not. *)
Theorem reject_rate_confined {G : Type} `{PRNG G} fuel a r (g g' : G) sim :
  simulate fuel a g = (Ok sim, g') ->
  exists sim',
    simulate fuel (with_reject_rate a r) g = (Ok sim', g')
    /\ ts_list sim' = ts_list sim
    /\ state_code sim' = state_code sim
    /\ running sim' = running sim
    /\ parts_total (counters sim') = parts_total (counters sim)
    /\ run_minutes_today (counters sim') = run_minutes_today (counters sim)
    /\ motor_current sim' = motor_current sim.
Proof.
  intros E. unfold simulate in *.
  change (timeline fuel (with_reject_rate a r)) with (timeline fuel a).
  cbn [interval_sec ideal_ct_s reject_rate with_reject_rate].
  unfold mbind, st_bind in E |- *.
  destruct (lift (timeline fuel a) g) as [[ts| |] g1]; try discriminate E.
  destruct (set_seed 7 g1) as [[[]| |] g2]; try discriminate E.
  destruct (base_profile ts [] g2) as [[sc0| |] g3]; try discriminate E.
  destruct (lift (planned_loop planned_windows (enumerate ts) sc0) g3)
    as [[sc1| |] g4]; try discriminate E.
  destruct (lift (faults_loop rare_faults (enumerate ts) sc1) g4)
    as [[sc2| |] g5]; try discriminate E.
  destruct (counter_loop fuel (interval_sec a) (ideal_ct_s a) (reject_rate a)
              (map (fun s => if s =? 2 then 1 else 0) sc2)
              (seq 0 (length ts)) counters0 g5) as [[c| |] g6] eqn:Ec;
    try discriminate E.
  assert (Hag0 : agree_but_good counters0 counters0)
    by (unfold agree_but_good; repeat split).
  destruct (counter_loop_confined fuel (interval_sec a) (ideal_ct_s a)
              (reject_rate a) r _ _ _ _ _ _ _ Hag0 Ec) as (c' & Ec' & Hag).
  rewrite Ec'.
  destruct (motor_loop sc2 (seq 0 (length ts)) [] g6) as [[mc| |] g7];
    try discriminate E.
  apply st_ret_ok in E as [<- <-].
  destruct Hag as (_ & _ & _ & Hpts & Hrm).
  eexists. split; [reflexivity|]. cbn. repeat split; congruence.
Qed.

(** [reject_rate_confined] on an hourly day: with every part rejected the
    run has the parts and the running minutes of the default one. *)
Lemma reject_rate_confined_witness :
  exists sim g' sim',
    simulate 400 (with_interval default_args 3600) 0 = (Ok sim, g')
    /\ simulate 400 (with_reject_rate (with_interval default_args 3600) 1) 0
       = (Ok sim', g')
    /\ parts_total (counters sim') = parts_total (counters sim)
    /\ run_minutes_today (counters sim') = run_minutes_today (counters sim).
Proof.
  eexists ?[sim], ?[g'].
  assert (E : simulate 400 (with_interval default_args 3600) 0 = (Ok ?sim, ?g'))
    by (vm_compute; reflexivity).
  destruct (reject_rate_confined 400 _ 1 0 _ _ E)
    as (sim' & E' & _ & _ & _ & Hpts & Hrm & _).
  exists sim'. split; [exact E|]. split; [exact E'|]. split; assumption.
Defined.

(** ** The fields of a date *)

Lemma split_nonempty sep s : Py.split sep s <> [].
Proof.
  destruct s as [|c s]; cbn [Py.split]; [discriminate|].
  destruct (Ascii.eqb c sep); [discriminate|].
  destruct (Py.split sep s); discriminate.
Qed.

(** [split] cuts at every separator: one piece more than separators, and no
    separator inside a piece. *)
Lemma split_length sep s :
  length (Py.split sep s) = S (occurrences sep s).
Proof.
  induction s as [|c s IH]; cbn [Py.split occurrences]; [reflexivity|].
  destruct (Ascii.eqb c sep); cbn [length]; [now rewrite IH|].
  destruct (Py.split sep s) eqn:E; [now apply split_nonempty in E|].
  cbn [length] in *. lia.
Qed.

Lemma split_pieces_lack sep s :
  Forall (fun p => lacks sep p = true) (Py.split sep s).
Proof.
  induction s as [|c s IH]; cbn [Py.split].
  - constructor; [reflexivity|constructor].
  - destruct (Ascii.eqb c sep) eqn:Ec.
    + constructor; [reflexivity|exact IH].
    + destruct (Py.split sep s) as [|p ps]; [repeat constructor; cbn; now rewrite Ec|].
      inversion IH as [|? ? Hp Hps]; subst.
      constructor; [|exact Hps]. cbn [lacks]. now rewrite Ec, Hp.
Qed.

Lemma lacks_not_in c s : lacks c s = true -> ~ In c (list_ascii_of_string s).
Proof.
  induction s as [|c' s IH]; cbn [lacks list_ascii_of_string]; [intros _ []|].
  intros Hs [Hc | Hin]; apply andb_prop in Hs as [Hne Hs].
  - subst c'. now rewrite Ascii.eqb_refl in Hne.
  - now apply IH.
Qed.

Lemma lstrip_incl cs c : In c (Py.lstrip cs) -> In c cs.
Proof.
  induction cs as [|c' cs IH]; cbn [Py.lstrip]; [auto|].
  destruct (Py.is_space c'); [intros Hin; right; now apply IH|auto].
Qed.

Lemma strip_incl cs c : In c (Py.strip cs) -> In c cs.
Proof.
  unfold Py.strip. intros Hin.
  apply in_rev, lstrip_incl, in_rev, lstrip_incl in Hin. exact Hin.
Qed.

Lemma digits_nonneg cs : forall acc b z,
  0 <= acc -> Py.digits acc b cs = Some z -> 0 <= z.
Proof.
  induction cs as [|c cs IH]; intros acc b z Hacc E; cbn [Py.digits] in E.
  - destruct b; [injection E as <-; exact Hacc|discriminate].
  - destruct (Py.is_digit c) eqn:Ed.
    + apply IH in E; [exact E|].
      unfold Py.is_digit in Ed. apply andb_prop in Ed as [Hlo _].
      apply Nat.leb_le in Hlo. unfold Py.digit_val. lia.
    + destruct (Ascii.eqb c "_"); [|discriminate].
      destruct b; [|discriminate]. now apply IH in E.
Qed.

(** Text without a minus sign converts to a number that is not negative. *)
Lemma int_nonneg s z : lacks "-" s = true -> Py.int s = Some z -> 0 <= z.
Proof.
  intros Hs E. apply lacks_not_in in Hs. unfold Py.int in E.
  destruct (_ <? _)%nat; [discriminate|].
  destruct (Py.strip (list_ascii_of_string s)) as [|c r] eqn:Eb; [discriminate|].
  destruct (Ascii.eqb c "-") eqn:Ec.
  - apply Ascii.eqb_eq in Ec. subst c. exfalso. apply Hs, strip_incl.
    rewrite Eb. now left.
  - destruct (Ascii.eqb c "+"); eapply digits_nonneg; eauto; lia.
Qed.

(** A date that [parse_date] accepts has exactly two hyphens, and its three
    fields are not negative: a hyphen is always a separator, never a sign, so
    a date written with a negative field has a fourth piece and fails in the
    unpacking of line 47 with [ValueError] before [datetime] is called. *)
Theorem parsed_date_fields s y m d :
  parse_date s = Ok (y, m, d) ->
  occurrences "-" s = 2%nat /\ 0 <= y /\ 0 <= m /\ 0 <= d.
Proof.
  unfold parse_date. intros E.
  pose proof (split_length "-" s) as Hlen.
  pose proof (split_pieces_lack "-" s) as Hall.
  destruct (Py.split "-" s) as [|p1 [|p2 [|p3 [|p4 ps]]]]; cbn [map] in E;
    repeat match type of E with
    | match ?o with _ => _ end = _ =>
        let Eo := fresh "Eo" in destruct o eqn:Eo; try discriminate E
    end.
  all: try (exfalso; cbn in E; congruence).
  injection E as <- <- <-.
  inversion Hall as [|? ? H1 Hall1]; subst.
  inversion Hall1 as [|? ? H2 Hall2]; subst.
  inversion Hall2 as [|? ? H3 _]; subst.
  cbn [length] in Hlen.
  split; [lia|].
  split; [exact (int_nonneg _ _ H1 Eo)|].
  split; [exact (int_nonneg _ _ H2 Eo0)|exact (int_nonneg _ _ H3 Eo1)].
Qed.

(** [parsed_date_fields] on the default date. *)
Lemma parsed_date_fields_witness :
  parse_date "2025-09-17" = Ok (2025, 9, 17)
  /\ occurrences "-" "2025-09-17" = 2%nat /\ 0 <= 2025 /\ 0 <= 9 /\ 0 <= 17.
Proof.
  split; [reflexivity|].
  apply (parsed_date_fields "2025-09-17" 2025 9 17). reflexivity.
Defined.

(** ** Passes of the replayer *)

Section ReplayerPasses.

Import Replayer.

Variable fromisoformat : string -> option stamp.

Abbreviation parse row := (fromisoformat (ts_iso row)) (only parsing).

(** What [wait] does depends on the trace so far in no way. *)
Lemma wait_frame args prev t tr :
  wait args prev t tr
  = (fst (wait args prev t []), tr ++ snd (wait args prev t [])).
Proof.
  unfold wait, emit, lift, mret, st_ret.
  destruct prev as [p|], t as [t'|]; cbn; rewrite ?app_nil_r; try reflexivity.
  destruct (negb _); cbn; rewrite ?app_nil_r; try reflexivity.
  destruct (Qltb _ _); cbn; rewrite ?app_nil_r; reflexivity.
Qed.

Lemma publish_rows_frame args : forall rows prev tr,
  publish_rows fromisoformat args prev rows tr
  = (fst (publish_rows fromisoformat args prev rows []),
     tr ++ snd (publish_rows fromisoformat args prev rows [])).
Proof.
  induction rows as [|row rows IH]; intros prev tr; cbn [publish_rows].
  - cbn. now rewrite app_nil_r.
  - unfold mbind, st_bind.
    rewrite (wait_frame args prev (parse row) tr).
    destruct (wait args prev (parse row) []) as [[[]| |] w]; cbn [fst snd];
      try reflexivity.
    unfold emit. rewrite (IH (parse row) ((tr ++ w) ++ _)).
    rewrite (IH (parse row) (([] ++ w) ++ _)). cbn [fst snd app].
    now rewrite <- !app_assoc.
Qed.

Lemma publish_rows_deliveries args : forall rows prev tr r tr',
  publish_rows fromisoformat args prev rows tr = (r, tr') ->
  exists k, (k <= length rows)%nat
    /\ List.filter is_publish tr'
       = List.filter is_publish tr ++ map (message args) (take k rows)
    /\ (r = Ok tt <-> k = length rows).
Proof.
  induction rows as [|row rows IH]; intros prev tr r tr' E; cbn [publish_rows] in E.
  - injection E as <- <-. exists 0%nat. cbn. rewrite app_nil_r.
    repeat split; auto.
  - unfold mbind, st_bind in E.
    rewrite (wait_frame args prev (parse row) tr) in E.
    assert (Hw : List.filter is_publish (snd (wait args prev (parse row) [])) = []).
    { unfold wait, emit, lift, mret, st_ret.
      destruct prev as [p|], (parse row) as [t|]; try reflexivity.
      destruct (negb _); [reflexivity|]. destruct (Qltb _ _); reflexivity. }
    destruct (wait args prev (parse row) []) as [[[]| |] w]; cbn [fst snd] in *.
    + unfold emit in E. apply IH in E as (k & Hk & Hf & Hr).
      exists (S k). cbn [length take map]. split; [lia|]. split.
      * rewrite Hf, !List.filter_app, Hw. cbn [List.filter is_publish].
        rewrite app_nil_r, <- app_assoc. reflexivity.
      * rewrite Hr. lia.
    + injection E as <- <-. exists 0%nat. cbn [length take map].
      split; [lia|]. split.
      * now rewrite List.filter_app, Hw, !app_nil_r.
      * split; [discriminate|lia].
    + injection E as <- <-. exists 0%nat. cbn [length take map].
      split; [lia|]. split.
      * now rewrite List.filter_app, Hw, !app_nil_r.
      * split; [discriminate|lia].
Qed.

(** A pass delivers the rows of the file in the order of the file, each one
    once, with the QoS and the retain flag of the options, and nothing else:
    the deliveries of its trace are those of the first [k] rows, and [k] is
    the number of rows exactly when the pass returns. *)
Theorem pass_delivers_rows args rows r tr :
  publish_once fromisoformat args rows [] = (r, tr) ->
  exists k, (k <= length rows)%nat
    /\ List.filter is_publish tr = map (message args) (take k rows)
    /\ (r = Ok tt <-> k = length rows).
Proof.
  intros E. unfold publish_once in E.
  apply publish_rows_deliveries in E as (k & Hk & Hf & Hr).
  exists k. auto.
Qed.

(** A row with an offset after a row without one, or the other way round,
    ends the pass with [TypeError] when their difference is taken (line 43):
    the row is not delivered, and no row after it. *)
Theorem mixed_offsets_raise args pre row post tr p t :
  publish_once fromisoformat args pre [] = (Ok tt, tr) ->
  last_ts fromisoformat None pre = Some p ->
  parse row = Some t ->
  aware t <> aware p ->
  publish_once fromisoformat args (pre ++ row :: post) [] = (Raise TypeError, tr).
Proof.
  intros E Hp Ht Haw. unfold publish_once in *.
  rewrite (publish_rows_next _ _ _ _ _ _ _ E), Hp, Ht.
  unfold mbind, st_bind, wait.
  destruct (Bool.eqb (aware t) (aware p)) eqn:Eb; [|reflexivity].
  apply eqb_prop in Eb. contradiction.
Qed.

End ReplayerPasses.

(** [pass_delivers_rows] on three rows, the second without a timestamp. *)
Lemma pass_delivers_rows_witness :
  exists k,
    (k <= 3)%nat
    /\ List.filter is_publish
         (snd (Replayer.publish_once Replayer.iso_seconds Replayer.args1
                 [Replayer.row_at "0" "a"; Replayer.row_at "soon" "b";
                  Replayer.row_at "10" "c"] []))
       = map (message Replayer.args1)
           (take k [Replayer.row_at "0" "a"; Replayer.row_at "soon" "b";
                    Replayer.row_at "10" "c"])
    /\ (Ok tt = Ok tt <-> k = 3%nat).
Proof.
  exact (pass_delivers_rows Replayer.iso_seconds Replayer.args1
           [Replayer.row_at "0" "a"; Replayer.row_at "soon" "b";
            Replayer.row_at "10" "c"] (Ok tt) _ eq_refl).
Defined.

(** [mixed_offsets_raise] with a parser that reads a trailing Z as the
    offset: the second row and the third are not delivered. *)
Lemma mixed_offsets_raise_witness :
  Replayer.publish_once iso_zoned Replayer.args1
    [Replayer.row_at "0" "a"; Replayer.row_at "10Z" "b";
     Replayer.row_at "20Z" "c"] []
  = (Raise TypeError, [Replayer.pub "a"]).
Proof.
  apply (mixed_offsets_raise iso_zoned Replayer.args1
           [Replayer.row_at "0" "a"] (Replayer.row_at "10Z" "b")
           [Replayer.row_at "20Z" "c"] [Replayer.pub "a"]
           {| Replayer.instant := 0; Replayer.aware := false |}
           {| Replayer.instant := 10; Replayer.aware := true |});
    [reflexivity | reflexivity | reflexivity | discriminate].
Defined.

(** ** Sessions of the replayer *)

Section ReplayerSession.

Import Replayer.

Variable fromisoformat : string -> option stamp.

(** Passes that return repeat the actions of the first one, and the loop
    goes on. *)
Lemma forever_repeats args rows acts :
  publish_once fromisoformat args rows [] = (Ok tt, acts) ->
  forall n tr,
    forever fromisoformat n args rows tr
    = (OutOfFuel, tr ++ concat (replicate n acts)).
Proof.
  intros E. induction n as [|n IH]; intros tr; cbn [forever replicate concat].
  - unfold lift. now rewrite app_nil_r.
  - unfold mbind, st_bind, publish_once in *.
    rewrite publish_rows_frame, E. cbn [fst snd].
    rewrite IH. now rewrite <- app_assoc.
Qed.

(** A pass that raises ends the loop. *)
Lemma forever_raises args rows e acts :
  publish_once fromisoformat args rows [] = (Raise e, acts) ->
  forall n tr,
    forever fromisoformat (S n) args rows tr = (Raise e, tr ++ acts).
Proof.
  intros E n tr. cbn [forever]. unfold mbind, st_bind, publish_once in *.
  rewrite publish_rows_frame, E. reflexivity.
Qed.

(** With [--loop], as long as no interrupt arrives: when a pass over the file
    returns, every later pass repeats its sleeps and deliveries, beginning
    without a sleep at the first row, and the session never stops the client;
    when a pass raises, the session ends after that pass with the exception,
    the network loop stopped and the client disconnected. *)
Theorem looping_session o rows :
  loop o = true ->
  (forall acts,
     publish_once fromisoformat (pass_args o) rows [] = (Ok tt, acts) ->
     forall n,
       Replayer.main fromisoformat n o rows
       = (OutOfFuel,
          map Call (setup o) ++ map Act (concat (replicate n acts))))
  /\ (forall e acts,
        publish_once fromisoformat (pass_args o) rows [] = (Raise e, acts) ->
        forall n,
          Replayer.main fromisoformat (S n) o rows
          = (Raise e,
             map Call (setup o) ++ map Act acts
             ++ [Call LoopStop; Call Disconnect])).
Proof.
  intros Hloop. split.
  - intros acts E n. unfold Replayer.main. rewrite Hloop.
    rewrite (forever_repeats _ _ _ E n []). cbn [app].
    now rewrite app_nil_r.
  - intros e acts E n. unfold Replayer.main. rewrite Hloop.
    rewrite (forever_raises _ _ _ _ E n []). reflexivity.
Qed.

End ReplayerSession.

(** [looping_session] on a file of two rows ten seconds apart, replayed over
    TLS: three passes, and no sleep between one pass and the next. *)
Lemma looping_session_witness :
  Replayer.main Replayer.iso_seconds 3 session1
    [Replayer.row_at "0" "a"; Replayer.row_at "10" "b"]
  = (OutOfFuel,
     map Replayer.Call (Replayer.setup session1)
     ++ map Replayer.Act
          (concat (replicate 3
             [Replayer.pub "a"; Replayer.Sleep (10 / 1)%Q; Replayer.pub "b"]))).
Proof.
  exact (proj1 (looping_session Replayer.iso_seconds session1
                  [Replayer.row_at "0" "a"; Replayer.row_at "10" "b"] eq_refl)
           [Replayer.pub "a"; Replayer.Sleep (10 / 1)%Q; Replayer.pub "b"]
           eq_refl 3%nat).
Defined.

(** ** Binary64 rounding

    Rounding is monotone, and integers of at most 53 bits are binary64
    numbers: sums and differences of such integers are exact. *)

Section Rounding.

Import Binary64.

Lemma two_nonzero : ~ (2 == 0)%Q.
Proof. discriminate. Qed.

Lemma pow2_pos e : (0 < 2 ^ e)%Q.
Proof. apply Qpower_0_lt. reflexivity. Qed.

Lemma pow2_le a b : a <= b -> (2 ^ a <= 2 ^ b)%Q.
Proof. intros Hab. apply Qpower_le_compat_l; [exact Hab|discriminate]. Qed.

Lemma pow2_lt_inv a b : (2 ^ a < 2 ^ b)%Q -> a < b.
Proof. intros Hab. apply (Qpower_lt_compat_l_inv 2); [exact Hab|reflexivity]. Qed.

Lemma pow2_int e : 0 <= e -> (2 ^ e == inject_Z (2 ^ e))%Q.
Proof. intros He. now rewrite (Zpower_Qpower 2 e He). Qed.

Lemma pow2_succ e : (2 ^ (e + 1) == 2 * 2 ^ e)%Q.
Proof. rewrite Qpower_plus by apply two_nonzero. rewrite Qpower_1_r. ring. Qed.

(** A power of two with a difference of natural exponents, as a fraction. *)
Lemma pow2_minus n m :
  0 <= n -> 0 <= m -> (2 ^ (n - m) == 2 ^ n # Z.to_pos (2 ^ m))%Q.
Proof.
  intros Hn Hm. rewrite Qpower_minus by apply two_nonzero.
  rewrite (pow2_int n Hn), (pow2_int m Hm).
  assert (Hp : 0 < 2 ^ m) by (apply Z.pow_pos_nonneg; lia).
  rewrite (Qmake_Qdiv (2 ^ n) (Z.to_pos (2 ^ m))).
  rewrite Z2Pos.id by exact Hp. reflexivity.
Qed.

Lemma ilog2_spec q :
  (0 < q)%Q -> (2 ^ ilog2 q <= q < 2 ^ (ilog2 q + 1))%Q.
Proof.
  intros Hq. destruct q as [a b]. unfold ilog2. cbn [Qnum Qden].
  assert (Ha : 0 < a) by (unfold Qlt in Hq; cbn in Hq; lia).
  pose proof (Z.log2_spec a Ha) as [Ha1 Ha2].
  pose proof (Z.log2_spec (Zpos b) ltac:(lia)) as [Hb1 Hb2].
  pose proof (Z.log2_nonneg a) as Hla.
  pose proof (Z.log2_nonneg (Zpos b)) as Hlb.
  set (la := Z.log2 a) in *. set (lb := Z.log2 (Zpos b)) in *.
  assert (Hpa : 0 < 2 ^ la) by (apply Z.pow_pos_nonneg; lia).
  assert (Hpb : 0 < 2 ^ lb) by (apply Z.pow_pos_nonneg; lia).
  rewrite Z.pow_succ_r in Ha2, Hb2 by lia.
  destruct (Qle_bool (2 ^ (la - lb)) (a # b)) eqn:E.
  - apply Qle_bool_iff in E. split; [exact E|].
    replace (la - lb + 1) with ((la + 1) - lb) by lia.
    rewrite pow2_minus by lia.
    unfold Qlt. cbn [Qnum Qden]. rewrite Z2Pos.id by exact Hpb.
    rewrite Z.pow_add_r by lia. nia.
  - assert (Hlt : (a # b < 2 ^ (la - lb))%Q).
    { apply Qnot_le_lt. intros Hle. apply Qle_bool_iff in Hle. congruence. }
    replace (la - lb - 1 + 1) with (la - lb) by lia. split; [|exact Hlt].
    replace (la - lb - 1) with (la - (lb + 1)) by lia.
    rewrite pow2_minus by lia.
    assert (Hpb' : 0 < 2 ^ (lb + 1)) by (apply Z.pow_pos_nonneg; lia).
    unfold Qle. cbn [Qnum Qden]. rewrite Z2Pos.id by exact Hpb'.
    rewrite Z.pow_add_r by lia. nia.
Qed.

Lemma ilog2_unique q l :
  (0 < q)%Q -> (2 ^ l <= q < 2 ^ (l + 1))%Q -> ilog2 q = l.
Proof.
  intros Hq [Hl1 Hl2]. destruct (ilog2_spec q Hq) as [Hi1 Hi2].
  assert (ilog2 q < l + 1) by (apply pow2_lt_inv; lra).
  assert (l < ilog2 q + 1) by (apply pow2_lt_inv; lra).
  lia.
Qed.

Lemma ilog2_comp q q' : (0 < q)%Q -> (q == q')%Q -> ilog2 q = ilog2 q'.
Proof.
  intros Hq E. symmetry. apply ilog2_unique; [lra|].
  rewrite <- E. now apply ilog2_spec.
Qed.

Lemma ilog2_mono q1 q2 : (0 < q1)%Q -> (q1 <= q2)%Q -> ilog2 q1 <= ilog2 q2.
Proof.
  intros H1 H12. destruct (ilog2_spec q1 H1) as [Ha _].
  destruct (ilog2_spec q2 ltac:(lra)) as [_ Hb].
  assert (ilog2 q1 < ilog2 q2 + 1) by (apply pow2_lt_inv; lra). lia.
Qed.

Lemma ilog2_int z : 0 < z -> ilog2 (inject_Z z) = Z.log2 z.
Proof.
  intros Hz. pose proof (Z.log2_spec z Hz) as [H1 H2].
  pose proof (Z.log2_nonneg z).
  apply ilog2_unique.
  - replace 0%Q with (inject_Z 0) by reflexivity. now rewrite <- Zlt_Qlt.
  - rewrite !pow2_int by lia. rewrite <- Zle_Qle, <- Zlt_Qlt.
    replace (Z.log2 z + 1) with (Z.succ (Z.log2 z)) by lia. lia.
Qed.

(** *** The nearest integer *)

Lemma rne_bounds q : Qfloor q <= rne q <= Qfloor q + 1.
Proof.
  unfold rne. destruct (_ ?= _)%Q; [destruct (Z.even _)| |]; lia.
Qed.

Lemma rne_comp q q' : (q == q')%Q -> rne q = rne q'.
Proof.
  intros E. unfold rne. rewrite (Qfloor_comp _ _ E).
  assert (Hc : (q - inject_Z (Qfloor q') ?= 1 # 2)%Q
               = (q' - inject_Z (Qfloor q') ?= 1 # 2)%Q)
    by (apply Qcompare_comp; [now rewrite E|reflexivity]).
  now rewrite Hc.
Qed.

Lemma rne_int z : rne (inject_Z z) = z.
Proof.
  unfold rne. rewrite Qfloor_Z.
  assert (E0 : (inject_Z z - inject_Z z == 0)%Q) by ring.
  assert (Hc : (inject_Z z - inject_Z z ?= 1 # 2)%Q = Lt)
    by (apply Qlt_alt; rewrite E0; reflexivity).
  now rewrite Hc.
Qed.

Lemma rne_mono q1 q2 : (q1 <= q2)%Q -> rne q1 <= rne q2.
Proof.
  intros H12. pose proof (Qfloor_resp_le _ _ H12) as Hf.
  pose proof (rne_bounds q1). pose proof (rne_bounds q2).
  destruct (Z.eq_dec (Qfloor q1) (Qfloor q2)) as [E|]; [|lia].
  unfold rne in *. rewrite E in *.
  set (f := Qfloor q2) in *.
  destruct (q1 - inject_Z f ?= 1 # 2)%Q eqn:C1;
    destruct (q2 - inject_Z f ?= 1 # 2)%Q eqn:C2;
    try rewrite <- Qeq_alt in *; try rewrite <- Qlt_alt in *;
    try rewrite <- Qgt_alt in *;
    try (destruct (Z.even f)); try lia; exfalso; lra.
Qed.

Lemma rne_nonneg q : (0 <= q)%Q -> 0 <= rne q.
Proof.
  intros Hq. pose proof (rne_bounds q).
  assert (0 <= Qfloor q)
    by (change 0 with (Qfloor 0); now apply Qfloor_resp_le).
  lia.
Qed.

(** *** Rounding a positive rational *)

Lemma fexp_mono q1 q2 : (0 < q1)%Q -> (q1 <= q2)%Q -> fexp q1 <= fexp q2.
Proof.
  intros H1 H12. pose proof (ilog2_mono q1 q2 H1 H12). unfold fexp. lia.
Qed.

Lemma div_pow2_le q1 q2 e : (q1 <= q2)%Q -> (q1 / 2 ^ e <= q2 / 2 ^ e)%Q.
Proof.
  intros H12. unfold Qdiv. apply Qmult_le_compat_r; [exact H12|].
  apply Qinv_le_0_compat, Qlt_le_weak, pow2_pos.
Qed.

Lemma div_pow2 e k : (2 ^ (e + k) / 2 ^ e == 2 ^ k)%Q.
Proof.
  rewrite Qpower_plus by apply two_nonzero. field.
  apply Qpower_not_0, two_nonzero.
Qed.

Lemma nearest_nonneg q : (0 <= q)%Q -> (0 <= nearest q)%Q.
Proof.
  intros Hq. unfold nearest. apply Qmult_le_0_compat.
  - replace 0%Q with (inject_Z 0) by reflexivity. rewrite <- Zle_Qle.
    apply rne_nonneg. unfold Qdiv. apply Qmult_le_0_compat; [exact Hq|].
    apply Qinv_le_0_compat, Qlt_le_weak, pow2_pos.
  - apply Qlt_le_weak, pow2_pos.
Qed.

(** The rounded value is at most the next power of two. *)
Lemma nearest_upper q : (0 < q)%Q -> (nearest q <= 2 ^ (fexp q + 53))%Q.
Proof.
  intros Hq. unfold nearest. set (e := fexp q).
  destruct (ilog2_spec q Hq) as [_ Hu].
  assert (Hq' : (q <= 2 ^ (e + 53))%Q).
  { apply Qlt_le_weak. eapply Qlt_le_trans; [exact Hu|].
    apply pow2_le. unfold e, fexp. lia. }
  apply (div_pow2_le _ _ e) in Hq'. rewrite div_pow2 in Hq'.
  apply rne_mono in Hq'. rewrite (rne_comp _ _ (pow2_int 53 ltac:(lia))) in Hq'.
  rewrite rne_int in Hq'.
  rewrite Qpower_plus by apply two_nonzero.
  rewrite (pow2_int 53) by lia. rewrite (Qmult_comm (2 ^ e)).
  apply Qmult_le_compat_r; [now rewrite <- Zle_Qle|].
  apply Qlt_le_weak, pow2_pos.
Qed.

(** Above the smallest normal number the rounded value is at least the power
    of two below [q]. *)
Lemma nearest_lower q :
  (0 < q)%Q -> -1022 <= ilog2 q -> (2 ^ (fexp q + 52) <= nearest q)%Q.
Proof.
  intros Hq Hn. unfold nearest. set (e := fexp q).
  destruct (ilog2_spec q Hq) as [Hl _].
  assert (He : e + 52 = ilog2 q) by (unfold e, fexp; lia).
  assert (Hq' : (2 ^ (e + 52) <= q)%Q) by now rewrite He.
  apply (div_pow2_le _ _ e) in Hq'. rewrite div_pow2 in Hq'.
  apply rne_mono in Hq'. rewrite (rne_comp _ _ (pow2_int 52 ltac:(lia))) in Hq'.
  rewrite rne_int in Hq'.
  rewrite Qpower_plus by apply two_nonzero.
  rewrite (pow2_int 52) by lia. rewrite (Qmult_comm (2 ^ e)).
  apply Qmult_le_compat_r; [now rewrite <- Zle_Qle|].
  apply Qlt_le_weak, pow2_pos.
Qed.

Lemma nearest_mono q1 q2 :
  (0 < q1)%Q -> (q1 <= q2)%Q -> (nearest q1 <= nearest q2)%Q.
Proof.
  intros H1 H12. assert (H2 : (0 < q2)%Q) by lra.
  pose proof (fexp_mono q1 q2 H1 H12) as He.
  destruct (Z.eq_dec (fexp q1) (fexp q2)) as [E|Hne].
  - unfold nearest. rewrite E.
    apply Qmult_le_compat_r; [|apply Qlt_le_weak, pow2_pos].
    rewrite <- Zle_Qle. apply rne_mono, div_pow2_le, H12.
  - eapply Qle_trans; [apply nearest_upper, H1|].
    eapply Qle_trans; [|apply nearest_lower; [exact H2|unfold fexp in *; lia]].
    apply pow2_le. lia.
Qed.

Lemma nearest_comp q q' : (0 < q)%Q -> (q == q')%Q -> (nearest q == nearest q')%Q.
Proof.
  intros Hq E. unfold nearest, fexp. rewrite <- (ilog2_comp q q' Hq E).
  set (e := Z.max (ilog2 q) (-1022) - 52).
  assert (E' : (q / 2 ^ e == q' / 2 ^ e)%Q) by now rewrite E.
  now rewrite (rne_comp _ _ E').
Qed.

(** An integer of at most 53 bits is its own rounding. *)
Lemma nearest_int z : 0 < z < 2 ^ 53 -> (nearest (inject_Z z) == inject_Z z)%Q.
Proof.
  intros [Hz Hu]. unfold nearest, fexp. rewrite (ilog2_int z Hz).
  assert (Hl : Z.log2 z < 53) by (apply Z.log2_lt_pow2; lia).
  pose proof (Z.log2_nonneg z) as Hl0.
  rewrite Z.max_l by lia. set (l := Z.log2 z) in *.
  assert (Es : (inject_Z z / 2 ^ (l - 52) == inject_Z (z * 2 ^ (52 - l)))%Q).
  { rewrite inject_Z_mult, <- (pow2_int (52 - l)) by lia.
    replace (52 - l) with (- (l - 52)) by lia. rewrite Qpower_opp.
    reflexivity. }
  rewrite (rne_comp _ _ Es), rne_int.
  rewrite inject_Z_mult, <- (pow2_int (52 - l)) by lia.
  rewrite <- Qmult_assoc, <- Qpower_plus by apply two_nonzero.
  replace (52 - l + (l - 52)) with 0 by lia. rewrite Qpower_0_r. ring.
Qed.

(** *** Rounding *)

Lemma Qred_int z : Qred (inject_Z z) = inject_Z z.
Proof.
  unfold Qred, inject_Z.
  pose proof (Z.ggcd_gcd z 1) as Hg.
  pose proof (Z.ggcd_correct_divisors z 1) as Hd.
  destruct (Z.ggcd z 1) as (g, (aa, bb)). cbn [fst snd] in *.
  rewrite Z.gcd_1_r in Hg. subst g. destruct Hd as [Ha Hb].
  assert (Ea : aa = z) by lia. assert (Eb : bb = 1) by lia.
  rewrite Ea, Eb. reflexivity.
Qed.

Lemma round_pos_cases q :
  (0 <= q)%Q ->
  round_pos q = Inf false
  \/ exists v, round_pos q = Finite v /\ (v == nearest q)%Q /\ (0 <= v)%Q.
Proof.
  intros Hq. unfold round_pos. destruct (Qle_bool _ _); [now left|right].
  eexists. split; [reflexivity|]. split; [apply Qred_correct|].
  rewrite Qred_correct. now apply nearest_nonneg.
Qed.

Lemma round_pos_mono q1 q2 :
  (0 < q1)%Q -> (q1 <= q2)%Q -> ge (round_pos q2) (round_pos q1) = true.
Proof.
  intros H1 H12. pose proof (nearest_mono q1 q2 H1 H12) as Hn.
  unfold round_pos.
  destruct (Qle_bool (2 ^ 1024) (nearest q2)) eqn:E2;
    destruct (Qle_bool (2 ^ 1024) (nearest q1)) eqn:E1; cbn [ge];
    try reflexivity.
  - apply Qle_bool_iff in E1.
    assert (Qle_bool (2 ^ 1024) (nearest q2) = true)
      by (apply Qle_bool_iff; lra).
    congruence.
  - apply Qle_bool_iff. now rewrite !Qred_correct.
Qed.

Lemma round_pos_comp q q' : (0 < q)%Q -> (q == q')%Q -> round_pos q = round_pos q'.
Proof.
  intros Hq E. unfold round_pos. pose proof (nearest_comp q q' Hq E) as En.
  rewrite (Qleb_comp _ _ (reflexivity (2 ^ 1024)%Q) _ _ En).
  now rewrite (Qred_complete _ _ En).
Qed.

Lemma round_comp q q' : (q == q')%Q -> round q = round q'.
Proof.
  intros E. unfold round.
  rewrite <- (Qcompare_comp _ _ E 0%Q 0%Q (reflexivity 0%Q)).
  destruct (Qcompare_spec q 0) as [_|Hlt|Hgt]; [reflexivity| |].
  - f_equal. apply round_pos_comp; [lra|now rewrite E].
  - now apply round_pos_comp.
Qed.

(** Rounding never reverses an order. *)
Lemma round_mono q1 q2 : (q1 <= q2)%Q -> ge (round q2) (round q1) = true.
Proof.
  intros H12. unfold round.
  destruct (Qcompare_spec q1 0) as [E1|L1|G1];
    destruct (Qcompare_spec q2 0) as [E2|L2|G2]; try (exfalso; lra).
  - reflexivity.
  - destruct (round_pos_cases q2 ltac:(lra)) as [-> | (v & -> & _ & Hv)];
      [reflexivity|]. cbn [ge]. now apply Qle_bool_iff.
  - destruct (round_pos_cases (- q1) ltac:(lra)) as [-> | (v & -> & _ & Hv)];
      [reflexivity|]. cbn [opp ge]. apply Qle_bool_iff.
    rewrite Qred_correct. lra.
  - pose proof (round_pos_mono (- q2) (- q1) ltac:(lra) ltac:(lra)) as Hm.
    destruct (round_pos_cases (- q1) ltac:(lra)) as [E | (v1 & E & _ & Hv1)];
      rewrite E in *;
      destruct (round_pos_cases (- q2) ltac:(lra)) as [E' | (v2 & E' & _ & Hv2)];
      rewrite E' in *; cbn [opp ge negb] in *; try reflexivity;
      try discriminate.
    apply Qle_bool_iff in Hm. apply Qle_bool_iff. rewrite !Qred_correct. lra.
  - destruct (round_pos_cases (- q1) ltac:(lra)) as [E | (v1 & E & _ & Hv1)];
      rewrite E;
      destruct (round_pos_cases q2 ltac:(lra)) as [E' | (v2 & E' & _ & Hv2)];
      rewrite E'; cbn [opp ge negb]; try reflexivity.
    apply Qle_bool_iff. rewrite Qred_correct. lra.
  - now apply round_pos_mono.
Qed.

(** Integers of at most 53 bits are binary64 numbers. *)
Lemma round_int z :
  - 2 ^ 53 < z < 2 ^ 53 -> round (inject_Z z) = Finite (inject_Z z).
Proof.
  intros Hz.
  assert (Hpos : forall p, 0 < p < 2 ^ 53 ->
            round_pos (inject_Z p) = Finite (inject_Z p)).
  { intros p Hp. unfold round_pos. pose proof (nearest_int p Hp) as En.
    rewrite (Qleb_comp _ _ (reflexivity (2 ^ 1024)%Q) _ _ En).
    rewrite (Qred_complete _ _ En), Qred_int.
    destruct (Qle_bool (2 ^ 1024) (inject_Z p)) eqn:E; [|reflexivity].
    apply Qle_bool_iff in E. rewrite pow2_int in E by lia.
    rewrite <- Zle_Qle in E.
    assert (2 ^ 53 < 2 ^ 1024) by (apply Z.pow_lt_mono_r; lia). lia. }
  unfold round.
  destruct (Qcompare_spec (inject_Z z) 0) as [E|L|G].
  - assert (z = 0).
    { unfold Qeq in E. cbn in E. lia. }
    subst z. reflexivity.
  - assert (z < 0) by (unfold Qlt in L; cbn in L; lia).
    change (- inject_Z z)%Q with (inject_Z (- z)).
    rewrite Hpos by lia. cbn [opp].
    change (- inject_Z (- z))%Q with (inject_Z (- - z)).
    rewrite Z.opp_involutive. now rewrite Qred_int.
  - assert (0 < z) by (unfold Qlt in G; cbn in G; lia).
    apply Hpos. lia.
Qed.

Lemma add_int a b :
  - 2 ^ 53 < a + b < 2 ^ 53 ->
  add (Finite (inject_Z a)) (Finite (inject_Z b)) = Finite (inject_Z (a + b)).
Proof.
  intros H. cbn [add].
  rewrite (round_comp _ (inject_Z (a + b))) by (now rewrite inject_Z_plus).
  now apply round_int.
Qed.

Lemma sub_int a b :
  - 2 ^ 53 < a - b < 2 ^ 53 ->
  sub (Finite (inject_Z a)) (Finite (inject_Z b)) = Finite (inject_Z (a - b)).
Proof.
  intros H. unfold sub. cbn [opp].
  change (- inject_Z b)%Q with (inject_Z (- b)). rewrite Qred_int.
  rewrite add_int by lia. f_equal.
Qed.

Lemma ge_int a b : ge (Finite (inject_Z a)) (Finite (inject_Z b)) = (b <=? a).
Proof.
  cbn [ge]. destruct (Z.leb_spec b a) as [H|H].
  - apply Qle_bool_iff. now rewrite <- Zle_Qle.
  - destruct (Qle_bool (inject_Z b) (inject_Z a)) eqn:E; [|reflexivity].
    apply Qle_bool_iff in E. rewrite <- Zle_Qle in E. lia.
Qed.

End Rounding.

(** ** The counter loop on binary64 numbers *)

Lemma of_int_exact z :
  - 2 ^ 53 < z < 2 ^ 53 -> Binary64.of_int z = Ok (Binary64.Finite (inject_Z z)).
Proof. intros Hz. unfold Binary64.of_int. now rewrite round_int. Qed.

Lemma run_count_upper running k : run_count running k <= Z.of_nat k.
Proof.
  induction k as [|k IH]; cbn [run_count]; [lia|].
  destruct (running !! k) as [r|]; [destruct (r =? 0)|]; lia.
Qed.

(** A timeline that is built has a positive interval, and all its seconds
    together are an integer of less than 53 bits. *)
Lemma timeline_seconds_exact fuel a ts :
  timeline fuel a = Ok ts ->
  0 < interval_sec a /\ interval_sec a * Z.of_nat (length ts) < 2 ^ 53.
Proof.
  intros E. pose proof (timeline_interval_pos _ _ _ E) as Hi.
  split; [exact Hi|].
  apply timeline_inv in E as (y & m & d & t0 & _ & Ht0 & H0 & E).
  pose proof (datetime_new_upper _ _ _ _ Ht0) as [_ Hmax].
  assert (Hfirst : t0 + interval_sec a <= Py.datetime_max).
  { destruct fuel as [|fuel]; cbn [build_ts] in E;
      (replace (t0 <=? t0 + 86390) with true in E
         by (symmetry; apply Z.leb_le; lia)); [discriminate|].
    unfold Py.add_seconds in E. destruct (negb _); [discriminate|].
    destruct ((0 <=? t0 + interval_sec a)
              && (t0 + interval_sec a <=? Py.datetime_max)) eqn:Eb;
      [|discriminate].
    apply andb_prop in Eb as [_ Eb]. now apply Z.leb_le in Eb. }
  apply build_ts_ok_inv in E as (k & -> & Hk). cbn [app].
  rewrite instants_length.
  assert (Hbig : 86390 + Py.datetime_max < 2 ^ 53) by reflexivity.
  destruct k as [|k]; [rewrite Z.mul_0_r; reflexivity|].
  specialize (Hk k ltac:(lia)). lia.
Qed.

Section RoundedLoop.

Context {G : Type} `{PRNG G}.
Variables (fuel : nat) (interval : Z) (ideal reject : Binary64.float).
Variable running : list Z.

(** The [while] loop touches the part counters and the cycle accumulator
    only. *)
Lemma rounded_cycle_loop_keeps : forall n c g c' g',
  Rounded.cycle_loop n ideal reject c g = (Ok c', g') ->
  Rounded.run_sec_accum c' = Rounded.run_sec_accum c
  /\ Rounded.parts_total c' = Rounded.parts_total c
  /\ Rounded.parts_good c' = Rounded.parts_good c
  /\ Rounded.run_minutes_today c' = Rounded.run_minutes_today c.
Proof.
  induction n as [|n IH]; intros c g c' g' E; cbn [Rounded.cycle_loop] in E;
    destruct (Binary64.ge (Rounded.accum_cycle c) ideal).
  - discriminate.
  - apply st_ret_ok in E as [<- <-]. auto.
  - unfold mbind, st_bind, rand in E. destruct (random g) as [u g1].
    apply IH in E. exact E.
  - apply st_ret_ok in E as [<- <-]. auto.
Qed.

(** One pass, when it returns: an entry is appended to each list, and the
    running seconds grow by the interval when the instant is running. *)
Lemma rounded_counter_step_spec i c g c' g' :
  Rounded.counter_step fuel interval ideal reject running i c g = (Ok c', g') ->
  exists r,
    running !! i = Some r
    /\ (r = 0 -> Rounded.run_sec_accum c' = Rounded.run_sec_accum c)
    /\ (r <> 0 -> exists x,
          Binary64.of_int interval = Ok x
          /\ Rounded.run_sec_accum c' = Binary64.add (Rounded.run_sec_accum c) x)
    /\ Rounded.run_minutes_today c'
       = Rounded.run_minutes_today c ++ [Binary64.div60 (Rounded.run_sec_accum c')]
    /\ length (Rounded.parts_total c') = S (length (Rounded.parts_total c))
    /\ length (Rounded.parts_good c') = S (length (Rounded.parts_good c)).
Proof.
  intros E. unfold Rounded.counter_step in E. st_inv E.
  apply lift_ok in H0 as [Hr ->]. apply getitem_ok in Hr.
  apply st_ret_ok in E as [<- <-].
  cbn [Rounded.run_sec_accum Rounded.run_minutes_today Rounded.parts_total
       Rounded.parts_good].
  exists a. split; [exact Hr|].
  destruct (Z.eqb_spec a 0) as [->|Hne]; cbn [negb] in H1.
  - apply st_ret_ok in H1 as [<- <-].
    rewrite !length_app. cbn [length].
    repeat split; try reflexivity; lia.
  - st_inv H1. apply lift_ok in H0 as [Hx ->].
    apply rounded_cycle_loop_keeps in H1 as (Hrun & Hl1 & Hl2 & Hl3).
    cbn [Rounded.run_sec_accum Rounded.run_minutes_today Rounded.parts_total
         Rounded.parts_good] in *.
    rewrite Hrun, Hl1, Hl2, Hl3, !length_app. cbn [length].
    split; [intros; contradiction|].
    split; [intros _; exists a1; auto|].
    repeat split; lia.
Qed.

(** An invariant of the passes holds when the loop returns. *)
Lemma rounded_counter_loop_invariant (P : nat -> Rounded.Counters -> Prop) :
  forall k s c g c' g',
  (forall i c g c' g', (s <= i < s + k)%nat -> P i c ->
     Rounded.counter_step fuel interval ideal reject running i c g = (Ok c', g') ->
     P (S i) c') ->
  P s c ->
  Rounded.counter_loop fuel interval ideal reject running (seq s k) c g
  = (Ok c', g') ->
  P (s + k)%nat c'.
Proof.
  induction k as [|k IH]; intros s c g c' g' Hstep H0 E;
    cbn [seq Rounded.counter_loop] in E.
  - apply st_ret_ok in E as [<- <-]. now rewrite Nat.add_0_r.
  - st_inv E. replace (s + S k)%nat with (S s + k)%nat by lia.
    apply (IH (S s) a s0 c' g');
      [|apply (Hstep s c g a s0); [lia|assumption|assumption]|exact E].
    intros i c1 g1 c2 g2 Hi HP E1.
    apply (Hstep i c1 g1 c2 g2); [lia|exact HP|exact E1].
Qed.

(** The running seconds are exact, and every entry of [run_minutes_today]
    is their quotient by 60, rounded. *)
Lemma rounded_counter_loop_run n c g g' :
  0 < interval -> interval * Z.of_nat n < 2 ^ 53 ->
  Rounded.counter_loop fuel interval ideal reject running (seq 0 n)
    Rounded.counters0 g = (Ok c, g') ->
  length (Rounded.run_minutes_today c) = n
  /\ Rounded.run_sec_accum c
     = Binary64.Finite (inject_Z (interval * run_count running n))
  /\ forall j x, Rounded.run_minutes_today c !! j = Some x ->
       x = Binary64.div60
             (Binary64.Finite (inject_Z (interval * run_count running (S j)))).
Proof.
  intros Hi Hn E.
  apply (rounded_counter_loop_invariant
           (fun i c =>
              length (Rounded.run_minutes_today c) = i
              /\ Rounded.run_sec_accum c
                 = Binary64.Finite (inject_Z (interval * run_count running i))
              /\ forall j x, Rounded.run_minutes_today c !! j = Some x ->
                   x = Binary64.div60
                         (Binary64.Finite
                            (inject_Z (interval * run_count running (S j)))))
           n 0%nat Rounded.counters0 g c g'); [| |exact E].
  - intros i c1 g1 c2 g2 Hin (Hlen & Hrun & Hent) E1.
    apply rounded_counter_step_spec in E1 as (r & Hr & Hr0 & Hr1 & Hrm & _).
    assert (Hrun2 : Rounded.run_sec_accum c2
                    = Binary64.Finite
                        (inject_Z (interval * run_count running (S i)))).
    { rewrite run_count_S, Hr. destruct (Z.eqb_spec r 0) as [E0|Hne].
      - rewrite (Hr0 E0), Hrun. do 2 f_equal. lia.
      - destruct (Hr1 Hne) as (x & Hx & ->).
        pose proof (run_count_nonneg running i).
        pose proof (run_count_upper running i).
        rewrite of_int_exact in Hx by nia. injection Hx as <-.
        rewrite Hrun, add_int by nia. do 2 f_equal. lia. }
    split; [rewrite Hrm, length_app; cbn [length]; lia|].
    split; [exact Hrun2|].
    intros j x Hj. rewrite Hrm in Hj.
    destruct (Nat.lt_ge_cases j i) as [Hlt|Hge].
    + rewrite lookup_app_l in Hj by lia. now apply Hent.
    + assert (j = i).
      { apply lookup_lt_Some in Hj. rewrite length_app in Hj.
        cbn [length] in Hj. lia. }
      subst j. rewrite lookup_app_r, Hlen, Nat.sub_diag in Hj by lia.
      injection Hj as <-. now rewrite Hrun2.
  - split; [reflexivity|]. split; [|intros j x Hj; discriminate].
    cbn [run_count Rounded.counters0 Rounded.run_sec_accum].
    now rewrite Z.mul_0_r.
Qed.

End RoundedLoop.

(** C5 (as amended). On every generated timeline, whatever the running flags
    are, the entry of [run_minutes_today] at an instant is the binary64
    quotient by 60.0 of the running seconds, [interval] times the number of
    running instants so far.  The entries never decrease; from one instant
    to the next the entry is unchanged when the later instant is not
    running, and when it is running the seconds behind it have grown by
    exactly [interval]: it grows only into a running instant.  The growth of
    the entry itself is [interval / 60] up to the rounding of the two
    quotients only. *)
Theorem run_minutes_steps {G : Type} `{PRNG G} fuel a ts fuel' ideal reject
    running (g g' : G) c :
  timeline fuel a = Ok ts ->
  Rounded.counter_loop fuel' (interval_sec a) ideal reject running
    (seq 0 (length ts)) Rounded.counters0 g = (Ok c, g') ->
  length (Rounded.run_minutes_today c) = length ts
  /\ (forall i x, Rounded.run_minutes_today c !! i = Some x ->
        x = Binary64.div60
              (Binary64.Finite
                 (inject_Z (interval_sec a * run_count running (S i)))))
  /\ monotone no_greater (Rounded.run_minutes_today c)
  /\ (forall i x y,
        Rounded.run_minutes_today c !! i = Some x ->
        Rounded.run_minutes_today c !! S i = Some y ->
        (exists r, running !! S i = Some r /\ r <> 0
           /\ interval_sec a * run_count running (S (S i))
              = interval_sec a * run_count running (S i) + interval_sec a)
        \/ (running !! S i = Some 0 /\ y = x))
  /\ (forall i x y,
        Rounded.run_minutes_today c !! i = Some x ->
        Rounded.run_minutes_today c !! S i = Some y ->
        y <> x -> exists r, running !! S i = Some r /\ r <> 0).
Proof.
  intros Hts E. destruct (timeline_seconds_exact _ _ _ Hts) as [Hi Hn].
  pose proof E as E'.
  apply rounded_counter_loop_run in E as (Hlen & _ & Hent); [|exact Hi|exact Hn].
  assert (Hpl : length (Rounded.parts_total c) = length ts).
  { apply (rounded_counter_loop_invariant fuel' (interval_sec a) ideal reject
             running (fun i c => length (Rounded.parts_total c) = i)
             (length ts) 0%nat Rounded.counters0 g c g'); [|reflexivity|exact E'].
    intros i c1 g1 c2 g2 _ Hl E1.
    apply rounded_counter_step_spec in E1 as (_ & _ & _ & _ & _ & Hp & _).
    lia. }
  assert (Hrun : forall i, (i < length ts)%nat -> exists r, running !! i = Some r).
  { intros i Hlt.
    enough (Hall : forall k, (k <= length ts)%nat ->
              forall i, (i < k)%nat -> exists r, running !! i = Some r)
      by (apply (Hall (length ts)); lia).
    apply (rounded_counter_loop_invariant fuel' (interval_sec a) ideal reject
             running
             (fun k _ => forall k', (k' <= k)%nat ->
                forall i, (i < k')%nat -> exists r, running !! i = Some r)
             (length ts) 0%nat Rounded.counters0 g c g'); [|intros; lia|exact E'].
    intros k c1 g1 c2 g2 _ IHk E1 k' Hk' j Hj.
    apply rounded_counter_step_spec in E1 as (r & Hr & _).
    destruct (Nat.eq_dec j k) as [->|Hne]; [eauto|].
    apply (IHk k); lia. }
  assert (Hstep : forall i x y,
            Rounded.run_minutes_today c !! i = Some x ->
            Rounded.run_minutes_today c !! S i = Some y ->
            (exists r, running !! S i = Some r /\ r <> 0
               /\ interval_sec a * run_count running (S (S i))
                  = interval_sec a * run_count running (S i) + interval_sec a)
            \/ (running !! S i = Some 0 /\ y = x)).
  { intros i x y Hx Hy.
    assert (Hlt : (S i < length ts)%nat)
      by (apply lookup_lt_Some in Hy; lia).
    destruct (Hrun (S i) Hlt) as [r Hr].
    destruct (Z.eq_dec r 0) as [->|Hne].
    - right. split; [exact Hr|].
      rewrite (Hent _ _ Hx), (Hent _ _ Hy).
      rewrite (run_count_S running (S i)), Hr. cbn [Z.eqb].
      now rewrite Z.add_0_r.
    - left. exists r. split; [exact Hr|]. split; [exact Hne|].
      rewrite (run_count_S running (S i)), Hr.
      destruct (Z.eqb_spec r 0); [contradiction|]. lia. }
  split; [exact Hlen|]. split; [exact Hent|]. split; [|split; [exact Hstep|]].
  - intros i j x y Hij Hx Hy. unfold no_greater.
    rewrite (Hent _ _ Hx), (Hent _ _ Hy). cbn [Binary64.div60].
    apply round_mono.
    pose proof (run_count_mono running (S i) (S j) ltac:(lia)) as Hm.
    assert (Hz : interval_sec a * run_count running (S i)
                 <= interval_sec a * run_count running (S j))
      by (apply Z.mul_le_mono_nonneg_l; lia).
    rewrite Zle_Qle in Hz. unfold Qdiv.
    apply Qmult_le_compat_r; [exact Hz|]. discriminate.
  - intros i x y Hx Hy Hne.
    destruct (Hstep i x y Hx Hy) as [(r & Hr & Hr0 & _)|[_ Heq]]; [eauto|].
    contradiction.
Qed.

(** [run_minutes_steps] on a day sampled every six hours whose second and
    fourth instants are running. *)
Lemma run_minutes_steps_witness :
  exists ts c g',
    timeline 4 (with_interval default_args 21600) = Ok ts
    /\ Rounded.counter_loop 2000 21600 (Binary64.Finite 12)
         (Binary64.Finite (2 # 100)) [0; 1; 0; 1] (seq 0 (length ts))
         Rounded.counters0 7 = (Ok c, g')
    /\ Rounded.run_minutes_today c
       = [Binary64.Finite 0; Binary64.Finite 360; Binary64.Finite 360;
          Binary64.Finite 720]
    /\ monotone no_greater (Rounded.run_minutes_today c).
Proof.
  eexists ?[ts], ?[c], ?[g'].
  assert (Ets : timeline 4 (with_interval default_args 21600) = Ok ?ts)
    by (vm_compute; reflexivity).
  assert (E : Rounded.counter_loop 2000 21600 (Binary64.Finite 12)
                (Binary64.Finite (2 # 100)) [0; 1; 0; 1] (seq 0 4)
                Rounded.counters0 7 = (Ok ?c, ?g'))
    by (vm_compute; reflexivity).
  split; [exact Ets|]. split; [exact E|]. split; [reflexivity|].
  exact (proj1 (proj2 (proj2
           (run_minutes_steps 4 (with_interval default_args 21600) _ 2000 _ _
              [0; 1; 0; 1] 7 _ _ Ets E)))).
Defined.

(** C5 as stated fails: three running samples at 10 s give the entries
    [10/60.0], [20/60.0] and [30/60.0]; from the second to the third the
    growth is [3002399751580331 / 2^54] (0.16666666666666669), computed in
    binary64 or exactly, and not [10/60.0], which is
    [6004799503160661 / 2^55] (0.16666666666666666), nor the rational
    [10/60]. *)
Lemma run_minutes_counterexample :
  (exists c g',
     Rounded.counter_loop 2 10 (Binary64.Finite 12) (Binary64.Finite 0)
       [1; 1; 1] (seq 0 3) Rounded.counters0 7 = (Ok c, g')
     /\ Rounded.run_minutes_today c
        = [Binary64.Finite (6004799503160661 # 36028797018963968);
           Binary64.Finite (6004799503160661 # 18014398509481984);
           Binary64.Finite (1 # 2)])
  /\ Binary64.sub (Binary64.Finite (1 # 2))
       (Binary64.Finite (6004799503160661 # 18014398509481984))
     = Binary64.Finite (3002399751580331 # 18014398509481984)
  /\ ((1 # 2) - (6004799503160661 # 18014398509481984)
      == 3002399751580331 # 18014398509481984)%Q
  /\ Binary64.div60 (Binary64.Finite 10)
     = Binary64.Finite (6004799503160661 # 36028797018963968)
  /\ Qeq_bool (3002399751580331 # 18014398509481984)
       (6004799503160661 # 36028797018963968) = false
  /\ Qeq_bool (3002399751580331 # 18014398509481984) (10 / 60) = false.
Proof.
  split; [|repeat split; vm_compute; reflexivity].
  eexists _, _. split; vm_compute; reflexivity.
Qed.

(** ** Whole-number cycle times: the binary64 loop computes exactly *)

Section RoundedAgrees.

Context {G : Type} `{PRNG G}.
Variables (fuel : nat) (interval k : Z) (ideal reject : Q) (running : list Z).
Hypothesis Hid : (ideal == inject_Z k)%Q.
Hypothesis Hk : 0 < k.
Hypothesis Hi : 0 <= interval.
Hypothesis Hbits : k + interval < 2 ^ 53.

Lemma round_whole q z :
  (q == inject_Z z)%Q -> - 2 ^ 53 < z < 2 ^ 53 ->
  Binary64.round q = Binary64.Finite (inject_Z z).
Proof. intros E Hz. rewrite (round_comp _ _ E). now apply round_int. Qed.

Lemma div60_round_whole q z :
  (q == inject_Z z)%Q -> - 2 ^ 53 < z < 2 ^ 53 ->
  Binary64.div60 (Binary64.round q) = Binary64.round (q / 60).
Proof.
  intros E Hz. rewrite (round_whole q z E Hz). cbn [Binary64.div60].
  apply round_comp. now rewrite E.
Qed.

(** The [while] loop on a whole accumulator. *)
Lemma cycle_loop_rounded : forall n c g z r g1,
  (accum_cycle c == inject_Z z)%Q -> 0 <= z < 2 ^ 53 ->
  cycle_loop n ideal reject c g = (r, g1) ->
  Rounded.cycle_loop n (Binary64.Finite (inject_Z k)) (Binary64.Finite reject)
    (rounded c) g
  = (result_map rounded r, g1).
Proof.
  induction n as [|n IH]; intros c g z r g1 Hacc Hz E;
    cbn [Rounded.cycle_loop cycle_loop] in *;
    cbn [rounded Rounded.accum_cycle];
    rewrite (round_whole _ z Hacc) by lia; rewrite ge_int;
    rewrite (Qleb_comp _ _ Hid _ _ Hacc) in E;
    change (Qle_bool (inject_Z k) (inject_Z z))
      with (Binary64.ge (Binary64.Finite (inject_Z z))
              (Binary64.Finite (inject_Z k))) in E;
    rewrite ge_int in E; destruct (Z.leb_spec k z) as [Hle|Hlt];
    try (injection E as <- <-; reflexivity).
  unfold mbind, st_bind, rand in *. destruct (random g) as [u g2].
  match type of E with
  | cycle_loop n _ _ ?c1 g2 = _ =>
      match goal with
      | |- Rounded.cycle_loop n _ _ ?cF g2 = _ =>
          replace cF with (rounded c1);
            [apply (IH c1 g2 (z - k) r g1); [|lia|exact E]|]
      end
  end.
  - cbn [accum_cycle]. rewrite Hacc, Hid. unfold Zminus.
    rewrite inject_Z_plus, inject_Z_opp. reflexivity.
  - unfold rounded.
    cbn [pt pg run_sec_accum accum_cycle parts_total parts_good
         run_minutes_today Rounded.pt Rounded.pg Rounded.run_sec_accum
         Rounded.parts_total Rounded.parts_good Rounded.run_minutes_today
         Binary64.ge].
    f_equal.
    rewrite (round_whole (accum_cycle c - ideal) (z - k)) by
      (try lia; rewrite Hacc, Hid; unfold Zminus;
       rewrite inject_Z_plus, inject_Z_opp; reflexivity).
    symmetry. apply sub_int. lia.
Qed.

(** One pass on whole accumulators. *)
Lemma counter_step_rounded i c g z s r g1 :
  (accum_cycle c == inject_Z z)%Q -> 0 <= z < k ->
  (run_sec_accum c == inject_Z s)%Q -> 0 <= s -> s + interval < 2 ^ 53 ->
  counter_step fuel interval ideal reject running i c g = (r, g1) ->
  Rounded.counter_step fuel interval (Binary64.Finite (inject_Z k))
    (Binary64.Finite reject) running i (rounded c) g
  = (result_map rounded r, g1).
Proof.
  intros Hacc Hz Hrun Hs Hs' E.
  unfold Rounded.counter_step, counter_step in *.
  unfold mbind at 1, st_bind at 1, lift at 1 in E.
  unfold mbind at 1, st_bind at 1, lift at 1.
  destruct (getitem running i) as [x| |];
    try (injection E as <- <-; reflexivity).
  unfold mbind at 1, st_bind at 1 in E. unfold mbind at 1, st_bind at 1.
  destruct (x =? 0); cbn [negb] in *.
  - unfold mret, st_ret in *. injection E as <- <-. cbn [result_map].
    do 2 f_equal. unfold rounded.
    cbn [pt pg run_sec_accum accum_cycle parts_total parts_good
         run_minutes_today Rounded.pt Rounded.pg Rounded.run_sec_accum
         Rounded.accum_cycle Rounded.parts_total Rounded.parts_good
         Rounded.run_minutes_today].
    rewrite map_app. cbn [map].
    now rewrite (div60_round_whole _ s Hrun) by lia.
  - rewrite of_int_exact by lia.
    unfold mbind at 1, st_bind at 1, lift.
    set (c0 := {| pt := pt c; pg := pg c;
                  run_sec_accum := (run_sec_accum c + inject_Z interval)%Q;
                  accum_cycle := (accum_cycle c + inject_Z interval)%Q;
                  parts_total := parts_total c;
                  parts_good := parts_good c;
                  run_minutes_today := run_minutes_today c |}) in *.
    assert (Hacc0 : (accum_cycle c0 == inject_Z (z + interval))%Q)
      by (cbn [c0 accum_cycle]; now rewrite Hacc, inject_Z_plus).
    assert (Hrun0 : (run_sec_accum c0 == inject_Z (s + interval))%Q)
      by (cbn [c0 run_sec_accum]; now rewrite Hrun, inject_Z_plus).
    match goal with
    | |- context [Rounded.cycle_loop fuel _ _ ?cF g] =>
        replace cF with (rounded c0)
    end.
    2:{ unfold rounded, c0.
        cbn [pt pg run_sec_accum accum_cycle parts_total parts_good
             run_minutes_today Rounded.pt Rounded.pg Rounded.run_sec_accum
             Rounded.accum_cycle Rounded.parts_total Rounded.parts_good
             Rounded.run_minutes_today].
        rewrite (round_whole _ s Hrun), (round_whole _ z Hacc) by lia.
        rewrite !add_int by lia.
        rewrite (round_whole (run_sec_accum c + inject_Z interval) (s + interval))
          by (try lia; now rewrite Hrun, inject_Z_plus).
        rewrite (round_whole (accum_cycle c + inject_Z interval) (z + interval))
          by (try lia; now rewrite Hacc, inject_Z_plus).
        reflexivity. }
    destruct (cycle_loop fuel ideal reject c0 g) as [r1 g2] eqn:E1.
    rewrite (cycle_loop_rounded fuel c0 g (z + interval) r1 g2 Hacc0
               ltac:(lia) E1).
    destruct r1 as [c1| |]; cbn [result_map];
      try (injection E as <- <-; reflexivity).
    apply cycle_loop_spec in E1
      as (j & _ & _ & _ & _ & _ & _ & Hr1 & _ & _ & _ & _).
    unfold mret, st_ret in *. injection E as <- <-. cbn [result_map].
    do 2 f_equal. unfold rounded.
    cbn [pt pg run_sec_accum accum_cycle parts_total parts_good
         run_minutes_today Rounded.pt Rounded.pg Rounded.run_sec_accum
         Rounded.accum_cycle Rounded.parts_total Rounded.parts_good
         Rounded.run_minutes_today].
    rewrite map_app. cbn [map].
    rewrite (div60_round_whole _ (s + interval)) by (try lia; now rewrite Hr1).
    reflexivity.
Qed.

(** The loop on whole accumulators. *)
Lemma counter_loop_rounded : forall range c g z s r g1,
  (accum_cycle c == inject_Z z)%Q -> 0 <= z < k ->
  (run_sec_accum c == inject_Z s)%Q -> 0 <= s ->
  s + interval * Z.of_nat (length range) < 2 ^ 53 ->
  counter_loop fuel interval ideal reject running range c g = (r, g1) ->
  Rounded.counter_loop fuel interval (Binary64.Finite (inject_Z k))
    (Binary64.Finite reject) running range (rounded c) g
  = (result_map rounded r, g1).
Proof.
  induction range as [|i range IH]; intros c g z s r g1 Hacc Hz Hrun Hs Hlen E;
    cbn [Rounded.counter_loop counter_loop] in *.
  - unfold mret, st_ret in *. injection E as <- <-. reflexivity.
  - cbn [length] in Hlen. unfold mbind, st_bind in *.
    destruct (counter_step fuel interval ideal reject running i c g)
      as [r1 g2] eqn:E1.
    rewrite (counter_step_rounded i c g z s r1 g2 Hacc Hz Hrun Hs ltac:(nia) E1).
    destruct r1 as [c1| |]; cbn [result_map];
      try (injection E as <- <-; reflexivity).
    apply counter_step_spec in E1
      as (x & j & _ & Hr0 & _ & _ & Hrun1 & Hacc1 & Hlt1 & Hpos1 & _).
    assert (Hacc0 : (0 <= accum_cycle c)%Q).
    { rewrite Hacc. change 0%Q with (inject_Z 0). rewrite <- Zle_Qle. lia. }
    specialize (Hpos1 Hacc0 Hi).
    destruct (Z.eqb_spec x 0) as [E0|Hne].
    + rewrite (Hr0 E0) in Hacc1. change (inject_Z (Z.of_nat 0)) with 0%Q in Hacc1.
      apply (IH c1 g2 z s r g1); try lia; try exact E.
      * rewrite Hacc1, Hacc. ring.
      * now rewrite Hrun1.
    + specialize (Hlt1 Hne).
      assert (Hz1 : (accum_cycle c1
                     == inject_Z (z + interval - Z.of_nat j * k))%Q).
      { rewrite Hacc1, Hacc, Hid. unfold Zminus.
        rewrite !inject_Z_plus, inject_Z_opp, inject_Z_mult. ring. }
      apply (IH c1 g2 (z + interval - Z.of_nat j * k) (s + interval) r g1);
        try lia; try exact Hz1; try exact E.
      * rewrite Hz1 in Hpos1, Hlt1. rewrite Hid in Hlt1.
        change 0%Q with (inject_Z 0) in Hpos1.
        rewrite <- Zle_Qle in Hpos1. rewrite <- Zlt_Qlt in Hlt1. lia.
      * now rewrite Hrun1, Hrun, inject_Z_plus.
Qed.

End RoundedAgrees.

(** For a whole-number cycle time the binary64 loop has nothing to round
    but the quotients by 60: it ends as the exact loop ends, returning,
    raising or still running, in the same state of the generator, with the
    same counters and lists of parts, with accumulators that are the exact
    ones, and with every entry of [run_minutes_today] the binary64 nearest
    to the exact entry. *)
Theorem whole_cycle_time_exact {G : Type} `{PRNG G} fuel interval k reject
    running n (g g1 : G) r :
  0 < k -> 0 <= interval -> k + interval < 2 ^ 53 ->
  interval * Z.of_nat n < 2 ^ 53 ->
  counter_loop fuel interval (inject_Z k) reject running (seq 0 n) counters0 g
  = (r, g1) ->
  Rounded.counter_loop fuel interval (Binary64.Finite (inject_Z k))
    (Binary64.Finite reject) running (seq 0 n) Rounded.counters0 g
  = (result_map rounded r, g1).
Proof.
  intros Hk Hi Hbits Hn E.
  change Rounded.counters0 with (rounded counters0).
  apply (counter_loop_rounded fuel interval k (inject_Z k) reject running
           (reflexivity _) Hk Hi Hbits (seq 0 n) counters0 g 0 0 r g1);
    try reflexivity; try lia; [|exact E].
  rewrite length_seq. lia.
Qed.

(** [whole_cycle_time_exact] on three running samples at 10 s and 12 s per
    part. *)
Lemma whole_cycle_time_exact_witness :
  exists c0 g1,
    counter_loop 2 10 12 0 [1; 1; 1] (seq 0 3) counters0 7 = (Ok c0, g1)
    /\ Rounded.counter_loop 2 10 (Binary64.Finite 12) (Binary64.Finite 0)
         [1; 1; 1] (seq 0 3) Rounded.counters0 7
       = (Ok (rounded c0), g1)
    /\ Rounded.parts_total (rounded c0) = [0; 1; 2].
Proof.
  eexists ?[c0], ?[g1].
  assert (E : counter_loop 2 10 12 0 [1; 1; 1] (seq 0 3) counters0 7
              = (Ok ?c0, ?g1)) by (vm_compute; reflexivity).
  split; [exact E|]. split; [|reflexivity].
  exact (whole_cycle_time_exact 2 10 12 0 [1; 1; 1] 3 7 _ _ eq_refl
           ltac:(discriminate) eq_refl eq_refl E).
Defined.

(** A run of the binary64 loop with a whole-number cycle time is the
    rounding of a run of the exact loop. *)
Lemma rounded_loop_inv {G : Type} `{PRNG G} fuel interval k reject running n
    (g g' : G) c :
  0 < k -> 0 <= interval -> k + interval < 2 ^ 53 ->
  interval * Z.of_nat n < 2 ^ 53 ->
  Rounded.counter_loop fuel interval (Binary64.Finite (inject_Z k))
    (Binary64.Finite reject) running (seq 0 n) Rounded.counters0 g
  = (Ok c, g') ->
  exists c0,
    counter_loop fuel interval (inject_Z k) reject running (seq 0 n) counters0 g
    = (Ok c0, g')
    /\ c = rounded c0.
Proof.
  intros Hk Hi Hbits Hn E.
  destruct (counter_loop fuel interval (inject_Z k) reject running (seq 0 n)
              counters0 g) as [r g1] eqn:E0.
  change Rounded.counters0 with (rounded counters0) in E.
  assert (R : Rounded.counter_loop fuel interval (Binary64.Finite (inject_Z k))
                (Binary64.Finite reject) running (seq 0 n) (rounded counters0) g
              = (result_map rounded r, g1)).
  { apply (counter_loop_rounded fuel interval k (inject_Z k) reject running
             (reflexivity _) Hk Hi Hbits (seq 0 n) counters0 g 0 0 r g1);
      try reflexivity; try lia; [|exact E0].
    rewrite length_seq. lia. }
  rewrite R in E.
  destruct r as [c0| |]; cbn [result_map] in E; try discriminate.
  injection E as <- <-. eauto.
Qed.

(** The parts of a whole-number cycle time, in closed form. *)
Lemma rounded_parts_closed {G : Type} `{PRNG G} fuel interval k reject running
    n (g g' : G) c :
  0 < k -> 0 <= interval -> k + interval < 2 ^ 53 ->
  interval * Z.of_nat n < 2 ^ 53 ->
  Rounded.counter_loop fuel interval (Binary64.Finite (inject_Z k))
    (Binary64.Finite reject) running (seq 0 n) Rounded.counters0 g
  = (Ok c, g') ->
  length (Rounded.parts_total c) = n
  /\ forall i p, Rounded.parts_total c !! i = Some p ->
       p * k <= interval * run_count running (S i) < (p + 1) * k.
Proof.
  intros Hk Hi Hbits Hn E.
  apply rounded_loop_inv in E as (c0 & E & ->); try assumption.
  cbn [rounded Rounded.parts_total].
  pose proof (counter_loop_parts _ _ _ _ _ _ _ _ _ E) as (Hlen & _).
  split; [exact Hlen|].
  assert (Hid : (0 < inject_Z k)%Q)
    by (change 0%Q with (inject_Z 0); now rewrite <- Zlt_Qlt).
  apply counter_loop_cycle in E as (_ & _ & Hent); [|exact Hi|exact Hid].
  intros i p Hp. apply Hent in Hp.
  change 1%Q with (inject_Z 1) in Hp.
  rewrite <- inject_Z_plus, <- !inject_Z_mult in Hp.
  rewrite <- Zle_Qle, <- Zlt_Qlt in Hp. exact Hp.
Qed.

(** C7. On binary64 numbers, with a 10-second interval and an ideal cycle
    time of 12.0 seconds (and any finite reject rate, 0 included) the
    production accumulator returns on every list of running flags (of fewer
    than [2 ^ 53 / 10] samples; a day has at most 86391), and any 120
    contiguous running samples raise [parts_total] by exactly 100: from the
    entry before them to their last entry, and from 0 to 100 when they open
    the day.  Several parts complete within one running sample when the
    interval exceeds the cycle time: for a cycle time that is a whole number
    [k] of seconds (with [k + interval] and the seconds of the day below
    [2 ^ 53]), at least [m] parts when the interval is at least [m] cycle
    times. *)
Theorem cycles_per_interval {G : Type} `{PRNG G} :
  (forall fuel reject running (g : G),
     (2 <= fuel)%nat -> 10 * Z.of_nat (length running) < 2 ^ 53 ->
     exists c g',
       Rounded.counter_loop fuel 10 (Binary64.Finite 12)
         (Binary64.Finite reject) running (seq 0 (length running))
         Rounded.counters0 g = (Ok c, g')
       /\ length (Rounded.parts_total c) = length running
       /\ (forall i x y,
             (forall j, (i < j <= i + 120)%nat ->
                exists r, running !! j = Some r /\ r <> 0) ->
             Rounded.parts_total c !! i = Some x ->
             Rounded.parts_total c !! (i + 120)%nat = Some y ->
             y = x + 100)
       /\ ((forall j, (j < 120)%nat -> exists r, running !! j = Some r /\ r <> 0) ->
           Rounded.parts_total c !! 119%nat = Some 100))
  /\ (forall fuel interval k reject running n (g g' : G) c m,
        0 <= interval -> 0 < k -> k + interval < 2 ^ 53 ->
        interval * Z.of_nat n < 2 ^ 53 ->
        m * k <= interval ->
        Rounded.counter_loop fuel interval (Binary64.Finite (inject_Z k))
          (Binary64.Finite reject) running (seq 0 n) Rounded.counters0 g
        = (Ok c, g') ->
        forall i x y r,
          Rounded.parts_total c !! i = Some x ->
          Rounded.parts_total c !! S i = Some y ->
          running !! S i = Some r -> r <> 0 ->
          x + m <= y).
Proof.
  split.
  - intros fuel reject running g Hfuel Hn.
    destruct (counter_loop_total fuel 10 12 reject running
                (length running) 0%nat counters0 g) as (c0 & g' & E0);
      [lia|reflexivity|lia|cbn [counters0 accum_cycle]; lra| |].
    { assert (inject_Z 2 <= inject_Z (Z.of_nat fuel))%Q
        by (rewrite <- Zle_Qle; lia).
      change (inject_Z 2) with 2%Q in *. change (inject_Z 10) with 10%Q. lra. }
    assert (E : Rounded.counter_loop fuel 10 (Binary64.Finite 12)
                  (Binary64.Finite reject) running (seq 0 (length running))
                  Rounded.counters0 g = (Ok (rounded c0), g')).
    { change Rounded.counters0 with (rounded counters0).
      apply (counter_loop_rounded fuel 10 12 12 reject running
               (reflexivity _) eq_refl ltac:(discriminate) eq_refl
               (seq 0 (length running)) counters0 g 0 0 (Ok c0) g');
        try reflexivity; try lia; [|exact E0].
      rewrite length_seq. lia. }
    exists (rounded c0), g'. split; [exact E|].
    apply (rounded_parts_closed fuel 10 12) in E as (Hlen & Hz);
      try reflexivity; try lia; try discriminate.
    split; [exact Hlen|]. split.
    + intros i x y Hrun Hx Hy. apply Hz in Hx. apply Hz in Hy.
      replace (S (i + 120)) with (S i + 120)%nat in Hy by lia.
      rewrite run_count_all_running in Hy by (intros j Hj; apply Hrun; lia).
      lia.
    + intros Hrun.
      assert (Hn' : (120 <= length running)%nat).
      { destruct (Hrun 119%nat) as (r & Hr & _); [lia|].
        apply lookup_lt_Some in Hr. lia. }
      destruct (lookup_lt_is_Some_2 (Rounded.parts_total (rounded c0)) 119%nat)
        as [x Hx]; [lia|].
      rewrite Hx. f_equal. apply Hz in Hx.
      change 120%nat with (0 + 120)%nat in Hx.
      rewrite run_count_all_running in Hx by (intros j Hj; apply Hrun; lia).
      cbn [run_count] in Hx. lia.
  - intros fuel interval k reject running n g g' c m Hi Hk Hbits Hn Hm E i x y r
      Hx Hy Hr Hne.
    apply rounded_parts_closed in E as (_ & Hz); try assumption.
    apply Hz in Hx. apply Hz in Hy.
    rewrite run_count_S, Hr in Hy.
    destruct (Z.eqb_spec r 0) as [?|_]; [contradiction|]. nia.
Qed.

(** [cycles_per_interval] on 121 running samples at 10 s and 12.0 s per
    part, and on two running samples at 30 s. *)
Lemma cycles_per_interval_witness :
  (exists c g',
     Rounded.counter_loop 2 10 (Binary64.Finite 12) (Binary64.Finite 0)
       (replicate 121 1) (seq 0 121) Rounded.counters0 7 = (Ok c, g')
     /\ Rounded.parts_total c !! 119%nat = Some 100
     /\ forall x y,
          Rounded.parts_total c !! 0%nat = Some x ->
          Rounded.parts_total c !! 120%nat = Some y -> y = x + 100)
  /\ (exists c g',
        Rounded.counter_loop 5 30 (Binary64.Finite 12) (Binary64.Finite 0)
          [1; 1] (seq 0 2) Rounded.counters0 7 = (Ok c, g')
        /\ Rounded.parts_total c = [2; 5] /\ 2 + 2 <= 5).
Proof.
  assert (Hrun : forall j, (j < 121)%nat ->
            exists r, replicate 121 1 !! j = Some r /\ r <> 0).
  { intros j Hj. exists 1. split; [|discriminate].
    now apply lookup_replicate_2. }
  split.
  - destruct (proj1 (@cycles_per_interval Z lcg) 2%nat 0%Q (replicate 121 1) 7)
      as (c & g' & E & _ & H120 & H119); [lia|reflexivity|].
    exists c, g'. split; [exact E|]. split.
    + apply H119. intros j Hj. apply Hrun. lia.
    + intros x y. apply (H120 0%nat). intros j Hj. apply Hrun. lia.
  - eexists ?[c], ?[g'].
    assert (E : Rounded.counter_loop 5 30 (Binary64.Finite 12)
                  (Binary64.Finite 0) [1; 1] (seq 0 2) Rounded.counters0 7
                = (Ok ?c, ?g')) by (vm_compute; reflexivity).
    split; [exact E|]. split; [reflexivity|].
    apply (proj2 (@cycles_per_interval Z lcg) 5%nat 30 12 0%Q [1; 1] 2%nat
             7 _ _ 2 ltac:(discriminate) eq_refl eq_refl eq_refl
             ltac:(discriminate) E 0%nat 2 5 1); try reflexivity.
    discriminate.
Defined.

(** With a cycle time that is a whole number [k] of seconds, on binary64
    numbers: at every instant [parts_total] is the running time so far
    divided by the cycle time, rounded down. *)
Theorem parts_follow_run_time {G : Type} `{PRNG G} fuel interval k reject
    running n (g g' : G) c :
  0 <= interval -> 0 < k -> k + interval < 2 ^ 53 ->
  interval * Z.of_nat n < 2 ^ 53 ->
  Rounded.counter_loop fuel interval (Binary64.Finite (inject_Z k))
    (Binary64.Finite reject) running (seq 0 n) Rounded.counters0 g
  = (Ok c, g') ->
  length (Rounded.parts_total c) = n
  /\ forall i p, Rounded.parts_total c !! i = Some p ->
       p = interval * run_count running (S i) / k.
Proof.
  intros Hi Hk Hbits Hn E.
  apply rounded_parts_closed in E as (Hlen & Hz); try assumption.
  split; [exact Hlen|]. intros i p Hp. apply Hz in Hp.
  apply (Z.div_unique _ _ _ (interval * run_count running (S i) - p * k)); lia.
Qed.

(** [parts_follow_run_time] on three samples at 30 s, the second one not
    running, with 12 s per part. *)
Lemma parts_follow_run_time_witness :
  exists c g',
    Rounded.counter_loop 5 30 (Binary64.Finite 12) (Binary64.Finite 0)
      [1; 0; 1] (seq 0 3) Rounded.counters0 7 = (Ok c, g')
    /\ Rounded.parts_total c = [2; 2; 5]
    /\ Rounded.parts_total c !! 2%nat = Some (30 * 2 / 12).
Proof.
  eexists ?[c], ?[g'].
  assert (E : Rounded.counter_loop 5 30 (Binary64.Finite 12)
                (Binary64.Finite 0) [1; 0; 1] (seq 0 3) Rounded.counters0 7
              = (Ok ?c, ?g')) by (vm_compute; reflexivity).
  split; [exact E|]. split; [reflexivity|].
  destruct (parts_follow_run_time 5 30 12 0 [1; 0; 1] 3 7 _ _
              ltac:(discriminate) eq_refl eq_refl eq_refl E) as [_ Hp].
  rewrite (Hp 2%nat 5 eq_refl). reflexivity.
Defined.

(** ** A cycle time too small to count *)

(** A positive cycle time is not enough for the part loop to end: when the
    accumulator is so much larger that subtracting the cycle time gives the
    accumulator back, the test of the [while] stays true, and a running
    instant never completes, whatever the fuel. *)
Theorem absorbed_cycle_time_never_ends {G : Type} `{PRNG G} fuel interval
    ideal reject running i c (g : G) r x :
  running !! i = Some r -> r <> 0 ->
  Binary64.of_int interval = Ok x ->
  Binary64.ge (Binary64.add (Rounded.accum_cycle c) x) ideal = true ->
  Binary64.sub (Binary64.add (Rounded.accum_cycle c) x) ideal
  = Binary64.add (Rounded.accum_cycle c) x ->
  fst (Rounded.counter_step fuel interval ideal reject running i c g)
  = OutOfFuel.
Proof.
  intros Hr Hne Hx Hge Hsub. unfold Rounded.counter_step.
  unfold mbind at 1, st_bind at 1, lift at 1.
  apply getitem_ok in Hr. rewrite Hr.
  destruct (Z.eqb_spec r 0) as [?|_]; [contradiction|]. cbn [negb].
  unfold mbind at 1, st_bind at 1. unfold mbind at 1, st_bind at 1, lift.
  rewrite Hx.
  match goal with
  | |- context [Rounded.cycle_loop fuel ideal reject ?c0 g] =>
      enough (Hloop : forall n c1 g1,
                Rounded.accum_cycle c1 = Rounded.accum_cycle c0 ->
                fst (Rounded.cycle_loop n ideal reject c1 g1) = OutOfFuel)
        by (specialize (Hloop fuel c0 g eq_refl);
            destruct (Rounded.cycle_loop fuel ideal reject c0 g) as [[?| |] ?];
            cbn [fst] in *; congruence)
  end.
  cbn [Rounded.accum_cycle].
  induction n as [|n IH]; intros c1 g1 Hacc; cbn [Rounded.cycle_loop];
    rewrite Hacc, Hge; [reflexivity|].
  unfold mbind, st_bind, rand. destruct (random g1) as [u g2].
  apply IH. cbn [Rounded.accum_cycle]. exact Hsub.
Qed.

(** [absorbed_cycle_time_never_ends] on a 10-second interval with the cycle
    time [1e-16]: the first running instant is still in the part loop after
    1000 parts. *)
Lemma absorbed_cycle_time_never_ends_witness :
  Binary64.round (1 # 10 ^ 16)
  = Binary64.Finite (2028240960365167 # 20282409603651670423947251286016)
  /\ fst (Rounded.counter_step 1000 10
            (Binary64.Finite (2028240960365167 # 20282409603651670423947251286016))
            (Binary64.Finite 0) [1] 0 Rounded.counters0 7)
     = OutOfFuel.
Proof.
  split; [vm_compute; reflexivity|].
  apply (absorbed_cycle_time_never_ends 1000 10 _ _ [1] 0%nat Rounded.counters0
           7 1 (Binary64.Finite 10)); try reflexivity.
  discriminate.
Defined.
